(** * Mila-Assist, LLM + FAISS service: index life cycle and auto-sync

    A shallow embedding of

    - [llm-service/src/faiss_manager.py]  (class [IndexFAISS]),
    - [llm-service/src/auto_sync.py]      (class [FAISSAutoSync]),
    - [llm-service/src/llm_server.py]     (the endpoints [/search] and
      [/faiss/rebuild]),
    - [llm-service/src/generateur_llm.py] (the singleton [obtenir_generateur]),

    followed by the properties of the index life cycle, of the rebuild
    triggers and of the confidence score.

    Python objects are mutated in place and exceptions leave earlier
    mutations visible; both are modelled by a state-and-exception monad
    [Prog] over one global state [Etat].  Everything the service consults
    but does not own (MySQL answers, the sentence encoder, the outcome of
    disk writes, the clock) is an input, gathered in the record [Monde]. *)

From Stdlib Require Import ZArith Floats Lia.
From stdpp Require Import base list strings gmap.

Local Open Scope Z_scope.

(** ** Exceptions and the program monad *)

Inductive Exc : Type :=
| ValueError (message : string)
| ErreurFaiss                      (* an assertion of the faiss library *)
| ErreurMySQL                      (* mysql.connector.Error *)
| ErreurEncodage                   (* raised by the sentence encoder *)
| ErreurOS                         (* OSError of the file system *)
| ErreurJSON                       (* json.JSONDecodeError *)
| ExceptionDe (contexte : string) (cause : Exc).
                                   (* raise Exception(f"<contexte>: {e}") *)

Inductive Res (A : Type) : Type :=
| Retour (a : A)
| Leve (e : Exc).
Arguments Retour {A} a.
Arguments Leve {A} e.

(** ** Numeric vectors and the flat inner-product index of faiss *)

Definition vecteur : Type := list float.

(** The arrays handed to faiss are [float32].  A binary32 value is carried
    by the binary64 float equal to it: [f32] rounds a binary64 value to the
    nearest binary32 value (ties to even, overflow to an infinity), as the
    conversion to [np.float32] does, and an operation of binary32
    arithmetic is the binary64 operation followed by [f32], which on
    binary32 operands gives the correctly rounded binary32 result. *)
Definition arrondi32 (x : spec_float) : spec_float :=
  match x with
  | S754_finite s m e => SpecFloat.binary_round 24 128 s m e
  | _ => x
  end.

Definition f32 (x : float) : float := SF2Prim (arrondi32 (Prim2SF x)).

Definition add32 (a b : float) : float := f32 (PrimFloat.add a b).
Definition mul32 (a b : float) : float := f32 (PrimFloat.mul a b).
Definition div32 (a b : float) : float := f32 (PrimFloat.div a b).
Definition sqrt32 (a : float) : float := f32 (PrimFloat.sqrt a).

(** The largest finite binary32 value. *)
Definition FLT_MAX : float := 0x1.fffffep+127.

(** The inner product of two rows, accumulated from the first component on.
    The order of the additions inside the library, and whether it fuses a
    product with its addition, are not part of its interface: the
    properties below use a score only through its comparison with other
    scores. *)
Definition produit_scalaire (x y : vecteur) : float :=
  fold_left (fun acc '(a, b) => add32 acc (mul32 a b)) (zip x y) 0%float.

(** [faiss.normalize_L2]: a row of squared norm [nr > 0] is scaled by
    [1 / sqrt nr]; other rows (a zero row, a row with a NaN norm) are left
    as they are. *)
Definition normalize_L2 (x : vecteur) : vecteur :=
  let nr := produit_scalaire x x in
  if PrimFloat.ltb 0%float nr
  then let inv_nr := div32 1%float (sqrt32 nr) in
       map (fun a => mul32 a inv_nr) x
  else x.

(** [faiss.IndexFlatIP]: the dimension [d] (here [index_d]) and the stored rows; [ntotal] is
    the number of rows. *)
Record FaissIndex : Type := { index_d : nat; xb : list vecteur }.

Definition IndexFlatIP (dim : nat) : FaissIndex := {| index_d := dim; xb := [] |}.

Definition faiss_ntotal (i : FaissIndex) : Z := Z.of_nat (length (xb i)).

(** [index.add(x)]: faiss asserts that the rows have the dimension of the
    index, then appends them. *)
Definition faiss_add (i : FaissIndex) (x : list vecteur) : option FaissIndex :=
  if forallb (fun v => Nat.eqb (length v) (index_d i)) x
  then Some {| index_d := index_d i; xb := xb i ++ x |}
  else None.

(** The search keeps its results in a heap whose slots start at the score
    [-FLT_MAX] with the label [-1]; a row enters only with a score above
    the heap's smallest one.  So a row whose score is NaN, [-inf] or
    [-FLT_MAX] is never returned. *)
Definition score_admis (c : float * Z) : bool :=
  PrimFloat.ltb (-0x1.fffffep+127)%float (fst c).

(** Insertion of a scored position, which precedes every position of the
    list, in a list kept by decreasing score: among equal scores the
    earlier position comes first. *)
Fixpoint inserer_score (c : float * Z) (l : list (float * Z)) : list (float * Z) :=
  match l with
  | [] => [c]
  | c' :: r => if PrimFloat.ltb (fst c) (fst c') then c' :: inserer_score c r
               else c :: l
  end.

Definition scores_tries (i : FaissIndex) (q : vecteur) : list (float * Z) :=
  foldr inserer_score []
        (List.filter score_admis
           (imap (fun pos v => (produit_scalaire q v, Z.of_nat pos)) (xb i))).

(** [index.search(q, k)] for one query row: always [k] slots, the best
    scores first; a slot without a neighbour holds the score [-FLT_MAX]
    and the label [-1]. *)
Definition faiss_search (i : FaissIndex) (q : vecteur) (k : nat) : list float * list Z :=
  let slots := take k (scores_tries i q ++
                       replicate k ((-0x1.fffffep+127)%float, -1)) in
  (map fst slots, map snd slots).

(** ** Durable storage *)

(** A path is the sequence of its components, as [pathlib.Path.parts];
    [parent] drops the last one. *)
Definition Chemin : Type := list string.

Definition parent (c : Chemin) : Chemin := removelast c.

(** What a file holds, as far as the loaders can tell. *)
Inductive Fichier : Type :=
| FichierIndex (i : FaissIndex)      (* as written by faiss.write_index *)
| FichierJson (ids : list Z)         (* as written by json.dump of the mapping *)
| FichierIllisible.                  (* truncated or foreign content *)

Abbreviation Disque := (gmap Chemin Fichier).

(** How a write to a path ends. *)
Inductive Issue : Type :=
| Ecrit                (* the new content replaces the old one *)
| RefuseAvant          (* raises before the file is touched *)
| Interrompu.          (* raises after the file was truncated *)

(** ** The knowledge source and the other collaborators *)

(** A row of [SELECT id, question, reponse FROM base_connaissances]. *)
Record Ligne : Type := { row_id : Z; row_question : string; row_reponse : string }.

Record Monde : Type := {
  (* MySQL, as seen by _verifier_triggers *)
  connexion_surveillance : bool;       (* mysql.connector.connect succeeds *)
  uptime_row : option Z;               (* SHOW GLOBAL STATUS LIKE 'Uptime' *)
  dernier_changement : option Z;       (* MAX(last_update), NULL is None *)
  nombre_entrees : Z;                  (* COUNT( * ) *)
  (* MySQL, as seen by rebuild_depuis_mysql *)
  connexion_rebuild : bool;
  rows : list Ligne;                   (* active rows, ORDER BY id *)
  (* the sentence encoder *)
  encoder_batch : list string -> option (list vecteur);
  (* the file system *)
  mkdir_ok : bool;
  issue_write_index : Issue;
  issue_json_dump : Issue;
  (* datetime.now(), read twice by _declencher_rebuild, in microseconds *)
  now_garde : Z;
  now_debut : Z
}.

(** ** The objects of the service *)

Record IndexFAISS : Type := {
  chemin_index : Chemin;
  dimension : nat;
  index : option FaissIndex;
  id_mapping : list Z
}.

Record FAISSAutoSync : Type := {
  last_update_timestamp : option Z;
  rebuild_en_cours : bool;
  dernier_rebuild_timestamp : option Z;
  rebuild_min_interval_seconds : Z
}.

(** The reason handed to [_declencher_rebuild] (an f-string in the source). *)
Inductive Raison : Type :=
| IndexNExistePas
| MySQLRedemarre (uptime : Z)
| BaseModifiee (t : Z).

(** What the loggers receive, for the messages the properties speak of. *)
Inductive Evenement : Type :=
| LogIndexIntrouvable
| LogMappingIntrouvable
| LogDimensionDifferente (lue attendue : nat)
| LogIncoherence (ids : nat) (vecteurs : Z)
| LogErreurChargement (e : Exc)
| LogIndexVide
| LogBaseVide
| LogErreurRebuild (e : Exc)
| LogTrigger1
| LogTrigger2 (uptime : Z)
| LogInitTimestamp (t : Z)
| LogTrigger3 (ancien nouveau : Z)
| LogAucuneModification (t : Z)
| LogSkipEnCours
| LogSkipTropTot (raison : Raison)
| LogDeclenchement (raison : Raison)
| LogRebuildReussi (n : nat)
| LogRebuildEchoue (raison : string)
| LogErreurLorsDuRebuild (e : Exc)
| LogErreurSurveillance (e : Exc).

(** The process state.  [index_global] is the singleton of
    [obtenir_index()]: the request path and the synchronizer hold the same
    object, so one field stands for both references. *)
Record Etat : Type := {
  index_global : IndexFAISS;
  auto_sync : FAISSAutoSync;
  disque : Disque;
  ecritures : list Disque;     (* ghost: the disk after each write, latest first *)
  journal : list Evenement     (* latest first *)
}.

Definition Prog (A : Type) : Type := Etat -> Res A * Etat.

Definition retourner {A} (a : A) : Prog A := fun s => (Retour a, s).

Definition lier {A B} (m : Prog A) (k : A -> Prog B) : Prog B :=
  fun s => match m s with
           | (Retour a, s') => k a s'
           | (Leve e, s') => (Leve e, s')
           end.

Definition lever {A} (e : Exc) : Prog A := fun s => (Leve e, s).

(** [try: m except Exception as e: h e] *)
Definition essayer {A} (m : Prog A) (h : Exc -> Prog A) : Prog A :=
  fun s => match m s with
           | (Retour a, s') => (Retour a, s')
           | (Leve e, s') => h e s'
           end.

(** [try: m finally: f] *)
Definition finalement {A} (m : Prog A) (f : Prog unit) : Prog A :=
  fun s => match m s with
           | (r, s') => match f s' with
                        | (Retour _, s'') => (r, s'')
                        | (Leve e, s'') => (Leve e, s'')
                        end
           end.

#[global] Instance prog_ret : MRet Prog := @retourner.
#[global] Instance prog_bind : MBind Prog := fun A B k m => lier m k.

Definition lire {A} (f : Etat -> A) : Prog A := fun s => (Retour (f s), s).
Definition modifier (f : Etat -> Etat) : Prog unit := fun s => (Retour tt, f s).

Definition avec_index (f : IndexFAISS -> IndexFAISS) (s : Etat) : Etat :=
  {| index_global := f (index_global s); auto_sync := auto_sync s;
     disque := disque s; ecritures := ecritures s; journal := journal s |}.

Definition avec_sync (f : FAISSAutoSync -> FAISSAutoSync) (s : Etat) : Etat :=
  {| index_global := index_global s; auto_sync := f (auto_sync s);
     disque := disque s; ecritures := ecritures s; journal := journal s |}.

Definition avec_disque (dsk : Disque) (s : Etat) : Etat :=
  {| index_global := index_global s; auto_sync := auto_sync s;
     disque := dsk; ecritures := dsk :: ecritures s; journal := journal s |}.

Definition logger (e : Evenement) : Prog unit :=
  modifier (fun s =>
    {| index_global := index_global s; auto_sync := auto_sync s;
       disque := disque s; ecritures := ecritures s; journal := e :: journal s |}).

Definition set_index (i : option FaissIndex) (o : IndexFAISS) : IndexFAISS :=
  {| chemin_index := chemin_index o; dimension := dimension o;
     index := i; id_mapping := id_mapping o |}.

Definition set_id_mapping (l : list Z) (o : IndexFAISS) : IndexFAISS :=
  {| chemin_index := chemin_index o; dimension := dimension o;
     index := index o; id_mapping := l |}.

Definition set_dimension (n : nat) (o : IndexFAISS) : IndexFAISS :=
  {| chemin_index := chemin_index o; dimension := n;
     index := index o; id_mapping := id_mapping o |}.

Definition self : Prog IndexFAISS := lire index_global.

(** [open(c, 'w')] followed by the write: the outcome is the world's. *)
Definition ecrire (c : Chemin) (f : Fichier) (issue : Issue) : Prog unit :=
  match issue with
  | Ecrit => modifier (fun s => avec_disque (<[c := f]> (disque s)) s)
  | RefuseAvant => lever ErreurOS
  | Interrompu =>
      modifier (fun s => avec_disque (<[c := FichierIllisible]> (disque s)) s);;
      lever ErreurOS
  end.

(** [if b: m] *)
Definition quand (b : bool) (m : Prog unit) : Prog unit :=
  if b then m else mret tt.

Definition existe (c : Chemin) : Prog bool :=
  lire (fun s => bool_decide (is_Some (disque s !! c))).

Definition faiss_read_index (c : Chemin) : Prog FaissIndex :=
  fun s => match disque s !! c with
           | Some (FichierIndex i) => (Retour i, s)
           | _ => (Leve ErreurFaiss, s)
           end.

Definition json_load (c : Chemin) : Prog (list Z) :=
  fun s => match disque s !! c with
           | Some (FichierJson ids) => (Retour ids, s)
           | Some _ => (Leve ErreurJSON, s)
           | None => (Leve ErreurOS, s)
           end.

(** Python's [x or y] on an optional path, an optional dimension and an
    optional [k]: [None], the empty string and [0] are falsy. *)
Definition chemin_ou (c : option Chemin) (defaut : Chemin) : Chemin :=
  match c with
  | Some (_ :: _ as c') => c'
  | _ => defaut
  end.

Definition nat_ou (n : option nat) (defaut : nat) : nat :=
  match n with
  | Some (S _ as n') => n'
  | _ => defaut
  end.

Definition Z_ou (k : option Z) (defaut : Z) : Z :=
  match k with
  | Some k' => if k' =? 0 then defaut else k'
  | None => defaut
  end.

(** The statistics dictionary of a rebuild; the durations and the file
    size, which are floats read from the clock and the disk, are left out. *)
Inductive Stats : Type :=
| StatsEchec (raison : string)
| StatsSucces (nombre_vecteurs : nat) (dim : nat).

Definition success (st : Stats) : bool :=
  match st with
  | StatsSucces _ _ => true
  | StatsEchec _ => false
  end.

Definition mapping_de (c : Chemin) : Chemin := parent c ++ ["id_mapping.json"%string].

Section Service.

(** The environment variables read when the modules are imported. *)
Variable FAISS_INDEX_PATH : Chemin.
Variable FAISS_TOP_K : Z.
Variable EMBEDDINGS_DIMENSION : nat.
Variable AUTO_SYNC_MYSQL_UPTIME_THRESHOLD : Z.

(** ** faiss_manager.py: class IndexFAISS *)

(** The constructor of a flat index only records the dimension; it is taken
    as total, so the [except] of the source is never entered. *)
Definition _creer_index : Prog unit :=
  o ← self;
  modifier (avec_index (set_index (Some (IndexFlatIP (dimension o)))));;
  modifier (avec_index (set_id_mapping [])).

Definition _charger_index : Prog unit :=
  essayer
    (o ← self;
     let chemin := chemin_index o in
     present ← existe chemin;
     if negb present then
       logger LogIndexIntrouvable;;
       _creer_index
     else
       idx ← faiss_read_index chemin;
       modifier (avec_index (set_index (Some idx)));;
       let chemin_mapping := mapping_de chemin in
       mapping_present ← existe chemin_mapping;
       (if mapping_present : bool then
          ids ← json_load chemin_mapping;
          modifier (avec_index (set_id_mapping ids))
        else
          logger LogMappingIntrouvable;;
          modifier (avec_index (set_id_mapping [])) : Prog unit);;
       o ← self;
       quand (negb (Nat.eqb (index_d idx) (dimension o)))
         (logger (LogDimensionDifferente (index_d idx) (dimension o));;
          modifier (avec_index (set_dimension (index_d idx))));;
       o ← self;
       quand (negb (Z.of_nat (length (id_mapping o)) =? faiss_ntotal idx))
         (logger (LogIncoherence (length (id_mapping o)) (faiss_ntotal idx))))
    (fun e =>
       logger (LogErreurChargement e);;
       _creer_index).

Definition IndexFAISS_init (chemin : option Chemin) (dim : option nat)
    (creer_nouveau : bool) : Prog unit :=
  modifier (avec_index (fun _ =>
    {| chemin_index := chemin_ou chemin FAISS_INDEX_PATH;
       dimension := nat_ou dim EMBEDDINGS_DIMENSION;
       index := None;
       id_mapping := [] |}));;
  if creer_nouveau then _creer_index else _charger_index.

(** The query is one row ([shape (dimension,)] or [(1, dimension)]); the
    result is the single row of [distances] and the single row of
    [indices].  The warning logged when [k] is reduced is not recorded. *)
Definition rechercher (vecteur_requete : vecteur) (k : option Z)
    : Prog (list float * list Z) :=
  let k := Z_ou k FAISS_TOP_K in
  essayer
    (o ← self;
     match index o with
     | None => lever (ValueError "Index FAISS non charge")
     | Some idx =>
         let k_effective := Z.min k (faiss_ntotal idx) in
         if k_effective =? 0 then
           logger LogIndexVide;;
           mret ([0%float], [-1])
         else if negb (Nat.eqb (length vecteur_requete) (dimension o)) then
           lever (ValueError "Dimension du vecteur != dimension de l'index")
         else
           let q := normalize_L2 vecteur_requete in
           (* index.search asserts d == self.d and k > 0 *)
           if negb (Nat.eqb (length q) (index_d idx)) || (k_effective <=? 0)
           then lever ErreurFaiss
           else mret (faiss_search idx q (Z.to_nat k_effective))
     end)
    (fun e => lever (ExceptionDe "Erreur recherche FAISS" e)).

Definition ajouter_vecteurs (vecteurs : list vecteur) (ids : list Z)
    (normaliser : bool) : Prog unit :=
  essayer
    (o ← self;
     match index o with
     | None => lever (ValueError "Index FAISS non charge")
     | Some idx =>
         if negb (Nat.eqb (length ids) (length vecteurs)) then
           lever (ValueError "Nombre d'IDs != nombre de vecteurs")
         else
           let vecteurs := if normaliser then map normalize_L2 vecteurs else vecteurs in
           match faiss_add idx vecteurs with
           | None => lever ErreurFaiss
           | Some idx' =>
               modifier (avec_index (set_index (Some idx')));;
               modifier (avec_index (fun o => set_id_mapping (id_mapping o ++ ids) o))
           end
     end)
    (fun e => lever (ExceptionDe "Erreur ajout vecteurs FAISS" e)).

(** The two writes of [sauvegarder]; what follows them in the source only
    reads the size of the file just written and logs it. *)
Definition sauvegarder (w : Monde) (chemin : option Chemin) : Prog unit :=
  o ← self;
  let chemin := chemin_ou chemin (chemin_index o) in
  essayer
    (match index o with
     | None => lever (ValueError "Index FAISS non charge")
     | Some idx =>
         quand (negb (mkdir_ok w)) (lever ErreurOS);;
         ecrire chemin (FichierIndex idx) (issue_write_index w);;
         ecrire (mapping_de chemin) (FichierJson (id_mapping o)) (issue_json_dump w)
     end)
    (fun e => lever e).

Definition rebuild_depuis_mysql (w : Monde) : Prog Stats :=
  essayer
    (quand (negb (connexion_rebuild w)) (lever ErreurMySQL);;
     match rows w with
     | [] =>
         logger LogBaseVide;;
         mret (StatsEchec "Base de donnees vide")
     | _ :: _ =>
         _creer_index;;
         let textes := map (fun row => (row_question row ++ " " ++ row_reponse row)%string) (rows w) in
         let ids := map row_id (rows w) in
         match encoder_batch w textes with
         | None => lever ErreurEncodage
         | Some embeddings =>
             ajouter_vecteurs embeddings ids true;;
             sauvegarder w None;;
             o ← self;
             mret (StatsSucces (length (rows w)) (dimension o))
         end
     end)
    (fun e =>
       logger (LogErreurRebuild e);;
       lever (ExceptionDe "Erreur rebuild FAISS" e)).

(** The property [ntotal] of the class. *)
Definition ntotal (o : IndexFAISS) : Z :=
  match index o with
  | Some idx => faiss_ntotal idx
  | None => 0
  end.

(** ** auto_sync.py: class FAISSAutoSync *)

Definition set_last_update_timestamp (t : option Z) (a : FAISSAutoSync) : FAISSAutoSync :=
  {| last_update_timestamp := t; rebuild_en_cours := rebuild_en_cours a;
     dernier_rebuild_timestamp := dernier_rebuild_timestamp a;
     rebuild_min_interval_seconds := rebuild_min_interval_seconds a |}.

Definition set_rebuild_en_cours (b : bool) (a : FAISSAutoSync) : FAISSAutoSync :=
  {| last_update_timestamp := last_update_timestamp a; rebuild_en_cours := b;
     dernier_rebuild_timestamp := dernier_rebuild_timestamp a;
     rebuild_min_interval_seconds := rebuild_min_interval_seconds a |}.

Definition set_dernier_rebuild_timestamp (t : option Z) (a : FAISSAutoSync) : FAISSAutoSync :=
  {| last_update_timestamp := last_update_timestamp a;
     rebuild_en_cours := rebuild_en_cours a;
     dernier_rebuild_timestamp := t;
     rebuild_min_interval_seconds := rebuild_min_interval_seconds a |}.

(** The fields set by [FAISSAutoSync.__init__]. *)
Definition FAISSAutoSync_init : FAISSAutoSync :=
  {| last_update_timestamp := None; rebuild_en_cours := false;
     dernier_rebuild_timestamp := None; rebuild_min_interval_seconds := 300 |}.

(** [(datetime.now() - dernier).total_seconds() < min_interval], on
    timestamps counted in microseconds. *)
Definition trop_tot (a : FAISSAutoSync) (now : Z) : bool :=
  match dernier_rebuild_timestamp a with
  | Some dernier => now - dernier <? rebuild_min_interval_seconds a * 1000000
  | None => false
  end.

Definition _declencher_rebuild (w : Monde) (raison : Raison) : Prog unit :=
  a ← lire auto_sync;
  if rebuild_en_cours a then
    logger LogSkipEnCours
  else if trop_tot a (now_garde w) then
    logger (LogSkipTropTot raison)
  else
    finalement
      (essayer
         (modifier (avec_sync (set_rebuild_en_cours true));;
          modifier (avec_sync (set_dernier_rebuild_timestamp (Some (now_debut w))));;
          logger (LogDeclenchement raison);;
          stats ← rebuild_depuis_mysql w;
          match stats with
          | StatsSucces n _ => logger (LogRebuildReussi n)
          | StatsEchec r => logger (LogRebuildEchoue r)
          end)
         (fun e => logger (LogErreurLorsDuRebuild e)))
      (modifier (avec_sync (set_rebuild_en_cours false))).

(** The third rule of [_verifier_triggers], entered with the row of
    [MAX(last_update)] when it is not NULL. *)
Definition trigger_modification (w : Monde) (dernier : Z) : Prog unit :=
  a ← lire auto_sync;
  match last_update_timestamp a with
  | None =>
      logger (LogInitTimestamp dernier);;
      modifier (avec_sync (set_last_update_timestamp (Some dernier)))
  | Some connu =>
      if connu <? dernier then
        logger (LogTrigger3 connu dernier);;
        _declencher_rebuild w (BaseModifiee dernier);;
        modifier (avec_sync (set_last_update_timestamp (Some dernier)))
      else
        logger (LogAucuneModification dernier)
  end.

Definition _verifier_triggers (w : Monde) : Prog unit :=
  a ← lire auto_sync;
  if rebuild_en_cours a then mret tt
  else
    essayer
      (present ← existe FAISS_INDEX_PATH;
       if negb present then
         logger LogTrigger1;;
         _declencher_rebuild w IndexNExistePas
       else
         quand (negb (connexion_surveillance w)) (lever ErreurMySQL);;
         let regle_3 : Prog unit :=
           match dernier_changement w with
           | Some dernier => trigger_modification w dernier
           | None => mret tt
           end in
         match uptime_row w with
         | Some uptime_seconds =>
             if uptime_seconds <? AUTO_SYNC_MYSQL_UPTIME_THRESHOLD then
               logger (LogTrigger2 uptime_seconds);;
               _declencher_rebuild w (MySQLRedemarre uptime_seconds)
             else regle_3
         | None => regle_3
         end)
      (fun e => logger (LogErreurSurveillance e)).

(** The [while self.running] loop of [_boucle_surveillance], for a finite
    number of iterations: one world per poll; the sleeps only let the clock
    of the next world advance. *)
Fixpoint boucle_continue (polls : list Monde) : Prog unit :=
  match polls with
  | [] => mret tt
  | w :: suite =>
      essayer (_verifier_triggers w) (fun e => logger (LogErreurSurveillance e));;
      boucle_continue suite
  end.

(** [_boucle_surveillance]: the initial check, outside any [try], then the
    loop. *)
Definition _boucle_surveillance (polls : list Monde) : Prog unit :=
  match polls with
  | [] => mret tt
  | w :: suite => _verifier_triggers w;; boucle_continue suite
  end.

Definition forcer_rebuild (w : Monde) : Prog Stats := rebuild_depuis_mysql w.

End Service.

(** ** llm_server.py: the confidence of rechercher_et_generer *)

(** The builtins [min(a, b)] and [max(a, b)] on floats: the first argument
    is kept unless the second is strictly smaller (resp. greater). *)
Definition py_min (a b : float) : float := if PrimFloat.ltb b a then b else a.
Definition py_max (a b : float) : float := if PrimFloat.ltb a b then b else a.

(** [confiance = max(0.0, min(1.0, (raw_score + 1.0) / 2.0))] *)
Definition confiance (raw_score : float) : float :=
  py_max 0 (py_min 1 (PrimFloat.div (PrimFloat.add raw_score 1) 2)).

(** ** faiss_manager.py: obtenir_ids_mysql *)

(** [self.id_mapping[idx]] for a position inside the mapping, [-1] for any
    other position (the warning logged for it is not recorded).  The
    argument is the row of positions of a one-query search, which is what
    [indices_faiss.flatten()] is there. *)
Definition id_de_position (mapping : list Z) (idx : Z) : Z :=
  if (0 <=? idx) && (idx <? Z.of_nat (length mapping))
  then default (-1) (mapping !! Z.to_nat idx)
  else -1.

Definition obtenir_ids_mysql (indices_faiss : list Z) : Prog (list Z) :=
  o ← self;
  mret (map (id_de_position (id_mapping o)) indices_faiss).

(** ** generateur_llm.py: obtenir_generateur *)

(** The two module globals; [G] stands for the class [GenerateurLLM]. *)
Record EtatGenerateur (G : Type) : Type := {
  _generateur_global : option G;
  _llm_disponible : bool
}.
Arguments _generateur_global {G} _.
Arguments _llm_disponible {G} _.

(** [construire] is what [GenerateurLLM()] does at this call: an instance,
    or an exception. *)
Definition obtenir_generateur {G : Type} (construire : Res G) (optionnel : bool)
    (st : EtatGenerateur G) : Res (option G) * EtatGenerateur G :=
  match _generateur_global st, _llm_disponible st with
  | None, false =>
      match construire with
      | Retour g =>
          (Retour (Some g), {| _generateur_global := Some g; _llm_disponible := true |})
      | Leve e =>
          if optionnel
          then (Retour None,
                {| _generateur_global := _generateur_global st; _llm_disponible := false |})
          else (Leve e, st)
      end
  | g, _ => (Retour g, st)
  end.

Definition llm_est_disponible {G : Type} (st : EtatGenerateur G) : bool :=
  _llm_disponible st.

(** A run of calls, each with what the constructor would do and its
    [optionnel] argument; an exception of a call is kept aside and the next
    call goes on from the globals as they are. *)
Fixpoint appels_generateur {G : Type} (appels : list (Res G * bool))
    (st : EtatGenerateur G) : list (Res (option G)) * EtatGenerateur G :=
  match appels with
  | [] => ([], st)
  | (construire, optionnel) :: suite =>
      let '(r, st') := obtenir_generateur construire optionnel st in
      let '(rs, st'') := appels_generateur suite st' in
      (r :: rs, st'')
  end.

(** ** llm_server.py: the endpoints *)

Record RequeteRecherche : Type := {
  req_embedding : option (list float);
  req_question : string;
  req_k : Z
}.

(** The response model, without [temps_ms], which is read from the clock. *)
Record ReponseRecherche : Type := {
  rep_reponse : string;
  rep_confiance : float;
  rep_sources : list Z
}.

Inductive Detail : Type :=
| AucunResultat                    (* "Aucun resultat trouve" *)
| DetailErreur (e : Exc).          (* str(e) *)

Inductive ReponseHTTP (A : Type) : Type :=
| Reponse200 (corps : A)
| HTTPException (status_code : Z) (detail : Detail).
Arguments Reponse200 {A} corps.
Arguments HTTPException {A} status_code detail.

(** What a request consults besides the index. *)
Record MondeRequete : Type := {
  (* encodeur.encoder(nettoyer_texte(question), normalize=True) *)
  encoder_question : string -> Res vecteur;
  (* mysql.connector.connect, then the rows of
     SELECT ... WHERE id IN (ids) ORDER BY FIELD(id, ids) *)
  connexion_contexte : bool;
  lignes_contexte : list Z -> list Ligne;
  (* obtenir_generateur(optionnel=True), and generer_reponse_chatbot *)
  generateur : option (string -> string -> Res string)
}.

Definition nl : string := String (Ascii.ascii_of_nat 10) "".

(** [sep.join(parts)] *)
Fixpoint joindre (sep : string) (parts : list string) : string :=
  match parts with
  | [] => ""
  | [x] => x
  | x :: suite => x ++ sep ++ joindre sep suite
  end.

Definition contexte_de (rows : list Ligne) : string :=
  joindre (nl ++ nl)
    (map (fun row => ("Q: " ++ row_question row ++ nl ++ "R: " ++ row_reponse row)%string)
         rows).

Definition PREFIXE_INCERTAIN : string :=
  "Je ne suis pas certain d'avoir bien compris votre question, mais voici ce que je peux vous dire : ".

(** [SEUIL_CONFIANCE = 0.65], the binary64 value nearest to it. *)
Definition SEUIL_CONFIANCE : float := 0x1.4cccccccccccdp-1%float.

Definition AUCUNE_REPONSE : string :=
  "Aucune reponse trouvee dans la base de connaissances.".

Section Serveur.

Variable FAISS_TOP_K : Z.

(** The body of the [try] of [rechercher_et_generer]; [None] stands for
    [raise HTTPException(status_code=404)].  The encoder and index
    singletons are those created when the service starts; reading
    [distances[0][0]] from an empty row is the [IndexError] of numpy, which
    no search result reaches. *)
Definition corps_recherche (m : MondeRequete) (requete : RequeteRecherche)
    : Prog (option ReponseRecherche) :=
  embedding_np ← match req_embedding requete with
                 | Some e => mret (map f32 e)
                 | None => fun s => (encoder_question m (req_question requete), s)
                 end;
  resultats ← rechercher FAISS_TOP_K embedding_np (Some (req_k requete));
  let distances := fst resultats in
  let indices := snd resultats in
  ids_mysql ← obtenir_ids_mysql indices;
  match ids_mysql with
  | [] => mret None
  | premier :: _ =>
      if premier =? -1 then mret None
      else
        quand (negb (connexion_contexte m)) (lever ErreurMySQL);;
        let rows := lignes_contexte m ids_mysql in
        let contexte := contexte_de rows in
        reponse_llm ← match generateur m with
                      | Some generer_reponse_chatbot =>
                          fun s => (generer_reponse_chatbot (req_question requete) contexte, s)
                      | None =>
                          match rows with
                          | row :: _ => mret (row_reponse row)
                          | [] => mret AUCUNE_REPONSE
                          end
                      end;
        match distances with
        | [] => lever (ValueError "IndexError: distances[0][0]")
        | raw_score :: _ =>
            let confiance_ := confiance raw_score in
            let reponse_llm :=
              if PrimFloat.ltb confiance_ SEUIL_CONFIANCE
              then (PREFIXE_INCERTAIN ++ reponse_llm)%string
              else reponse_llm in
            mret (Some {| rep_reponse := reponse_llm;
                          rep_confiance := confiance_;
                          rep_sources := ids_mysql |})
        end
  end.

(** [except HTTPException: raise] and
    [except Exception as e: raise HTTPException(status_code=500, detail=str(e))] *)
Definition rechercher_et_generer (m : MondeRequete) (requete : RequeteRecherche)
    (s : Etat) : ReponseHTTP ReponseRecherche * Etat :=
  match corps_recherche m requete s with
  | (Retour (Some reponse), s') => (Reponse200 reponse, s')
  | (Retour None, s') => (HTTPException 404 AucunResultat, s')
  | (Leve e, s') => (HTTPException 500 (DetailErreur e), s')
  end.

End Serveur.

(** [POST /faiss/rebuild], with the synchronizer singleton created when the
    service starts: the statistics under "Rebuild termine", or 500. *)
Definition endpoint_forcer_rebuild (w : Monde) (s : Etat) : ReponseHTTP Stats * Etat :=
  match forcer_rebuild w s with
  | (Retour stats, s') => (Reponse200 stats, s')
  | (Leve e, s') => (HTTPException 500 (DetailErreur e), s')
  end.

(** * Vocabulary of the properties *)

(** The state and the outcome of a run. *)
Definition etat_apres {A} (m : Prog A) (s : Etat) : Etat := snd (m s).
Definition resultat {A} (m : Prog A) (s : Etat) : Res A := fst (m s).

Definition avec_journal (j : list Evenement) (s : Etat) : Etat :=
  {| index_global := index_global s; auto_sync := auto_sync s;
     disque := disque s; ecritures := ecritures s; journal := j |}.

(** The texts handed to the encoder by a rebuild. *)
Definition textes_de (w : Monde) : list string :=
  map (fun row => (row_question row ++ " " ++ row_reponse row)%string) (rows w).

(** The object after [_creer_index]: an empty structure of the object's
    dimension and an empty mapping. *)
Definition index_vide (o : IndexFAISS) : IndexFAISS :=
  {| chemin_index := chemin_index o; dimension := dimension o;
     index := Some (IndexFlatIP (dimension o)); id_mapping := [] |}.

(** The object after the insertion step of a rebuild. *)
Definition index_reconstruit (o : IndexFAISS) (embeddings : list vecteur)
    (ids : list Z) : IndexFAISS :=
  {| chemin_index := chemin_index o; dimension := dimension o;
     index := Some {| index_d := dimension o; xb := map normalize_L2 embeddings |};
     id_mapping := ids |}.

(** The ways in which [ajouter_vecteurs] and [sauvegarder] fail during a
    rebuild. *)
Definition insertion_refusee (dim : nat) (embeddings : list vecteur) (ids : list Z) : Prop :=
  length ids <> length embeddings \/
  faiss_add (IndexFlatIP dim) (map normalize_L2 embeddings) = None.

Definition sauvegarde_en_echec (w : Monde) : Prop :=
  mkdir_ok w = false \/ issue_write_index w <> Ecrit \/ issue_json_dump w <> Ecrit.

(** The object after a successful [ajouter_vecteurs], and the rows it
    hands to [index.add]. *)
Definition apres_ajout (idx' : FaissIndex) (ids : list Z) (o : IndexFAISS) : IndexFAISS :=
  {| chemin_index := chemin_index o; dimension := dimension o;
     index := Some idx'; id_mapping := id_mapping o ++ ids |}.

Definition a_inserer (normaliser : bool) (vecteurs : list vecteur) : list vecteur :=
  if normaliser then map normalize_L2 vecteurs else vecteurs.

(** The disk after the two writes of a save at [c]. *)
Definition disque_apres_sauvegarde (c : Chemin) (idx : FaissIndex) (ids : list Z)
    (dsk : Disque) : Disque :=
  <[mapping_de c := FichierJson ids]> (<[c := FichierIndex idx]> dsk).

(** What [_charger_index] leaves when both artifacts are read: the loaded
    structure, its own dimension, and the ids of the mapping file. *)
Definition index_charge (o : IndexFAISS) (idx : FaissIndex) (ids : list Z) : IndexFAISS :=
  {| chemin_index := chemin_index o; dimension := index_d idx;
     index := Some idx; id_mapping := ids |}.

Definition index_lu (s : Etat) (idx : FaissIndex) : IndexFAISS :=
  let o := index_global s in
  match disque s !! mapping_de (chemin_index o) with
  | None => index_charge o idx []
  | Some (FichierJson ids) => index_charge o idx ids
  | Some _ => index_vide o
  end.



(** A rebuild is started exactly where [LogDeclenchement] is logged. *)
Definition est_declenchement (e : Evenement) : bool :=
  match e with
  | LogDeclenchement _ => true
  | _ => false
  end.

Definition nb_declenchements (j : list Evenement) : nat :=
  length (List.filter est_declenchement j).

(** On a disk, the two artifacts of a save of [idx] and [ids] at [c] are
    either both there or both not there. *)
Definition artefacts_ensemble (c : Chemin) (idx : FaissIndex) (ids : list Z)
    (dsk : Disque) : Prop :=
  dsk !! c = Some (FichierIndex idx) <-> dsk !! mapping_de c = Some (FichierJson ids).

(** The synchronizer's fields and the count of started rebuilds are the
    same in both states. *)
Definition meme_sync (s s' : Etat) : Prop :=
  auto_sync s' = auto_sync s /\
  nb_declenchements (journal s') = nb_declenchements (journal s).

Definition garde_sync {A} (m : Prog A) : Prop :=
  forall s, meme_sync s (etat_apres m s).

(** The synchronizer's fields once a rebuild started at [now] is over. *)
Definition apres_declenchement (now : Z) (a : FAISSAutoSync) : FAISSAutoSync :=
  {| last_update_timestamp := last_update_timestamp a; rebuild_en_cours := false;
     dernier_rebuild_timestamp := Some now;
     rebuild_min_interval_seconds := rebuild_min_interval_seconds a |}.

(** A poll in which neither the absence rule nor the restart rule fires,
    with the source answering: the index file exists and the uptime, if
    reported, is not below the threshold. *)
Definition atteint_regle_3 (chemin : Chemin) (seuil : Z) (w : Monde) (s : Etat) : Prop :=
  rebuild_en_cours (auto_sync s) = false /\
  is_Some (disque s !! chemin) /\
  connexion_surveillance w = true /\
  match uptime_row w with
  | Some uptime_seconds => seuil <= uptime_seconds
  | None => True
  end.

(** A poll that observes nothing newer than [t]. *)
Definition sans_nouveaute (t : Z) (w : Monde) : Prop :=
  match dernier_changement w with
  | Some dernier => dernier <= t
  | None => True
  end.

(** A poll in which the absence rule and the restart rule stay silent,
    whether the source answers or not. *)
Definition regles_1_2_muettes (chemin : Chemin) (seuil : Z) (dsk : Disque) (w : Monde) : Prop :=
  is_Some (dsk !! chemin) /\
  match uptime_row w with
  | Some uptime_seconds => seuil <= uptime_seconds
  | None => True
  end.

(** Between [s] and [s'] no rebuild has been started: the published index,
    the disk, the time of the last rebuild and the count of started
    rebuilds are the same. *)
Definition sans_rebuild (s s' : Etat) : Prop :=
  index_global s' = index_global s /\
  disque s' = disque s /\ ecritures s' = ecritures s /\
  dernier_rebuild_timestamp (auto_sync s') = dernier_rebuild_timestamp (auto_sync s) /\
  rebuild_en_cours (auto_sync s') = rebuild_en_cours (auto_sync s) /\
  nb_declenchements (journal s') = nb_declenchements (journal s).

(** As [sans_rebuild], with every field of the synchronizer unchanged. *)
Definition au_repos (s s' : Etat) : Prop :=
  index_global s' = index_global s /\
  disque s' = disque s /\ ecritures s' = ecritures s /\
  auto_sync s' = auto_sync s /\
  nb_declenchements (journal s') = nb_declenchements (journal s).

(** The clamp as the specification words it: a value below the range is
    replaced by the lower bound, a value above it by the upper bound; and
    the confidence as the specification words it, the rescaled score
    clamped to [[0, 1]]. *)
Definition borner (bas haut x : float) : float :=
  if PrimFloat.ltb x bas then bas
  else if PrimFloat.ltb haut x then haut
  else x.

Definition confiance_spec (s : float) : float :=
  borner 0 1 (PrimFloat.div (PrimFloat.add s 1) 2).

(** On the binary64 values of [SpecFloat]. *)
Definition pas_nan (x : spec_float) : Prop := x <> S754_nan.

(** The constants of the confidence formula, as binary64 values. *)
Definition SF_zero : spec_float := S754_zero false.
Definition SF_un : spec_float := S754_finite false 4503599627370496 (-52).
Definition SF_deux : spec_float := S754_finite false 4503599627370496 (-51).


(** A structure is loaded and its dimension is the one the object
    announces. *)
Definition bien_forme (o : IndexFAISS) : Prop :=
  exists idx, index o = Some idx /\ index_d idx = dimension o.

(** A program that neither reads nor writes the synchronizer's fields. *)
Definition ignore_sync {A} (m : Prog A) : Prop :=
  forall f s, m (avec_sync f s) = (resultat m s, avec_sync f (etat_apres m s)).

(** Between [s] and [s'] the flag [rebuild_en_cours], if down, is down
    again, and at most one rebuild has been started. *)
Definition poll_borne (s s' : Etat) : Prop :=
  (rebuild_en_cours (auto_sync s) = false -> rebuild_en_cours (auto_sync s') = false) /\
  (nb_declenchements (journal s) <= nb_declenchements (journal s') <=
   S (nb_declenchements (journal s)))%nat.

(** The globals of the generator module: as the module sets them when it
    is imported, and related as [llm_est_disponible] promises. *)
Definition generateur_initial {G} : EtatGenerateur G :=
  {| _generateur_global := None; _llm_disponible := false |}.

Definition generateur_sain {G} (st : EtatGenerateur G) : Prop :=
  _llm_disponible st = bool_decide (is_Some (_generateur_global st)).

(** The three values a request is built from: the embedding searched for
    (given, or computed by the encoder), the text before the hedging prefix
    (the generator's, or the answer of the first row), and the text with
    the prefix of a low confidence. *)
Definition embedding_de (m : MondeRequete) (requete : RequeteRecherche) : Res vecteur :=
  match req_embedding requete with
  | Some e => Retour (map f32 e)
  | None => encoder_question m (req_question requete)
  end.

Definition texte_reponse (m : MondeRequete) (requete : RequeteRecherche) (ids : list Z)
    : Res string :=
  let rows := lignes_contexte m ids in
  match generateur m with
  | Some generer_reponse_chatbot =>
      generer_reponse_chatbot (req_question requete) (contexte_de rows)
  | None =>
      match rows with
      | row :: _ => Retour (row_reponse row)
      | [] => Retour AUCUNE_REPONSE
      end
  end.

Definition avec_prefixe (c : float) (texte : string) : string :=
  if PrimFloat.ltb c SEUIL_CONFIANCE then (PREFIXE_INCERTAIN ++ texte)%string else texte.

(** * Concrete inputs

    A two-dimensional index of one vector mapped to the id 7, saved on
    disk, and a knowledge source of one active row. *)

Definition chemin_ex : Chemin :=
  ["app"; "donnees"; "faiss_index"; "index_faiss.bin"]%string.

Definition faiss_ex : FaissIndex :=
  {| index_d := 2; xb := [[1%float; 0%float]] |}.

Definition index_ex : IndexFAISS :=
  {| chemin_index := chemin_ex; dimension := 2;
     index := Some faiss_ex; id_mapping := [7] |}.

Definition disque_ex : Disque :=
  <[mapping_de chemin_ex := FichierJson [7]]> (<[chemin_ex := FichierIndex faiss_ex]> ∅).

Definition etat_de (o : IndexFAISS) (a : FAISSAutoSync) (dsk : Disque) : Etat :=
  {| index_global := o; auto_sync := a; disque := dsk;
     ecritures := []; journal := [] |}.

Definition etat_ex : Etat := etat_de index_ex FAISSAutoSync_init disque_ex.

Definition ligne_ex : Ligne :=
  {| row_id := 10; row_question := "Horaires ?"; row_reponse := "9h-18h" |}.

Definition encodeur_ex (textes : list string) : option (list vecteur) :=
  Some (map (fun _ => [0%float; 2%float]) textes).

Definition encodeur_en_panne (textes : list string) : option (list vecteur) := None.

(** A poll at the clock reading [now] (microseconds) that sees the maximum
    timestamp [dernier], with every collaborator answering. *)
Definition monde_de (lignes : list Ligne)
    (encodeur : list string -> option (list vecteur))
    (dernier : option Z) (now : Z) : Monde :=
  {| connexion_surveillance := true; uptime_row := Some 86400;
     dernier_changement := dernier; nombre_entrees := Z.of_nat (length lignes);
     connexion_rebuild := true; rows := lignes; encoder_batch := encodeur;
     mkdir_ok := true; issue_write_index := Ecrit; issue_json_dump := Ecrit;
     now_garde := now; now_debut := now |}.

Definition monde_ex : Monde := monde_de [ligne_ex] encodeur_ex (Some 1000) 0.

(** The object as [__init__] leaves it before loading, configured for the
    dimension 3, in front of the saved two-dimensional index. *)
Definition etat_dim3 : Etat :=
  etat_de {| chemin_index := chemin_ex; dimension := 3; index := None; id_mapping := [] |}
          FAISSAutoSync_init disque_ex.


(** The index after one more insertion (two vectors, ids 7 and 8), held in
    memory in front of the disk that still has the previous save. *)
Definition faiss_maj : FaissIndex :=
  {| index_d := 2; xb := [[1%float; 0%float]; [0%float; 1%float]] |}.

Definition etat_maj : Etat :=
  etat_de {| chemin_index := chemin_ex; dimension := 2;
             index := Some faiss_maj; id_mapping := [7; 8] |}
          FAISSAutoSync_init disque_ex.

(** An empty index of dimension 2, as [_creer_index] makes it. *)
Definition etat_vide : Etat :=
  etat_de (index_vide index_ex) FAISSAutoSync_init ∅.

(** A synchronizer that has recorded the baseline 500 and never rebuilt,
    and one that rebuilt at the clock reading 0. *)
Definition etat_base : Etat :=
  etat_de index_ex
    {| last_update_timestamp := Some 500; rebuild_en_cours := false;
       dernier_rebuild_timestamp := None; rebuild_min_interval_seconds := 300 |}
    disque_ex.

Definition etat_garde : Etat :=
  etat_de index_ex
    {| last_update_timestamp := Some 500; rebuild_en_cours := false;
       dernier_rebuild_timestamp := Some 0; rebuild_min_interval_seconds := 300 |}
    disque_ex.

(** Two polls one minute apart: the source's maximum timestamp is 1000 at
    the first and 2000 at the second. *)
Definition poll_1 : Monde := monde_de [ligne_ex] encodeur_ex (Some 1000) 0.
Definition poll_2 : Monde := monde_de [ligne_ex] encodeur_ex (Some 2000) 60000000.
Definition poll_1_bis : Monde := monde_de [ligne_ex] encodeur_ex (Some 1000) 60000000.
Definition poll_1_ter : Monde := monde_de [ligne_ex] encodeur_ex (Some 1000) 120000000.

(** A poll one second after [poll_1], and the state that a forced rebuild
    in the world of [poll_1] leaves behind [etat_base]. *)
Definition poll_apres_1s : Monde := monde_de [ligne_ex] encodeur_ex (Some 1000) 1000000.

Definition etat_force : Etat := etat_apres (forcer_rebuild poll_1) etat_base.

(** A synchronizer whose flag [rebuild_en_cours] is set. *)
Definition etat_en_cours : Etat :=
  etat_de index_ex (set_rebuild_en_cours true FAISSAutoSync_init) disque_ex.

(** A request for the direction of the stored vector, with the default
    [k], served without generator: the table answers each id with the row
    of the opening hours. *)
Definition monde_requete_ex : MondeRequete :=
  {| encoder_question := fun _ => Retour [0%float; 1%float];
     connexion_contexte := true;
     lignes_contexte :=
       map (fun i => {| row_id := i; row_question := "Horaires ?"; row_reponse := "9h-18h" |});
     generateur := None |}.

Definition requete_ex : RequeteRecherche :=
  {| req_embedding := Some [1%float; 0%float]; req_question := "Horaires ?"; req_k := 0 |}.

Definition reponse_ex : ReponseRecherche :=
  {| rep_reponse := "9h-18h"; rep_confiance := 1%float; rep_sources := [7] |}.


(** A request whose embedding has one component. *)
Definition requete_dim1 : RequeteRecherche :=
  {| req_embedding := Some [1%float]; req_question := "Horaires ?"; req_k := 3 |}.

(** The globals of the generator module once a model is loaded. *)
Definition generateur_charge : EtatGenerateur string :=
  {| _generateur_global := Some "gemma-2-2b-it-q4"%string; _llm_disponible := true |}.

Definition chemin_voisin : Chemin :=
  ["app"; "donnees"; "faiss_index"; "autre.bin"]%string.

(** * Properties *)

Lemma is_Some_bool {A} (o : option A) :
  bool_decide (is_Some o) = match o with Some _ => true | None => false end.
Proof. destruct o; reflexivity. Qed.

Ltac deplier :=
  unfold self, existe, logger, quand in *;
  unfold mbind, prog_bind, mret, prog_ret in *;
  unfold lier, essayer, finalement, retourner, lever, modifier, lire in *;
  cbn beta iota zeta in *.

Ltac proj :=
  cbn [index_global auto_sync disque ecritures journal
       avec_index avec_sync avec_disque avec_journal
       set_index set_id_mapping set_dimension
       chemin_index dimension index id_mapping fst snd negb] in *.

Ltac avancer :=
  repeat (cbn beta iota; proj; rewrite ?is_Some_bool;
          repeat match goal with
                 | H : _ !! _ = _ |- _ => rewrite H
                 end).

Section Proprietes.

Variable FAISS_INDEX_PATH : Chemin.
Variable FAISS_TOP_K : Z.
Variable EMBEDDINGS_DIMENSION : nat.
Variable AUTO_SYNC_MYSQL_UPTIME_THRESHOLD : Z.

(** ** The operations of IndexFAISS, one equation per outcome *)

Lemma rebuild_base_vide_exec (w : Monde) (s : Etat) :
  connexion_rebuild w = true ->
  rows w = [] ->
  rebuild_depuis_mysql w s =
    (Retour (StatsEchec "Base de donnees vide"),
     avec_journal (LogBaseVide :: journal s) s).
Proof.
  intros Hc Hr. unfold rebuild_depuis_mysql. deplier.
  rewrite Hc, Hr. reflexivity.
Qed.

Lemma _creer_index_exec (s : Etat) :
  _creer_index s = (Retour tt, avec_index index_vide s).
Proof. reflexivity. Qed.

Lemma ajouter_vecteurs_succes vecteurs ids normaliser s idx idx' :
  index (index_global s) = Some idx ->
  length ids = length vecteurs ->
  faiss_add idx (a_inserer normaliser vecteurs) = Some idx' ->
  ajouter_vecteurs vecteurs ids normaliser s =
    (Retour tt, avec_index (apres_ajout idx' ids) s).
Proof.
  intros Hi Hl Ha. unfold ajouter_vecteurs, a_inserer in *. deplier.
  rewrite Hi. apply Nat.eqb_eq in Hl. rewrite Hl. cbn [negb].
  rewrite Ha. reflexivity.
Qed.

Lemma ajouter_vecteurs_leve vecteurs ids normaliser s e s' :
  ajouter_vecteurs vecteurs ids normaliser s = (Leve e, s') ->
  s' = s /\
  (index (index_global s) = None \/
   length ids <> length vecteurs \/
   exists idx, index (index_global s) = Some idx /\
               faiss_add idx (a_inserer normaliser vecteurs) = None).
Proof.
  unfold ajouter_vecteurs, a_inserer. deplier.
  destruct (index (index_global s)) as [idx|] eqn:Hi.
  2:{ intros [= <- <-]. auto. }
  destruct (Nat.eqb (length ids) (length vecteurs)) eqn:Hl; cbn [negb].
  2:{ intros [= <- <-]. apply Nat.eqb_neq in Hl. auto. }
  destruct (faiss_add idx _) eqn:Ha.
  - discriminate.
  - intros [= <- <-]. split; [reflexivity|]. right; right. eauto.
Qed.

Lemma sauvegarder_index_global w c s :
  index_global (etat_apres (sauvegarder w c) s) = index_global s.
Proof.
  unfold etat_apres, sauvegarder, ecrire. deplier.
  destruct (index (index_global s)); [|reflexivity].
  destruct (mkdir_ok w); [|reflexivity]. cbn [negb].
  destruct (issue_write_index w); try reflexivity.
  destruct (issue_json_dump w); reflexivity.
Qed.

Lemma sauvegarder_leve w c s e s' :
  sauvegarder w c s = (Leve e, s') ->
  index (index_global s) = None \/ sauvegarde_en_echec w.
Proof.
  unfold sauvegarder, ecrire, sauvegarde_en_echec. deplier.
  destruct (index (index_global s)); [|auto].
  destruct (mkdir_ok w); [|auto]. cbn [negb].
  destruct (issue_write_index w); try (right; right; left; congruence).
  destruct (issue_json_dump w); try (right; right; right; congruence).
Qed.

Lemma sauvegarder_succes w s idx :
  index (index_global s) = Some idx ->
  mkdir_ok w = true -> issue_write_index w = Ecrit -> issue_json_dump w = Ecrit ->
  let c := chemin_index (index_global s) in
  sauvegarder w None s =
    (Retour tt,
     avec_disque (disque_apres_sauvegarde c idx (id_mapping (index_global s)) (disque s))
       (avec_disque (<[c := FichierIndex idx]> (disque s)) s)).
Proof.
  intros Hi Hm Hw Hj. unfold sauvegarder, ecrire. deplier.
  rewrite Hi, Hm, Hw, Hj. reflexivity.
Qed.

Lemma rebuild_echec_cas (w : Monde) (s s' : Etat) (e : Exc) :
  rebuild_depuis_mysql w s = (Leve e, s') ->
  (connexion_rebuild w = false /\
     index_global s' = index_global s /\ disque s' = disque s)
  \/ ((encoder_batch w (textes_de w) = None \/
       exists embeddings, encoder_batch w (textes_de w) = Some embeddings /\
         insertion_refusee (dimension (index_global s)) embeddings (map row_id (rows w))) /\
      index_global s' = index_vide (index_global s) /\ disque s' = disque s)
  \/ (exists embeddings, encoder_batch w (textes_de w) = Some embeddings /\
        (length embeddings = length (rows w) /\ sauvegarde_en_echec w) /\
        index_global s' =
          index_reconstruit (index_global s) embeddings (map row_id (rows w))).
Proof.
  unfold rebuild_depuis_mysql. fold (textes_de w). deplier.
  destruct (connexion_rebuild w) eqn:Hc; cbn [negb].
  2:{ intros [= <- <-]. left. auto. }
  destruct (rows w) as [|r rs] eqn:Hr; [discriminate|]. rewrite <- Hr.
  rewrite _creer_index_exec.
  destruct (encoder_batch w (textes_de w)) as [emb|] eqn:He.
  2:{ intros [= <- <-]. right; left. auto. }
  set (s1 := avec_index index_vide s).
  destruct (ajouter_vecteurs emb (map row_id (rows w)) true s1) as [[[]|e1] s2] eqn:Haj.
  2:{ apply ajouter_vecteurs_leve in Haj as [-> Haj].
      intros [= <- <-]. right; left. split; [|auto]. right. exists emb.
      split; [reflexivity|]. unfold insertion_refusee.
      destruct Haj as [Haj|[Haj|(idx & Hidx & Haj)]]; [discriminate|auto|].
      injection Hidx as <-. auto. }
  assert (Hs2 : length emb = length (rows w) /\ index_global s2 =
            index_reconstruit (index_global s) emb (map row_id (rows w))).
  { unfold ajouter_vecteurs, faiss_add in Haj. deplier. cbn in Haj.
    destruct (Nat.eqb _ _) eqn:Hl in Haj; cbn in Haj; [|discriminate].
    destruct (forallb _ _) in Haj; cbn in Haj; [|discriminate].
    injection Haj as <-. apply Nat.eqb_eq in Hl. rewrite length_map in Hl.
    split; [symmetry; exact Hl|reflexivity]. }
  destruct Hs2 as [Hl Hs2].
  destruct (sauvegarder w None s2) as [[[]|e2] s3] eqn:Hsv.
  { discriminate. }
  intros [= <- <-]. right; right. exists emb. split; [reflexivity|].
  pose proof (sauvegarder_index_global w None s2) as Hfr.
  unfold etat_apres in Hfr. rewrite Hsv in Hfr. cbn in Hfr.
  apply sauvegarder_leve in Hsv as [Hsv|Hsv].
  - rewrite Hs2 in Hsv. discriminate.
  - split; [exact (conj Hl Hsv)|]. cbn. rewrite Hfr. exact Hs2.
Qed.

(** ** Load *)

Lemma _charger_index_absent s :
  disque s !! chemin_index (index_global s) = None ->
  _charger_index s =
    (Retour tt, avec_index index_vide (avec_journal (LogIndexIntrouvable :: journal s) s)).
Proof.
  intros H. unfold _charger_index, _creer_index. deplier. avancer. reflexivity.
Qed.

Lemma _charger_index_illisible s f :
  disque s !! chemin_index (index_global s) = Some f ->
  (forall idx, f <> FichierIndex idx) ->
  _charger_index s =
    (Retour tt, avec_index index_vide
       (avec_journal (LogErreurChargement ErreurFaiss :: journal s) s)).
Proof.
  intros H Hf. unfold _charger_index, _creer_index, faiss_read_index. deplier. avancer.
  destruct f as [idx| |]; [destruct (Hf idx eq_refl)| |]; reflexivity.
Qed.

Lemma _charger_index_lu s idx :
  disque s !! chemin_index (index_global s) = Some (FichierIndex idx) ->
  exists j,
  _charger_index s =
    (Retour tt, avec_journal j (avec_index (fun _ => index_lu s idx) s)).
Proof.
  intros H. unfold _charger_index, _creer_index, faiss_read_index, json_load, index_lu.
  deplier. avancer.
  destruct (disque s !! mapping_de (chemin_index (index_global s)))
    as [[idx'|ids|]|] eqn:Hm; avancer.
  - eexists; reflexivity.
  - unfold index_charge.
    destruct (Nat.eqb (index_d idx) (dimension (index_global s))) eqn:Hd; avancer;
      [apply Nat.eqb_eq in Hd; rewrite Hd|];
      destruct (Z.of_nat (length ids) =? faiss_ntotal idx); avancer;
      eexists; reflexivity.
  - eexists; reflexivity.
  - unfold index_charge.
    destruct (Nat.eqb (index_d idx) (dimension (index_global s))) eqn:Hd; avancer;
      [apply Nat.eqb_eq in Hd; rewrite Hd|];
      destruct (Z.of_nat (@length Z []) =? faiss_ntotal idx); avancer;
      eexists; reflexivity.
Qed.

Lemma _charger_index_cas (s : Etat) :
  let o := index_global s in
  let c := chemin_index o in
  let s' := etat_apres _charger_index s in
  resultat _charger_index s = Retour tt /\
  (disque s !! c = None -> index_global s' = index_vide o) /\
  (forall f, disque s !! c = Some f -> (forall idx, f <> FichierIndex idx) ->
     index_global s' = index_vide o) /\
  (forall idx f, disque s !! c = Some (FichierIndex idx) ->
     disque s !! mapping_de c = Some f -> (forall ids, f <> FichierJson ids) ->
     index_global s' = index_vide o) /\
  (forall idx ids, disque s !! c = Some (FichierIndex idx) ->
     disque s !! mapping_de c = Some (FichierJson ids) ->
     index_global s' = index_charge o idx ids) /\
  (forall idx, disque s !! c = Some (FichierIndex idx) ->
     disque s !! mapping_de c = None ->
     index_global s' = index_charge o idx []).
Proof.
  intros o c s'. subst o c s'. unfold etat_apres, resultat.
  destruct (disque s !! chemin_index (index_global s)) as [f|] eqn:Hc.
  2:{ rewrite (_charger_index_absent s Hc). repeat split; try discriminate.
      all: intros; reflexivity. }
  destruct f as [idx| |].
  - destruct (_charger_index_lu s idx Hc) as [j ->]. cbn. unfold index_lu.
    repeat split; try discriminate.
    + intros f Hf Hn. injection Hf as <-. destruct (Hn idx eq_refl).
    + intros idx0 f [= <-] Hm Hn. rewrite Hm.
      destruct f as [|ids|]; [reflexivity|destruct (Hn ids eq_refl)|reflexivity].
    + intros idx0 ids [= <-] Hm. rewrite Hm. reflexivity.
    + intros idx0 [= <-] Hm. rewrite Hm. reflexivity.
  - rewrite (_charger_index_illisible s _ Hc) by discriminate.
    repeat split; try discriminate. all: intros; reflexivity.
  - rewrite (_charger_index_illisible s _ Hc) by discriminate.
    repeat split; try discriminate. all: intros; reflexivity.
Qed.

(** C2 (amended): [_charger_index] never raises.  When the index file is
    absent, or when reading the index file or an existing mapping file
    fails, it leaves an empty index of the configured dimension.  When
    both artifacts are read (or the mapping file is absent) it keeps the
    loaded structure and adopts the dimension of that structure, also when
    it differs from the configured one: a dimension disagreement is
    logged, not turned into an empty index. *)
Theorem charger_index_issue (s : Etat) :
  let o := index_global s in
  let c := chemin_index o in
  let o' := index_global (etat_apres _charger_index s) in
  let vide := o' = index_vide o /\ ntotal o' = 0 /\ dimension o' = dimension o in
  let charge idx ids :=
    o' = index_charge o idx ids /\
    ntotal o' = faiss_ntotal idx /\ dimension o' = index_d idx in
  resultat _charger_index s = Retour tt /\
  (disque s !! c = None -> vide) /\
  (forall f, disque s !! c = Some f -> (forall idx, f <> FichierIndex idx) -> vide) /\
  (forall idx f, disque s !! c = Some (FichierIndex idx) ->
     disque s !! mapping_de c = Some f -> (forall ids, f <> FichierJson ids) -> vide) /\
  (forall idx ids, disque s !! c = Some (FichierIndex idx) ->
     disque s !! mapping_de c = Some (FichierJson ids) -> charge idx ids) /\
  (forall idx, disque s !! c = Some (FichierIndex idx) ->
     disque s !! mapping_de c = None -> charge idx []).
Proof.
  intros o c o' vide charge.
  destruct (_charger_index_cas s) as (Hr & Ha & Hi & Hm & Hl & Hv).
  assert (Hvide : o' = index_vide o -> vide)
    by (intros E; unfold vide; rewrite E; auto).
  assert (Hcharge : forall idx ids, o' = index_charge o idx ids -> charge idx ids)
    by (intros idx ids E; unfold charge; rewrite E; auto).
  split; [exact Hr|]. split; [|split; [|split; [|split]]].
  - intros H. apply Hvide, Ha, H.
  - intros f H Hn. apply Hvide, (Hi f H Hn).
  - intros idx f H1 H2 Hn. apply Hvide, (Hm idx f H1 H2 Hn).
  - intros idx ids H1 H2. apply Hcharge, (Hl idx ids H1 H2).
  - intros idx H1 H2. apply Hcharge, (Hv idx H1 H2).
Qed.

(** ** The invariant between the mapping and the structure *)

Lemma faiss_add_Some idx v idx' :
  faiss_add idx v = Some idx' ->
  idx' = {| index_d := index_d idx; xb := xb idx ++ v |}.
Proof.
  unfold faiss_add.
  destruct (forallb (fun v0 => Nat.eqb (length v0) (index_d idx)) v); [|discriminate].
  intros [= <-]. reflexivity.
Qed.







Lemma rebuild_succes_cas (w : Monde) (s s' : Etat) (st : Stats) :
  rebuild_depuis_mysql w s = (Retour st, s') ->
  (rows w = [] /\ success st = false /\ index_global s' = index_global s)
  \/ (exists embeddings,
        encoder_batch w (textes_de w) = Some embeddings /\
        length embeddings = length (rows w) /\
        st = StatsSucces (length (rows w)) (dimension (index_global s)) /\
        index_global s' =
          index_reconstruit (index_global s) embeddings (map row_id (rows w))).
Proof.
  unfold rebuild_depuis_mysql. fold (textes_de w). deplier.
  destruct (connexion_rebuild w) eqn:Hc; proj; [|discriminate].
  destruct (rows w) as [|r rs] eqn:Hr.
  { intros [= <- <-]. left. auto. }
  rewrite <- Hr. rewrite _creer_index_exec.
  destruct (encoder_batch w (textes_de w)) as [emb|] eqn:He; [|discriminate].
  set (s1 := avec_index index_vide s).
  destruct (ajouter_vecteurs emb (map row_id (rows w)) true s1) as [[[]|e1] s2] eqn:Haj;
    [|discriminate].
  assert (Hs2 : length emb = length (rows w) /\ index_global s2 =
            index_reconstruit (index_global s) emb (map row_id (rows w))).
  { unfold ajouter_vecteurs, faiss_add in Haj. deplier. cbn in Haj.
    destruct (Nat.eqb _ _) eqn:Hl in Haj; cbn in Haj; [|discriminate].
    destruct (forallb _ _) in Haj; cbn in Haj; [|discriminate].
    injection Haj as <-. apply Nat.eqb_eq in Hl. rewrite length_map in Hl.
    split; [symmetry; exact Hl|reflexivity]. }
  destruct Hs2 as [Hl Hs2].
  pose proof (sauvegarder_index_global w None s2) as Hfr. unfold etat_apres in Hfr.
  destruct (sauvegarder w None s2) as [[[]|e2] s3] eqn:Hsv; [|discriminate].
  cbn in Hfr. intros [= <- <-]. right. exists emb.
  rewrite Hfr, Hs2. auto.
Qed.




(** ** Save *)

(** C3 (amended): [sauvegarder] writes the structure file in place at the
    target path, then the mapping file in place beside it; no temporary
    path and no rename are involved.  When both writes succeed, the disk
    ends with both artifacts of the in-memory state (for a target that is
    not itself the mapping file); the disk state between the two writes has
    the new structure and the previous mapping, and it is the final state
    when the second write is refused. *)
Theorem sauvegarder_deux_ecritures (w : Monde) (s : Etat) (idx : FaissIndex) :
  index (index_global s) = Some idx ->
  mkdir_ok w = true ->
  issue_write_index w = Ecrit ->
  let c := chemin_index (index_global s) in
  let ids := id_mapping (index_global s) in
  let entre_deux := <[c := FichierIndex idx]> (disque s) in
  let s' := etat_apres (sauvegarder w None) s in
  (entre_deux !! c = Some (FichierIndex idx) /\
   (mapping_de c <> c -> entre_deux !! mapping_de c = disque s !! mapping_de c)) /\
  (issue_json_dump w = Ecrit ->
     resultat (sauvegarder w None) s = Retour tt /\
     disque s' = <[mapping_de c := FichierJson ids]> entre_deux /\
     ecritures s' = disque s' :: entre_deux :: ecritures s /\
     disque s' !! mapping_de c = Some (FichierJson ids) /\
     (mapping_de c <> c -> disque s' !! c = Some (FichierIndex idx))) /\
  (issue_json_dump w = RefuseAvant ->
     resultat (sauvegarder w None) s = Leve ErreurOS /\
     disque s' = entre_deux /\
     ecritures s' = entre_deux :: ecritures s).
Proof.
  intros Hi Hm Hw c ids entre_deux s'. split; [|split].
  - split.
    + apply lookup_insert_eq.
    + intros Hne. apply lookup_insert_ne. congruence.
  - intros Hj. subst s'. unfold resultat, etat_apres.
    rewrite (sauvegarder_succes w s idx Hi Hm Hw Hj). cbn.
    unfold disque_apres_sauvegarde. fold c ids entre_deux.
    repeat split.
    + apply lookup_insert_eq.
    + intros Hne. subst entre_deux.
      rewrite lookup_insert_ne by congruence. apply lookup_insert_eq.
  - intros Hj. subst s'. unfold resultat, etat_apres, sauvegarder, ecrire. deplier.
    rewrite Hi, Hm, Hw, Hj. cbn. auto.
Qed.

(** ** Search *)

Lemma normalize_L2_length x : length (normalize_L2 x) = length x.
Proof.
  unfold normalize_L2. destruct (PrimFloat.ltb _ _); [apply length_map|reflexivity].
Qed.

Lemma faiss_search_length idx q k :
  length (fst (faiss_search idx q k)) = k /\ length (snd (faiss_search idx q k)) = k.
Proof.
  unfold faiss_search. cbn.
  rewrite !length_map, length_take, length_app, length_replicate. lia.
Qed.

(** C7 (amended): with [k] replaced by [FAISS_TOP_K] when it is [None] or
    [0], an index with zero entries answers a non-negative [k] with the
    one-slot sentinel [([[0.0]], [[-1]])], without raising and before the
    dimension of the query is looked at; a non-empty index answers a query
    of another dimension with the dimension [ValueError] wrapped in
    [Exception], and a query of its dimension, for [k >= 1], with exactly
    [min(k, ntotal)] scores and [min(k, ntotal)] positions. *)
Theorem rechercher_issue (q : vecteur) (k : option Z) (s : Etat) (idx : FaissIndex) :
  index (index_global s) = Some idx ->
  let k' := Z_ou k FAISS_TOP_K in
  (faiss_ntotal idx = 0 -> 0 <= k' ->
     rechercher FAISS_TOP_K q k s =
       (Retour ([0%float], [-1]), avec_journal (LogIndexVide :: journal s) s)) /\
  (Z.min k' (faiss_ntotal idx) <> 0 ->
   length q <> dimension (index_global s) ->
     rechercher FAISS_TOP_K q k s =
       (Leve (ExceptionDe "Erreur recherche FAISS"
                (ValueError "Dimension du vecteur != dimension de l'index")), s)) /\
  (0 < faiss_ntotal idx -> 0 < k' ->
   length q = dimension (index_global s) ->
   index_d idx = dimension (index_global s) ->
     exists distances indices,
       rechercher FAISS_TOP_K q k s = (Retour (distances, indices), s) /\
       Z.of_nat (length distances) = Z.min k' (faiss_ntotal idx) /\
       Z.of_nat (length indices) = Z.min k' (faiss_ntotal idx)).
Proof.
  intros Hi k'. unfold rechercher. fold k'. deplier. rewrite Hi.
  split; [|split].
  - intros Hn Hk. rewrite Hn, Z.min_r by lia. reflexivity.
  - intros Hmin Hq. apply Z.eqb_neq in Hmin. rewrite Hmin.
    apply Nat.eqb_neq in Hq. rewrite Hq. reflexivity.
  - intros Hn Hk Hq Hd.
    assert (Hmin : 0 < Z.min k' (faiss_ntotal idx)) by lia.
    replace (Z.min k' (faiss_ntotal idx) =? 0) with false by (symmetry; apply Z.eqb_neq; lia).
    replace (Z.min k' (faiss_ntotal idx) <=? 0) with false by (symmetry; apply Z.leb_gt; lia).
    rewrite normalize_L2_length, Hq, <- Hd, !Nat.eqb_refl. cbn [negb orb].
    destruct (faiss_search_length idx (normalize_L2 q)
                (Z.to_nat (Z.min k' (faiss_ntotal idx)))) as [H1 H2].
    destruct (faiss_search idx (normalize_L2 q) _) as [distances indices].
    exists distances, indices. cbn in H1, H2. rewrite H1, H2.
    split; [reflexivity|]. lia.
Qed.

(** ** Rebuild *)

(** C10: when the knowledge source answers with zero active rows,
    [rebuild_depuis_mysql] (reached by [forcer_rebuild] or by
    [_declencher_rebuild]) returns statistics with [success = False]
    without raising, and the in-memory index, its id_mapping and the files
    on disk are exactly as before: nothing is written. *)
Theorem rebuild_source_vide (w : Monde) (s : Etat) :
  connexion_rebuild w = true ->
  rows w = [] ->
  (exists st s',
     rebuild_depuis_mysql w s = (Retour st, s') /\
     forcer_rebuild w s = (Retour st, s') /\
     success st = false /\
     index_global s' = index_global s /\
     disque s' = disque s /\ ecritures s' = ecritures s) /\
  (forall raison,
     let s' := etat_apres (_declencher_rebuild w raison) s in
     resultat (_declencher_rebuild w raison) s = Retour tt /\
     index_global s' = index_global s /\
     disque s' = disque s /\ ecritures s' = ecritures s).
Proof.
  intros Hc Hr. split.
  - eexists _, _. unfold forcer_rebuild.
    rewrite (rebuild_base_vide_exec w s Hc Hr). repeat split; reflexivity.
  - intros raison. unfold etat_apres, resultat, _declencher_rebuild. deplier.
    destruct (rebuild_en_cours (auto_sync s)); [repeat split; reflexivity|].
    destruct (trop_tot (auto_sync s) (now_garde w)); [repeat split; reflexivity|].
    rewrite (rebuild_base_vide_exec w _ Hc Hr). repeat split; reflexivity.
Qed.

(** C1 (amended): a rebuild works on the published object itself.  When
    [rebuild_depuis_mysql] raises, the published index is unchanged only if
    the source query failed; after a failure of the batch encoding or of
    the insertion it is the fresh empty index of the same dimension; after
    a failure of the save it is the completely rebuilt index. *)
Theorem rebuild_echec_index_publie (w : Monde) (s s' : Etat) (e : Exc) :
  rebuild_depuis_mysql w s = (Leve e, s') ->
  (connexion_rebuild w = false /\
     index_global s' = index_global s /\ disque s' = disque s)
  \/ ((encoder_batch w (textes_de w) = None \/
       exists embeddings, encoder_batch w (textes_de w) = Some embeddings /\
         insertion_refusee (dimension (index_global s)) embeddings (map row_id (rows w))) /\
      index_global s' = index_vide (index_global s) /\
      ntotal (index_global s') = 0 /\ id_mapping (index_global s') = [] /\
      disque s' = disque s)
  \/ (exists embeddings, encoder_batch w (textes_de w) = Some embeddings /\
        sauvegarde_en_echec w /\
        index_global s' =
          index_reconstruit (index_global s) embeddings (map row_id (rows w)) /\
        ntotal (index_global s') = Z.of_nat (length (rows w)) /\
        id_mapping (index_global s') = map row_id (rows w)).
Proof.
  intros H.
  destruct (rebuild_echec_cas w s s' e H)
    as [Hq|[(He & Hi & Hd)|(emb & He & (Hl & Hsv) & Hi)]].
  - left. exact Hq.
  - right; left. rewrite Hi. repeat split; auto.
  - right; right. exists emb. rewrite Hi.
    unfold ntotal, faiss_ntotal. cbn. rewrite length_map, Hl. repeat split; auto.
Qed.

(** ** What the operations of the index leave alone *)

Lemma meme_sync_refl s : meme_sync s s.
Proof. split; reflexivity. Qed.

Lemma meme_sync_trans s1 s2 s3 : meme_sync s1 s2 -> meme_sync s2 s3 -> meme_sync s1 s3.
Proof. intros [H1 H2] [H3 H4]. split; congruence. Qed.

Lemma garde_sync_retourner {A} (a : A) : garde_sync (retourner a).
Proof. intros s. apply meme_sync_refl. Qed.

Lemma garde_sync_lever {A} (e : Exc) : garde_sync (@lever A e).
Proof. intros s. apply meme_sync_refl. Qed.

Lemma garde_sync_lire {A} (f : Etat -> A) : garde_sync (lire f).
Proof. intros s. apply meme_sync_refl. Qed.

Lemma garde_sync_index f : garde_sync (modifier (avec_index f)).
Proof. intros s. split; reflexivity. Qed.

Lemma garde_sync_logger e : est_declenchement e = false -> garde_sync (logger e).
Proof.
  intros He s. split; [reflexivity|]. unfold etat_apres, logger, modifier, nb_declenchements.
  cbn. rewrite He. reflexivity.
Qed.

Lemma garde_sync_ecrire c f issue : garde_sync (ecrire c f issue).
Proof. intros s. destruct issue; split; reflexivity. Qed.

Lemma garde_sync_faiss_read_index c : garde_sync (faiss_read_index c).
Proof.
  intros s. unfold etat_apres, faiss_read_index.
  destruct (disque s !! c) as [[]|]; apply meme_sync_refl.
Qed.

Lemma garde_sync_json_load c : garde_sync (json_load c).
Proof.
  intros s. unfold etat_apres, json_load.
  destruct (disque s !! c) as [[]|]; apply meme_sync_refl.
Qed.

Lemma garde_sync_lier {A B} (m : Prog A) (k : A -> Prog B) :
  garde_sync m -> (forall a, garde_sync (k a)) -> garde_sync (lier m k).
Proof.
  intros Hm Hk s. specialize (Hm s). unfold etat_apres, lier in *.
  destruct (m s) as [[a|e] s1]; cbn in *; [|exact Hm].
  apply (meme_sync_trans _ _ _ Hm). apply Hk.
Qed.

Lemma garde_sync_essayer {A} (m : Prog A) (h : Exc -> Prog A) :
  garde_sync m -> (forall e, garde_sync (h e)) -> garde_sync (essayer m h).
Proof.
  intros Hm Hh s. specialize (Hm s). unfold etat_apres, essayer in *.
  destruct (m s) as [[a|e] s1]; cbn in *; [exact Hm|].
  apply (meme_sync_trans _ _ _ Hm). apply Hh.
Qed.

Lemma garde_sync_quand b m : garde_sync m -> garde_sync (quand b m).
Proof. intros Hm. destruct b; [exact Hm|apply garde_sync_retourner]. Qed.

Ltac cadre :=
  repeat first
    [ progress unfold mbind, prog_bind, mret, prog_ret, self, existe
    | progress cbv zeta
    | apply garde_sync_lier; [|intros ?]
    | apply garde_sync_essayer; [|intros ?]
    | apply garde_sync_quand
    | apply garde_sync_retourner
    | apply garde_sync_lever
    | apply garde_sync_lire
    | apply garde_sync_index
    | apply garde_sync_ecrire
    | apply garde_sync_faiss_read_index
    | apply garde_sync_json_load
    | apply garde_sync_logger; reflexivity
    | match goal with
      | |- garde_sync (match ?x with _ => _ end) => destruct x
      end ].

Lemma garde_sync_creer_index : garde_sync _creer_index.
Proof. unfold _creer_index. cadre. Qed.

Lemma garde_sync_ajouter_vecteurs v ids n : garde_sync (ajouter_vecteurs v ids n).
Proof. unfold ajouter_vecteurs. cadre. Qed.

Lemma garde_sync_sauvegarder w c : garde_sync (sauvegarder w c).
Proof. unfold sauvegarder. cadre. Qed.

Lemma garde_sync_rebuild w : garde_sync (rebuild_depuis_mysql w).
Proof.
  unfold rebuild_depuis_mysql. cadre.
Qed.

(** ** The synchronizer *)

Local Abbreviation verifier := (_verifier_triggers FAISS_INDEX_PATH AUTO_SYNC_MYSQL_UPTIME_THRESHOLD).
Local Abbreviation boucle := (boucle_continue FAISS_INDEX_PATH AUTO_SYNC_MYSQL_UPTIME_THRESHOLD).
Local Abbreviation regle_3 := (atteint_regle_3 FAISS_INDEX_PATH AUTO_SYNC_MYSQL_UPTIME_THRESHOLD).

Lemma nb_declenchements_cons e j :
  nb_declenchements (e :: j) =
    if est_declenchement e then S (nb_declenchements j) else nb_declenchements j.
Proof. unfold nb_declenchements. cbn. destruct (est_declenchement e); reflexivity. Qed.

Lemma _declencher_rebuild_trop_tot w raison s :
  rebuild_en_cours (auto_sync s) = false ->
  trop_tot (auto_sync s) (now_garde w) = true ->
  _declencher_rebuild w raison s =
    (Retour tt, avec_journal (LogSkipTropTot raison :: journal s) s).
Proof.
  intros He Ht. unfold _declencher_rebuild. deplier. rewrite He, Ht. reflexivity.
Qed.

Lemma _declencher_rebuild_lance w raison s :
  rebuild_en_cours (auto_sync s) = false ->
  trop_tot (auto_sync s) (now_garde w) = false ->
  let s' := etat_apres (_declencher_rebuild w raison) s in
  auto_sync s' = apres_declenchement (now_debut w) (auto_sync s) /\
  nb_declenchements (journal s') = S (nb_declenchements (journal s)).
Proof.
  intros He Ht s'. subst s'. unfold etat_apres, _declencher_rebuild. deplier.
  rewrite He, Ht.
  match goal with |- context [rebuild_depuis_mysql w ?s1] =>
    destruct (garde_sync_rebuild w s1) as [Ha Hn]; unfold etat_apres in Ha, Hn;
    destruct (rebuild_depuis_mysql w s1) as [[[r|n d]|e] s2]
  end; proj; rewrite Ha, !nb_declenchements_cons, Hn, nb_declenchements_cons;
    split; reflexivity.
Qed.

Lemma _declencher_rebuild_total w raison s :
  let s' := etat_apres (_declencher_rebuild w raison) s in
  resultat (_declencher_rebuild w raison) s = Retour tt /\
  last_update_timestamp (auto_sync s') = last_update_timestamp (auto_sync s) /\
  (rebuild_en_cours (auto_sync s) = false -> rebuild_en_cours (auto_sync s') = false).
Proof.
  intros s'. subst s'. unfold resultat, etat_apres, _declencher_rebuild. deplier.
  destruct (rebuild_en_cours (auto_sync s)) eqn:He;
    [proj; repeat split; auto; discriminate|].
  destruct (trop_tot (auto_sync s) (now_garde w)); [proj; auto|].
  match goal with |- context [rebuild_depuis_mysql w ?s1] =>
    destruct (garde_sync_rebuild w s1) as [Ha Hn]; unfold etat_apres in Ha, Hn;
    destruct (rebuild_depuis_mysql w s1) as [[[r|n d]|e] s2]
  end; proj; rewrite Ha; auto.
Qed.

Lemma trigger_modification_init w dernier s :
  last_update_timestamp (auto_sync s) = None ->
  trigger_modification w dernier s =
    (Retour tt, avec_sync (set_last_update_timestamp (Some dernier))
                  (avec_journal (LogInitTimestamp dernier :: journal s) s)).
Proof. intros H. unfold trigger_modification. deplier. rewrite H. reflexivity. Qed.

Lemma trigger_modification_inchange w dernier connu s :
  last_update_timestamp (auto_sync s) = Some connu ->
  dernier <= connu ->
  trigger_modification w dernier s =
    (Retour tt, avec_journal (LogAucuneModification dernier :: journal s) s).
Proof.
  intros H Hle. unfold trigger_modification. deplier. rewrite H.
  replace (connu <? dernier) with false by (symmetry; apply Z.ltb_ge; lia).
  reflexivity.
Qed.

Lemma trigger_modification_modifie w dernier connu s :
  last_update_timestamp (auto_sync s) = Some connu ->
  connu < dernier ->
  trigger_modification w dernier s =
    (Retour tt, avec_sync (set_last_update_timestamp (Some dernier))
                  (etat_apres (_declencher_rebuild w (BaseModifiee dernier))
                     (avec_journal (LogTrigger3 connu dernier :: journal s) s))).
Proof.
  intros H Hlt. unfold trigger_modification, avec_journal. deplier. rewrite H.
  replace (connu <? dernier) with true by (symmetry; apply Z.ltb_lt; lia).
  match goal with |- context [_declencher_rebuild w ?r ?s1] =>
    destruct (_declencher_rebuild_total w r s1) as [Hr _];
    unfold resultat, etat_apres in *;
    destruct (_declencher_rebuild w r s1) as [[[]|e] s2]
  end; [reflexivity|discriminate].
Qed.

Lemma _verifier_triggers_regle_3 w s dernier :
  regle_3 w s ->
  dernier_changement w = Some dernier ->
  verifier w s = trigger_modification w dernier s.
Proof.
  intros (He & Hp & Hc & Hu) Hd. unfold _verifier_triggers. deplier.
  rewrite He, is_Some_bool. destruct Hp as [f ->]. rewrite Hc, Hd. cbn [negb].
  assert (Hq : forall r s', trigger_modification w dernier s = (r, s') -> r = Retour tt).
  { intros r s' Hq.
    destruct (last_update_timestamp (auto_sync s)) as [connu|] eqn:Hl.
    - destruct (Z.lt_ge_cases connu dernier).
      + rewrite (trigger_modification_modifie w dernier connu s Hl) in Hq by lia. congruence.
      + rewrite (trigger_modification_inchange w dernier connu s Hl) in Hq by lia. congruence.
    - rewrite (trigger_modification_init w dernier s Hl) in Hq. congruence. }
  destruct (uptime_row w) as [u|].
  - replace (u <? AUTO_SYNC_MYSQL_UPTIME_THRESHOLD) with false
      by (symmetry; apply Z.ltb_ge; lia).
    destruct (trigger_modification w dernier s) as [r s'] eqn:Ht.
    rewrite (Hq r s' eq_refl). reflexivity.
  - destruct (trigger_modification w dernier s) as [r s'] eqn:Ht.
    rewrite (Hq r s' eq_refl). reflexivity.
Qed.

Lemma sans_rebuild_journal s e :
  est_declenchement e = false -> sans_rebuild s (avec_journal (e :: journal s) s).
Proof.
  intros He. unfold sans_rebuild. proj. rewrite nb_declenchements_cons, He. auto 10.
Qed.

Lemma sans_rebuild_trans s1 s2 s3 :
  sans_rebuild s1 s2 -> sans_rebuild s2 s3 -> sans_rebuild s1 s3.
Proof. unfold sans_rebuild. intuition congruence. Qed.

Lemma sans_rebuild_baseline s t :
  sans_rebuild s (avec_sync (set_last_update_timestamp t) s).
Proof. unfold sans_rebuild. proj. auto 10. Qed.

Lemma _declencher_rebuild_garde w raison s :
  rebuild_en_cours (auto_sync s) = false ->
  trop_tot (auto_sync s) (now_garde w) = true ->
  sans_rebuild s (etat_apres (_declencher_rebuild w raison) s).
Proof.
  intros He Ht. unfold etat_apres.
  rewrite (_declencher_rebuild_trop_tot w raison s He Ht). proj.
  apply sans_rebuild_journal. reflexivity.
Qed.

Lemma trigger_modification_garde w dernier s :
  rebuild_en_cours (auto_sync s) = false ->
  trop_tot (auto_sync s) (now_garde w) = true ->
  sans_rebuild s (etat_apres (trigger_modification w dernier) s).
Proof.
  intros He Ht. unfold etat_apres.
  destruct (last_update_timestamp (auto_sync s)) as [connu|] eqn:Hl.
  - destruct (Z.lt_ge_cases connu dernier).
    + rewrite (trigger_modification_modifie w dernier connu s Hl) by lia. proj.
      eapply sans_rebuild_trans; [|apply sans_rebuild_baseline].
      eapply sans_rebuild_trans;
        [apply (sans_rebuild_journal s (LogTrigger3 connu dernier)); reflexivity|].
      apply _declencher_rebuild_garde; assumption.
    + rewrite (trigger_modification_inchange w dernier connu s Hl) by lia. proj.
      apply sans_rebuild_journal. reflexivity.
  - rewrite (trigger_modification_init w dernier s Hl). proj.
    eapply sans_rebuild_trans; [|apply sans_rebuild_baseline].
    apply sans_rebuild_journal. reflexivity.
Qed.

Lemma _verifier_triggers_garde w s :
  rebuild_en_cours (auto_sync s) = false ->
  trop_tot (auto_sync s) (now_garde w) = true ->
  sans_rebuild s (etat_apres (verifier w) s).
Proof.
  intros He Ht.
  assert (Hd : forall e raison,
    est_declenchement e = false ->
    sans_rebuild s (etat_apres (_declencher_rebuild w raison)
                      (avec_journal (e :: journal s) s))).
  { intros e raison Hne.
    eapply sans_rebuild_trans; [apply (sans_rebuild_journal s e Hne)|].
    apply _declencher_rebuild_garde; assumption. }
  destruct (disque s !! FAISS_INDEX_PATH) as [f|] eqn:Hp.
  2:{ specialize (Hd LogTrigger1 IndexNExistePas eq_refl).
      unfold etat_apres, _verifier_triggers, avec_journal in *. deplier.
      rewrite He, is_Some_bool, Hp. cbn [negb].
      destruct (_declencher_rebuild w IndexNExistePas _) as [[[]|e] s1]; proj; [exact Hd|].
      eapply sans_rebuild_trans; [exact Hd|]. apply sans_rebuild_journal. reflexivity. }
  destruct (connexion_surveillance w) eqn:Hc.
  2:{ unfold etat_apres, _verifier_triggers. deplier.
      rewrite He, is_Some_bool, Hp, Hc. proj.
      apply (sans_rebuild_journal s (LogErreurSurveillance ErreurMySQL)). reflexivity. }
  assert (H3 : forall dernier, dernier_changement w = Some dernier ->
    (match uptime_row w with
     | Some u => AUTO_SYNC_MYSQL_UPTIME_THRESHOLD <= u
     | None => True
     end) ->
    sans_rebuild s (etat_apres (verifier w) s)).
  { intros dernier Hdc Hu. unfold etat_apres.
    rewrite (_verifier_triggers_regle_3 w s dernier); [|repeat split; eauto|exact Hdc].
    apply trigger_modification_garde; assumption. }
  destruct (uptime_row w) as [u|] eqn:Hu.
  - destruct (Z.lt_ge_cases u AUTO_SYNC_MYSQL_UPTIME_THRESHOLD) as [Hlt|Hge].
    + specialize (Hd (LogTrigger2 u) (MySQLRedemarre u) eq_refl).
      unfold etat_apres, _verifier_triggers, avec_journal in *. deplier.
      rewrite He, is_Some_bool, Hp, Hc, Hu. cbn [negb].
      replace (u <? AUTO_SYNC_MYSQL_UPTIME_THRESHOLD) with true
        by (symmetry; apply Z.ltb_lt; lia).
      destruct (_declencher_rebuild w (MySQLRedemarre u) _) as [[[]|e] s1]; proj;
        [exact Hd|].
      eapply sans_rebuild_trans; [exact Hd|]. apply sans_rebuild_journal. reflexivity.
    + destruct (dernier_changement w) as [dernier|] eqn:Hdc; [eapply H3; eauto|].
      unfold etat_apres, _verifier_triggers. deplier.
      rewrite He, is_Some_bool, Hp, Hc, Hu, Hdc. cbn [negb].
      replace (u <? AUTO_SYNC_MYSQL_UPTIME_THRESHOLD) with false
        by (symmetry; apply Z.ltb_ge; lia).
      proj. unfold sans_rebuild. auto 10.
  - destruct (dernier_changement w) as [dernier|] eqn:Hdc; [eapply H3; eauto|].
    unfold etat_apres, _verifier_triggers. deplier.
    rewrite He, is_Some_bool, Hp, Hc, Hu, Hdc. proj. unfold sans_rebuild. auto 10.
Qed.

Lemma au_repos_refl s : au_repos s s.
Proof. unfold au_repos. auto. Qed.

Lemma au_repos_trans s1 s2 s3 : au_repos s1 s2 -> au_repos s2 s3 -> au_repos s1 s3.
Proof. unfold au_repos. intuition congruence. Qed.

Lemma au_repos_journal s e :
  est_declenchement e = false -> au_repos s (avec_journal (e :: journal s) s).
Proof.
  intros He. unfold au_repos. proj. rewrite nb_declenchements_cons, He. auto.
Qed.

Lemma _verifier_triggers_sans_nouveaute w s t :
  rebuild_en_cours (auto_sync s) = false ->
  last_update_timestamp (auto_sync s) = Some t ->
  regles_1_2_muettes FAISS_INDEX_PATH AUTO_SYNC_MYSQL_UPTIME_THRESHOLD (disque s) w ->
  sans_nouveaute t w ->
  resultat (verifier w) s = Retour tt /\ au_repos s (etat_apres (verifier w) s).
Proof.
  intros He Hl [[f Hp] Hu] Hn. unfold sans_nouveaute in Hn.
  destruct (connexion_surveillance w) eqn:Hc.
  2:{ unfold resultat, etat_apres, _verifier_triggers. deplier.
      rewrite He, is_Some_bool, Hp, Hc. proj. split; [reflexivity|].
      apply (au_repos_journal s (LogErreurSurveillance ErreurMySQL)). reflexivity. }
  destruct (dernier_changement w) as [dernier|] eqn:Hd.
  - unfold resultat, etat_apres.
    rewrite (_verifier_triggers_regle_3 w s dernier); [|repeat split; eauto|exact Hd].
    rewrite (trigger_modification_inchange w dernier t s Hl Hn). proj.
    split; [reflexivity|]. apply au_repos_journal. reflexivity.
  - unfold resultat, etat_apres, _verifier_triggers. deplier.
    rewrite He, is_Some_bool, Hp, Hc, Hd. cbn [negb].
    destruct (uptime_row w) as [u|].
    + replace (u <? AUTO_SYNC_MYSQL_UPTIME_THRESHOLD) with false
        by (symmetry; apply Z.ltb_ge; lia).
      proj. split; [reflexivity|apply au_repos_refl].
    + proj. split; [reflexivity|apply au_repos_refl].
Qed.

Lemma boucle_continue_sans_nouveaute suite : forall s t,
  rebuild_en_cours (auto_sync s) = false ->
  last_update_timestamp (auto_sync s) = Some t ->
  Forall (fun w =>
            regles_1_2_muettes FAISS_INDEX_PATH AUTO_SYNC_MYSQL_UPTIME_THRESHOLD (disque s) w /\
            sans_nouveaute t w) suite ->
  au_repos s (etat_apres (boucle suite) s).
Proof.
  induction suite as [|w suite IH]; intros s t He Hl Hf.
  - apply au_repos_refl.
  - apply Forall_cons_1 in Hf as [[Hm Hn] Hf].
    destruct (_verifier_triggers_sans_nouveaute w s t He Hl Hm Hn) as [Hr Hq].
    unfold resultat, etat_apres in *. cbn [boucle_continue]. deplier.
    destruct (verifier w s) as [r s1]. cbn [fst snd] in *. subst r.
    destruct Hq as (Hi & Hd & Hw & Ha & Hj).
    apply (au_repos_trans s s1); [repeat split; assumption|].
    apply (IH s1 t).
    + rewrite Ha. exact He.
    + rewrite Ha. exact Hl.
    + rewrite Hd. exact Hf.
Qed.

(** C5, amended: the guard of [_declencher_rebuild], through which each
    of the three rules goes, measures the interval
    [rebuild_min_interval_seconds] (300 by default) from the time that the
    synchronizer recorded when its previous triggered rebuild started.  A
    trigger that fires inside that window starts no rebuild: the skipped
    reason is logged and every field is left as it was, so nothing is
    queued, and a poll in the window leaves the published index, the disk
    and the recorded time untouched.  Of two modification triggers in the
    window, the first one starts a rebuild and the second one is logged
    and dropped.  Nothing else closes the window: [forcer_rebuild],
    whether it succeeds or not, leaves the synchronizer's fields as they
    were, and a trigger that finds no recorded time, or a recorded start
    at least the interval old, starts a rebuild and records its own start
    time, however long the rebuild before it lasted. *)
Theorem garde_anti_surcharge :
  (forall w s t,
     rebuild_en_cours (auto_sync s) = false ->
     dernier_rebuild_timestamp (auto_sync s) = Some t ->
     now_garde w - t < rebuild_min_interval_seconds (auto_sync s) * 1000000 ->
     (forall raison,
        _declencher_rebuild w raison s =
          (Retour tt, avec_journal (LogSkipTropTot raison :: journal s) s)) /\
     sans_rebuild s (etat_apres (verifier w) s)) /\
  (forall w1 w2 s t0 t1 t2,
     regle_3 w1 s ->
     last_update_timestamp (auto_sync s) = Some t0 ->
     trop_tot (auto_sync s) (now_garde w1) = false ->
     dernier_changement w1 = Some t1 -> t0 < t1 ->
     let s1 := etat_apres (verifier w1) s in
     regle_3 w2 s1 ->
     dernier_changement w2 = Some t2 -> t1 < t2 ->
     now_garde w2 - now_debut w1 < rebuild_min_interval_seconds (auto_sync s) * 1000000 ->
     nb_declenchements (journal s1) = S (nb_declenchements (journal s)) /\
     verifier w2 s1 =
       (Retour tt,
        avec_sync (set_last_update_timestamp (Some t2))
          (avec_journal (LogSkipTropTot (BaseModifiee t2)
                           :: LogTrigger3 t1 t2 :: journal s1) s1))) /\
  (forall w s, meme_sync s (etat_apres (forcer_rebuild w) s)) /\
  (forall w raison s,
     rebuild_en_cours (auto_sync s) = false ->
     match dernier_rebuild_timestamp (auto_sync s) with
     | Some t => rebuild_min_interval_seconds (auto_sync s) * 1000000 <= now_garde w - t
     | None => True
     end ->
     let s' := etat_apres (_declencher_rebuild w raison) s in
     dernier_rebuild_timestamp (auto_sync s') = Some (now_debut w) /\
     nb_declenchements (journal s') = S (nb_declenchements (journal s))).
Proof.
  split; [|split; [|split]].
  - intros w s t He Hd Ht.
    assert (Htt : trop_tot (auto_sync s) (now_garde w) = true).
    { unfold trop_tot. rewrite Hd. apply Z.ltb_lt. exact Ht. }
    split.
    + intros raison. apply _declencher_rebuild_trop_tot; assumption.
    + apply _verifier_triggers_garde; assumption.
  - intros w1 w2 s t0 t1 t2 Hr1 Hl Ht Hd1 Hlt1 s1 Hr2 Hd2 Hlt2 Hw.
    assert (He : rebuild_en_cours (auto_sync s) = false) by apply Hr1.
    assert (Hs1 : s1 = avec_sync (set_last_update_timestamp (Some t1))
                    (etat_apres (_declencher_rebuild w1 (BaseModifiee t1))
                       (avec_journal (LogTrigger3 t0 t1 :: journal s) s))).
    { subst s1. unfold etat_apres at 1.
      rewrite (_verifier_triggers_regle_3 w1 s t1 Hr1 Hd1).
      rewrite (trigger_modification_modifie w1 t1 t0 s Hl Hlt1). reflexivity. }
    destruct (_declencher_rebuild_lance w1 (BaseModifiee t1)
                (avec_journal (LogTrigger3 t0 t1 :: journal s) s) He Ht) as [Ha Hn].
    proj. rewrite nb_declenchements_cons in Hn. cbn [est_declenchement] in Hn.
    assert (Ha1 : auto_sync s1 =
              set_last_update_timestamp (Some t1)
                (apres_declenchement (now_debut w1) (auto_sync s))).
    { rewrite Hs1. proj. rewrite Ha. reflexivity. }
    split.
    + rewrite Hs1. proj. exact Hn.
    + rewrite (_verifier_triggers_regle_3 w2 s1 t2 Hr2 Hd2).
      rewrite (trigger_modification_modifie w2 t2 t1 s1); [|rewrite Ha1; reflexivity|exact Hlt2].
      unfold etat_apres. rewrite _declencher_rebuild_trop_tot.
      * reflexivity.
      * proj. rewrite Ha1. reflexivity.
      * proj. rewrite Ha1. unfold trop_tot. cbn. apply Z.ltb_lt. exact Hw.
  - intros w s. unfold forcer_rebuild. apply garde_sync_rebuild.
  - intros w raison s He Ht s'.
    assert (Htt : trop_tot (auto_sync s) (now_garde w) = false).
    { unfold trop_tot. destruct (dernier_rebuild_timestamp (auto_sync s)) as [t|];
        [apply Z.ltb_ge; exact Ht|reflexivity]. }
    destruct (_declencher_rebuild_lance w raison s He Htt) as [Ha Hn].
    split; [|exact Hn]. subst s'. rewrite Ha. reflexivity.
Qed.

(** C6: in a poll that reaches the modification rule and observes the
    maximum timestamp [t], a synchronizer without baseline only records
    [t] and starts nothing.  With a baseline [t0], the rule calls for a
    rebuild exactly when [t0 < t]: otherwise the state is unchanged but for
    the log; and when the minimum interval has elapsed the rebuild is
    started once, the baseline becomes [t], and a further poll observing
    the same [t] starts nothing. *)
Theorem regle_modification (w : Monde) (s : Etat) (t : Z) :
  regle_3 w s ->
  dernier_changement w = Some t ->
  let s' := etat_apres (verifier w) s in
  resultat (verifier w) s = Retour tt /\
  (last_update_timestamp (auto_sync s) = None ->
     s' = avec_sync (set_last_update_timestamp (Some t))
            (avec_journal (LogInitTimestamp t :: journal s) s)) /\
  (forall t0, last_update_timestamp (auto_sync s) = Some t0 -> t <= t0 ->
     s' = avec_journal (LogAucuneModification t :: journal s) s) /\
  (forall t0, last_update_timestamp (auto_sync s) = Some t0 -> t0 < t ->
     s' = avec_sync (set_last_update_timestamp (Some t))
            (etat_apres (_declencher_rebuild w (BaseModifiee t))
               (avec_journal (LogTrigger3 t0 t :: journal s) s)) /\
     (trop_tot (auto_sync s) (now_garde w) = false ->
        nb_declenchements (journal s') = S (nb_declenchements (journal s)) /\
        auto_sync s' =
          set_last_update_timestamp (Some t)
            (apres_declenchement (now_debut w) (auto_sync s)) /\
        forall w2, regle_3 w2 s' -> dernier_changement w2 = Some t ->
          verifier w2 s' =
            (Retour tt, avec_journal (LogAucuneModification t :: journal s') s'))).
Proof.
  intros Hr Hd s'. subst s'. unfold resultat, etat_apres.
  rewrite (_verifier_triggers_regle_3 w s t Hr Hd).
  assert (He : rebuild_en_cours (auto_sync s) = false) by apply Hr.
  split; [|split; [|split]].
  - destruct (last_update_timestamp (auto_sync s)) as [t0|] eqn:Hl.
    + destruct (Z.lt_ge_cases t0 t).
      * rewrite (trigger_modification_modifie w t t0 s Hl) by lia. reflexivity.
      * rewrite (trigger_modification_inchange w t t0 s Hl) by lia. reflexivity.
    + rewrite (trigger_modification_init w t s Hl). reflexivity.
  - intros Hl. rewrite (trigger_modification_init w t s Hl). reflexivity.
  - intros t0 Hl Hle. rewrite (trigger_modification_inchange w t t0 s Hl Hle). reflexivity.
  - intros t0 Hl Hlt. rewrite (trigger_modification_modifie w t t0 s Hl Hlt).
    cbn [snd].
    set (s1 := avec_sync (set_last_update_timestamp (Some t))
                 (etat_apres (_declencher_rebuild w (BaseModifiee t))
                    (avec_journal (LogTrigger3 t0 t :: journal s) s))).
    split; [reflexivity|]. intros Ht.
    destruct (_declencher_rebuild_lance w (BaseModifiee t)
                (avec_journal (LogTrigger3 t0 t :: journal s) s) He Ht) as [Ha Hn].
    cbn [auto_sync journal avec_journal] in Ha, Hn.
    rewrite nb_declenchements_cons in Hn. cbn [est_declenchement] in Hn.
    split; [exact Hn|]. split; [unfold s1; cbn [auto_sync avec_sync]; rewrite Ha; reflexivity|].
    intros w2 Hr2 Hd2.
    rewrite (_verifier_triggers_regle_3 w2 s1 t Hr2 Hd2).
    apply (trigger_modification_inchange w2 t t s1); [reflexivity|lia].
Qed.

(** C9: when the modification rule fires, the baseline
    [last_update_timestamp] becomes the observed maximum whatever
    [_declencher_rebuild] does: also when the anti-thrash guard drops the
    request, and also when the rebuild raises.  After a dropped request the
    state differs only by the log and the baseline; and in any later
    polls whose observed maximum is not above that baseline (the absence
    and restart rules staying silent), no rebuild is started and the
    index, the disk and the synchronizer stay as they are. *)
Theorem baseline_avance_sans_rebuild (w : Monde) (s : Etat) (t0 t : Z) :
  regle_3 w s ->
  last_update_timestamp (auto_sync s) = Some t0 ->
  dernier_changement w = Some t ->
  t0 < t ->
  let s' := etat_apres (verifier w) s in
  last_update_timestamp (auto_sync s') = Some t /\
  rebuild_en_cours (auto_sync s') = false /\
  (trop_tot (auto_sync s) (now_garde w) = true ->
     s' = avec_sync (set_last_update_timestamp (Some t))
            (avec_journal (LogSkipTropTot (BaseModifiee t)
                             :: LogTrigger3 t0 t :: journal s) s)) /\
  (forall suite,
     Forall (fun w' =>
               regles_1_2_muettes FAISS_INDEX_PATH AUTO_SYNC_MYSQL_UPTIME_THRESHOLD
                 (disque s') w' /\
               sans_nouveaute t w') suite ->
     au_repos s' (etat_apres (boucle suite) s')).
Proof.
  intros Hr Hl Hd Hlt s'.
  assert (He : rebuild_en_cours (auto_sync s) = false) by apply Hr.
  assert (Hs' : s' = avec_sync (set_last_update_timestamp (Some t))
                  (etat_apres (_declencher_rebuild w (BaseModifiee t))
                     (avec_journal (LogTrigger3 t0 t :: journal s) s))).
  { subst s'. unfold etat_apres at 1.
    rewrite (_verifier_triggers_regle_3 w s t Hr Hd).
    rewrite (trigger_modification_modifie w t t0 s Hl Hlt). reflexivity. }
  destruct (_declencher_rebuild_total w (BaseModifiee t)
              (avec_journal (LogTrigger3 t0 t :: journal s) s)) as (_ & _ & Hen).
  assert (H1 : last_update_timestamp (auto_sync s') = Some t)
    by (rewrite Hs'; reflexivity).
  assert (H2 : rebuild_en_cours (auto_sync s') = false).
  { rewrite Hs'. proj. apply Hen. exact He. }
  split; [exact H1|]. split; [exact H2|]. split.
  - intros Ht. rewrite Hs'. unfold etat_apres.
    rewrite _declencher_rebuild_trop_tot; [reflexivity|exact He|exact Ht].
  - intros suite Hf.
    apply (boucle_continue_sans_nouveaute suite s' t H2 H1 Hf).
Qed.

End Proprietes.

(** ** The confidence score *)

(** Rounding never produces a NaN from a non-negative mantissa. *)

Lemma shr_1_positif mrs : 0 <= shr_m mrs -> 0 <= shr_m (shr_1 mrs).
Proof. destruct mrs as [[|[p|p|]|p] r s]; cbn; lia. Qed.

Lemma iter_pos_shr_1_positif p : forall mrs,
  0 <= shr_m mrs -> 0 <= shr_m (SpecFloat.iter_pos shr_1 p mrs).
Proof.
  induction p as [p IH|p IH|]; intros mrs H; cbn.
  - apply IH, IH, shr_1_positif, H.
  - apply IH, IH, H.
  - apply shr_1_positif, H.
Qed.

Lemma shr_fexp_positif m e l :
  0 <= m -> 0 <= shr_m (fst (shr_fexp prec emax m e l)).
Proof.
  intros H. unfold shr_fexp, shr.
  assert (H0 : 0 <= shr_m (shr_record_of_loc m l)) by (destruct l as [|[]]; exact H).
  destruct (fexp prec emax (Zdigits2 m + e) - e); cbn [fst]; auto.
  apply iter_pos_shr_1_positif, H0.
Qed.

Lemma round_nearest_even_positif m l : 0 <= m -> 0 <= round_nearest_even m l.
Proof.
  intros H. destruct l as [|[]]; cbn; try lia. destruct (Z.even m); lia.
Qed.

Lemma binary_round_aux_pas_nan sx mx ex lx :
  0 <= mx -> pas_nan (binary_round_aux prec emax sx mx ex lx).
Proof.
  intros H. unfold binary_round_aux.
  pose proof (shr_fexp_positif mx ex lx H) as H1.
  destruct (shr_fexp prec emax mx ex lx) as [mrs' e']. cbn [fst] in H1.
  pose proof (shr_fexp_positif _ e' loc_Exact
                (round_nearest_even_positif _ (loc_of_shr_record mrs') H1)) as H2.
  destruct (shr_fexp prec emax _ e' loc_Exact) as [mrs'' e'']. cbn [fst] in H2.
  destruct (shr_m mrs'') as [|m|m]; [discriminate| |lia].
  destruct (e'' <=? emax - prec); discriminate.
Qed.

Lemma binary_normalize_pas_nan m e szero :
  pas_nan (binary_normalize prec emax m e szero).
Proof.
  destruct m as [|m|m]; cbn; [discriminate| |]; unfold binary_round;
    destruct (shl_align _ _ _) as [mz ez]; apply binary_round_aux_pas_nan; lia.
Qed.

Lemma SFadd_pas_nan x sy my ey :
  pas_nan x -> pas_nan (SFadd prec emax x (S754_finite sy my ey)).
Proof.
  intros Hx. destruct x as [sx|sx| |sx mx ex]; cbn; try discriminate.
  - destruct (Hx eq_refl).
  - apply binary_normalize_pas_nan.
Qed.

Lemma SFdiv_pas_nan x sy my ey :
  pas_nan x -> pas_nan (SFdiv prec emax x (S754_finite sy my ey)).
Proof.
  intros Hx. destruct x as [sx|sx| |sx mx ex]; cbn -[SFdiv_core_binary]; try discriminate.
  - destruct (Hx eq_refl).
  - destruct (SFdiv_core_binary prec emax (Z.pos mx) ex (Z.pos my) ey) as [[mz ez] lz] eqn:Hd.
    apply binary_round_aux_pas_nan.
    unfold SFdiv_core_binary in Hd.
    match type of Hd with
    | (let '(q, r) := Z.div_eucl ?a ?b in _) = _ =>
        assert (Ha : 0 <= a);
        [|pose proof (Z.div_pos a b Ha ltac:(lia)) as Hq; unfold Z.div in Hq;
          destruct (Z.div_eucl a b) as [q r]; cbn [fst] in Hq;
          injection Hd as <- _ _; exact Hq]
    end.
    destruct (ex - ey - _); [lia| |lia]. apply Z.shiftl_nonneg. lia.
Qed.

Lemma Prim2SF_zero : Prim2SF 0 = SF_zero.
Proof. vm_compute. reflexivity. Qed.

Lemma Prim2SF_un : Prim2SF 1 = SF_un.
Proof. vm_compute. reflexivity. Qed.

Lemma Prim2SF_deux : Prim2SF 2 = SF_deux.
Proof. vm_compute. reflexivity. Qed.

Lemma leb_pas_nan x y : PrimFloat.leb x y = true -> pas_nan (Prim2SF x) /\ pas_nan (Prim2SF y).
Proof.
  rewrite leb_spec. unfold SFleb, pas_nan.
  destruct (Prim2SF x), (Prim2SF y); cbn [SFcompare]; intros H; split; discriminate.
Qed.

Lemma rescale_pas_nan s :
  pas_nan (Prim2SF s) ->
  pas_nan (Prim2SF (PrimFloat.div (PrimFloat.add s 1) 2)).
Proof.
  intros H. rewrite div_spec, add_spec, Prim2SF_un, Prim2SF_deux.
  apply SFdiv_pas_nan, SFadd_pas_nan, H.
Qed.

Lemma ltb_zero_un : PrimFloat.ltb 0 1 = true.
Proof. vm_compute. reflexivity. Qed.

Lemma confiance_cas s :
  let x := PrimFloat.div (PrimFloat.add s 1) 2 in
  confiance s = if PrimFloat.ltb x 1 then if PrimFloat.ltb 0 x then x else 0%float
                else 1%float.
Proof.
  intros x. unfold confiance, py_max, py_min. fold x.
  destruct (PrimFloat.ltb x 1); [reflexivity|].
  rewrite ltb_zero_un. reflexivity.
Qed.

Lemma SFcompare_un_sym mx ex :
  SFcompare SF_un (S754_finite false mx ex) =
  option_map CompOpp (SFcompare (S754_finite false mx ex) SF_un).
Proof.
  unfold SF_un. cbn [SFcompare option_map].
  rewrite (Z.compare_antisym ex (-52)).
  destruct (ex ?= -52); cbn [CompOpp]; try reflexivity.
  rewrite (Pos.compare_cont_antisym mx 4503599627370496 Eq). reflexivity.
Qed.

Lemma SFcompare_refl x : pas_nan x -> SFcompare x x = Some Eq.
Proof.
  destruct x as [s|s| |s m e]; intros H; cbn [SFcompare].
  - reflexivity.
  - destruct s; reflexivity.
  - destruct (H eq_refl).
  - rewrite Z.compare_refl, Pos.compare_cont_refl. destruct s; reflexivity.
Qed.

Lemma eqb_zero_zero : PrimFloat.eqb 0 0 = true.
Proof. vm_compute. reflexivity. Qed.

Lemma eqb_un_un : PrimFloat.eqb 1 1 = true.
Proof. vm_compute. reflexivity. Qed.

Lemma leb_zero_zero : PrimFloat.leb 0 0 = true.
Proof. vm_compute. reflexivity. Qed.

Lemma leb_zero_un : PrimFloat.leb 0 1 = true.
Proof. vm_compute. reflexivity. Qed.

Lemma leb_un_un : PrimFloat.leb 1 1 = true.
Proof. vm_compute. reflexivity. Qed.

Ltac calc := unfold SFltb, SFleb, SFeqb, SF_un, SF_zero; cbn [SFcompare option_map CompOpp].

(** C8: for every raw score [s] with [-1 <= s <= 1], the confidence
    computed by [rechercher_et_generer] is the rescaled score
    [(s + 1) / 2] clamped to [[0, 1]] (equal as floats to the clamp of the
    specification) and lies in [[0, 1]]. *)
Theorem confiance_bornee (s : float) :
  PrimFloat.leb (-1) s = true ->
  PrimFloat.leb s 1 = true ->
  PrimFloat.eqb (confiance s) (confiance_spec s) = true /\
  PrimFloat.leb 0 (confiance s) = true /\
  PrimFloat.leb (confiance s) 1 = true.
Proof.
  intros Hbas _. apply leb_pas_nan in Hbas as [_ Hs].
  apply rescale_pas_nan in Hs.
  rewrite confiance_cas. unfold confiance_spec, borner.
  set (x := PrimFloat.div (PrimFloat.add s 1) 2) in *.
  assert (Hxx : PrimFloat.eqb x x = true).
  { rewrite FloatAxioms.eqb_spec. unfold SFeqb. rewrite (SFcompare_refl _ Hs). reflexivity. }
  assert (H0x : PrimFloat.eqb 0 x = SFeqb SF_zero (Prim2SF x))
    by (rewrite FloatAxioms.eqb_spec, Prim2SF_zero; reflexivity).
  assert (H1x : PrimFloat.eqb 1 x = SFeqb SF_un (Prim2SF x))
    by (rewrite FloatAxioms.eqb_spec, Prim2SF_un; reflexivity).
  assert (L0x : PrimFloat.leb 0 x = SFleb SF_zero (Prim2SF x))
    by (rewrite leb_spec, Prim2SF_zero; reflexivity).
  assert (Lx1 : PrimFloat.leb x 1 = SFleb (Prim2SF x) SF_un)
    by (rewrite leb_spec, Prim2SF_un; reflexivity).
  rewrite !ltb_spec, Prim2SF_zero, Prim2SF_un.
  clearbody x.
  pose proof eqb_zero_zero. pose proof eqb_un_un.
  pose proof leb_zero_zero. pose proof leb_zero_un. pose proof leb_un_un.
  destruct (Prim2SF x) as [b|b| |b mx ex].
  - (* x is a zero *)
    calc. rewrite H0x. calc. auto.
  - (* x is an infinity *)
    destruct b; calc; auto.
  - destruct (Hs eq_refl).
  - destruct b.
    + (* x is negative *)
      calc. auto.
    + (* x is positive *)
      unfold SFltb. rewrite SFcompare_un_sym.
      unfold SFeqb in H1x. rewrite SFcompare_un_sym in H1x.
      unfold SFleb in Lx1, L0x.
      change (SFcompare (S754_finite false mx ex) SF_zero) with (Some Gt).
      change (SFcompare SF_zero (S754_finite false mx ex)) with (Some Lt) in *.
      destruct (SFcompare (S754_finite false mx ex) SF_un) as [[]|] eqn:Hc;
        [| | |discriminate Hc];
        cbn [option_map CompOpp] in *; rewrite ?Hxx, ?H1x, ?L0x, ?Lx1; auto.
Qed.

Example confiance_moins_un : confiance (-1) = 0%float.
Proof. vm_compute. reflexivity. Qed.

Example confiance_zero : confiance 0 = 0.5%float.
Proof. vm_compute. reflexivity. Qed.

Example confiance_un : confiance 1 = 1%float.
Proof. vm_compute. reflexivity. Qed.

(** * Further properties of the code *)

(** ** The confidence of any score *)

Lemma rescale_nan s : Prim2SF s = S754_nan ->
  Prim2SF (PrimFloat.div (PrimFloat.add s 1) 2) = S754_nan.
Proof.
  intros H. rewrite div_spec, add_spec, H. reflexivity.
Qed.

Lemma confiance_nan s : Prim2SF s = S754_nan -> confiance s = 1%float.
Proof.
  intros H. apply rescale_nan in H. rewrite confiance_cas. cbv zeta.
  rewrite ltb_spec, H. reflexivity.
Qed.

Lemma confiance_intervalle_pas_nan s :
  pas_nan (Prim2SF s) ->
  PrimFloat.leb 0 (confiance s) = true /\ PrimFloat.leb (confiance s) 1 = true.
Proof.
  intros Hs. apply rescale_pas_nan in Hs.
  rewrite confiance_cas. cbv zeta.
  set (x := PrimFloat.div (PrimFloat.add s 1) 2) in *.
  assert (L0x : PrimFloat.leb 0 x = SFleb SF_zero (Prim2SF x))
    by (rewrite leb_spec, Prim2SF_zero; reflexivity).
  assert (Lx1 : PrimFloat.leb x 1 = SFleb (Prim2SF x) SF_un)
    by (rewrite leb_spec, Prim2SF_un; reflexivity).
  rewrite !ltb_spec, Prim2SF_zero, Prim2SF_un.
  clearbody x.
  pose proof leb_zero_zero. pose proof leb_zero_un. pose proof leb_un_un.
  unfold SFltb, SFleb in *.
  destruct (SFcompare (Prim2SF x) SF_un) as [[]|] eqn:C1; auto.
  destruct (SFcompare SF_zero (Prim2SF x)) as [[]|] eqn:C0; auto.
Qed.

Lemma confiance_intervalle s :
  PrimFloat.leb 0 (confiance s) = true /\ PrimFloat.leb (confiance s) 1 = true.
Proof.
  destruct (Prim2SF s) eqn:E.
  4: apply confiance_intervalle_pas_nan; rewrite E; discriminate.
  1,2: apply confiance_intervalle_pas_nan; rewrite E; discriminate.
  rewrite (confiance_nan s E). split; [apply leb_zero_un|apply leb_un_un].
Qed.

(** X14: for every raw score, NaN and the infinities included, the
    confidence computed by [rechercher_et_generer] lies in [[0, 1]]; a NaN
    score gives the confidence 1, since [min(1.0, nan)] keeps its first
    argument. *)
Theorem confiance_toujours_bornee (s : float) :
  PrimFloat.leb 0 (confiance s) = true /\
  PrimFloat.leb (confiance s) 1 = true /\
  (Prim2SF s = S754_nan -> confiance s = 1%float).
Proof.
  pose proof (confiance_intervalle s) as H.
  destruct H as [H0 H1]. split; [exact H0|]. split; [exact H1|]. apply confiance_nan.
Qed.

(** ** The generator singleton *)


Lemma obtenir_generateur_sain {G} (c : Res G) (opt : bool) (st : EtatGenerateur G) :
  generateur_sain st -> generateur_sain (snd (obtenir_generateur c opt st)).
Proof.
  unfold generateur_sain, obtenir_generateur.
  destruct st as [[g|] []]; cbn; intros H; try discriminate; try reflexivity.
  destruct c as [g|e]; [reflexivity|]. destruct opt; reflexivity.
Qed.

Lemma obtenir_generateur_charge {G} (c : Res G) (opt : bool) (st : EtatGenerateur G) g :
  _generateur_global st = Some g ->
  obtenir_generateur c opt st = (Retour (Some g), st).
Proof.
  unfold obtenir_generateur. intros ->. destruct (_llm_disponible st); reflexivity.
Qed.

(** X22: once [_generateur_global] holds an instance, every call of
    [obtenir_generateur] returns that instance and leaves the two globals
    as they are, whatever [optionnel] is and whatever the constructor
    would do: it is not called again. *)
Theorem appels_generateur_singleton {G} (appels : list (Res G * bool)) :
  forall (st : EtatGenerateur G) (g : G),
  _generateur_global st = Some g ->
  appels_generateur appels st = (map (fun _ => Retour (Some g)) appels, st).
Proof.
  induction appels as [|[c opt] suite IH]; intros st g H; cbn [appels_generateur map].
  - reflexivity.
  - rewrite (obtenir_generateur_charge c opt st g H), (IH st g H). reflexivity.
Qed.



Lemma appels_generateur_app {G} (l1 l2 : list (Res G * bool)) : forall st,
  appels_generateur (l1 ++ l2) st =
    let '(r1, st1) := appels_generateur l1 st in
    let '(r2, st2) := appels_generateur l2 st1 in
    (r1 ++ r2, st2).
Proof.
  induction l1 as [|[c opt] l1 IH]; intros st; cbn [appels_generateur app].
  - destruct (appels_generateur l2 st). reflexivity.
  - destruct (obtenir_generateur c opt st) as [r st1]. rewrite IH.
    destruct (appels_generateur l1 st1) as [r1 st2].
    destruct (appels_generateur l2 st2). reflexivity.
Qed.

Lemma obtenir_generateur_leve {G} (c : Res G) opt st e :
  fst (obtenir_generateur c opt st) = Leve e -> c = Leve e /\ opt = false.
Proof.
  unfold obtenir_generateur.
  destruct (_generateur_global st), (_llm_disponible st); cbn; try discriminate.
  destruct c as [g|e']; cbn; [discriminate|].
  destruct opt; cbn; [discriminate|]. intros [= ->]. auto.
Qed.

(** X23: a failed load is not remembered.  From the initial globals, any
    number of optional calls whose construction fails each return [None]
    and leave the globals initial, so the next call constructs again; if
    that construction succeeds the instance is returned and
    [_llm_disponible] becomes true. *)
Theorem appels_generateur_echecs_oublies {G} (echecs : list Exc) (g : G) (optionnel : bool) :
  appels_generateur (map (fun e => (Leve e, true)) echecs ++ [(Retour g, optionnel)])
    generateur_initial =
  (map (fun _ => Retour None) echecs ++ [Retour (Some g)],
   {| _generateur_global := Some g; _llm_disponible := true |}).
Proof.
  rewrite appels_generateur_app.
  assert (H : appels_generateur (map (fun e => (@Leve G e, true)) echecs) generateur_initial =
              (map (fun _ => Retour None) echecs, generateur_initial)).
  { induction echecs as [|e l IH]; [reflexivity|].
    cbn [map appels_generateur]. cbn. fold (@generateur_initial G). rewrite IH. reflexivity. }
  rewrite H. reflexivity.
Qed.

(** X24: after any run of calls from the initial globals,
    [llm_est_disponible()] is true exactly when an instance is held; and a
    call raises only when it is not optional and its construction fails,
    with the constructor's exception. *)
Theorem appels_generateur_invariant {G} (appels : list (Res G * bool)) :
  let rs := fst (appels_generateur appels generateur_initial) in
  let st := snd (appels_generateur appels generateur_initial) in
  llm_est_disponible st = bool_decide (is_Some (_generateur_global st)) /\
  length rs = length appels /\
  (forall i e, rs !! i = Some (Leve e) -> appels !! i = Some (Leve e, false)).
Proof.
  cbv zeta. fold (generateur_sain (snd (appels_generateur appels (@generateur_initial G)))).
  assert (Hs : generateur_sain (@generateur_initial G)) by reflexivity.
  revert Hs. generalize (@generateur_initial G).
  induction appels as [|[c opt] suite IH]; intros st Hs; cbn [appels_generateur].
  - cbn [fst snd]. repeat split; auto. intros [|i] e H; discriminate H.
  - pose proof (obtenir_generateur_sain c opt st Hs) as Hs1.
    pose proof (obtenir_generateur_leve c opt st) as Hl.
    destruct (obtenir_generateur c opt st) as [r st1]. cbn [fst snd] in Hs1, Hl.
    specialize (IH st1 Hs1). destruct (appels_generateur suite st1) as [rs st2].
    cbn [fst snd] in *. destruct IH as (I1 & I2 & I3).
    split; [exact I1|]. split; [cbn; lia|].
    intros [|i] e H; cbn in H |- *.
    + injection H as ->. destruct (Hl e eq_refl) as [-> ->]. reflexivity.
    + apply I3, H.
Qed.

(** ** From positions to ids *)

Lemma id_de_position_dans mapping idx :
  0 <= idx < Z.of_nat (length mapping) ->
  mapping !! Z.to_nat idx = Some (id_de_position mapping idx).
Proof.
  intros H. unfold id_de_position.
  replace (0 <=? idx) with true by (symmetry; apply Z.leb_le; lia).
  replace (idx <? Z.of_nat (length mapping)) with true by (symmetry; apply Z.ltb_lt; lia).
  cbn [andb].
  destruct (lookup_lt_is_Some_2 mapping (Z.to_nat idx)) as [x Hx]; [lia|].
  rewrite Hx. reflexivity.
Qed.

Lemma id_de_position_hors mapping idx :
  idx < 0 \/ Z.of_nat (length mapping) <= idx ->
  id_de_position mapping idx = -1.
Proof.
  intros H. unfold id_de_position.
  destruct (0 <=? idx) eqn:H0; [|reflexivity].
  destruct (idx <? Z.of_nat (length mapping)) eqn:H1; [|reflexivity].
  apply Z.leb_le in H0. apply Z.ltb_lt in H1. lia.
Qed.

Lemma obtenir_ids_mysql_exec indices s :
  obtenir_ids_mysql indices s =
    (Retour (map (id_de_position (id_mapping (index_global s))) indices), s).
Proof. reflexivity. Qed.

(** X1: [obtenir_ids_mysql] never raises and changes nothing; it returns
    one id per position, in order: the entry of [id_mapping] for a
    position inside the mapping, and [-1] for a negative position (which is
    not read from the end of the list) or one past the end. *)
Theorem obtenir_ids_mysql_positions (indices : list Z) (s : Etat) :
  let mapping := id_mapping (index_global s) in
  exists ids,
    obtenir_ids_mysql indices s = (Retour ids, s) /\
    length ids = length indices /\
    forall pos idx, indices !! pos = Some idx ->
      (0 <= idx < Z.of_nat (length mapping) -> ids !! pos = mapping !! Z.to_nat idx) /\
      (idx < 0 \/ Z.of_nat (length mapping) <= idx -> ids !! pos = Some (-1)).
Proof.
  intros mapping. eexists. split; [apply obtenir_ids_mysql_exec|].
  split; [apply length_map|].
  intros pos idx H. rewrite list_lookup_fmap, H. cbn [fmap option_fmap option_map]. split; intros Hi.
  - symmetry. apply id_de_position_dans, Hi.
  - f_equal. apply id_de_position_hors, Hi.
Qed.












Section Complements.

Variable FAISS_INDEX_PATH : Chemin.
Variable FAISS_TOP_K : Z.
Variable EMBEDDINGS_DIMENSION : nat.
Variable AUTO_SYNC_MYSQL_UPTIME_THRESHOLD : Z.

Local Abbreviation verifier := (_verifier_triggers FAISS_INDEX_PATH AUTO_SYNC_MYSQL_UPTIME_THRESHOLD).
Local Abbreviation boucle := (boucle_continue FAISS_INDEX_PATH AUTO_SYNC_MYSQL_UPTIME_THRESHOLD).
Local Abbreviation surveillance :=
  (_boucle_surveillance FAISS_INDEX_PATH AUTO_SYNC_MYSQL_UPTIME_THRESHOLD).

(** ** The life cycle of the index object *)

Lemma bien_forme_index_vide o : bien_forme (index_vide o).
Proof. eexists. split; reflexivity. Qed.

Lemma bien_forme_index_charge o idx ids : bien_forme (index_charge o idx ids).
Proof. eexists. split; reflexivity. Qed.

Lemma bien_forme_index_reconstruit o emb ids : bien_forme (index_reconstruit o emb ids).
Proof. eexists. split; reflexivity. Qed.

Lemma _charger_index_bien_forme s :
  bien_forme (index_global (etat_apres _charger_index s)).
Proof.
  destruct (_charger_index_cas s) as (_ & Ha & Hi & Hm & Hl & Hv).
  destruct (disque s !! chemin_index (index_global s)) as [f|] eqn:Hc.
  2:{ rewrite (Ha eq_refl). apply bien_forme_index_vide. }
  destruct f as [idx| |].
  2,3: rewrite (Hi _ eq_refl) by discriminate; apply bien_forme_index_vide.
  destruct (disque s !! mapping_de (chemin_index (index_global s))) as [f|] eqn:Hmp.
  2:{ rewrite (Hv idx eq_refl eq_refl). apply bien_forme_index_charge. }
  destruct f as [idx'|ids|].
  1,3: rewrite (Hm idx _ eq_refl eq_refl) by discriminate; apply bien_forme_index_vide.
  rewrite (Hl idx ids eq_refl eq_refl). apply bien_forme_index_charge.
Qed.

Lemma ajouter_vecteurs_bien_forme vecteurs ids normaliser s :
  bien_forme (index_global s) ->
  bien_forme (index_global (etat_apres (ajouter_vecteurs vecteurs ids normaliser) s)).
Proof.
  intros Hb. unfold etat_apres.
  destruct (ajouter_vecteurs vecteurs ids normaliser s) as [[[]|e] s'] eqn:H.
  2:{ apply ajouter_vecteurs_leve in H as [-> _]. exact Hb. }
  unfold ajouter_vecteurs in H. fold (a_inserer normaliser vecteurs) in H. deplier.
  destruct Hb as (idx & Hi & Hd). rewrite Hi in H.
  destruct (Nat.eqb (length ids) (length vecteurs)); proj; [|discriminate].
  destruct (faiss_add idx _) as [idx'|] eqn:Ha; [|discriminate].
  injection H as <-. apply faiss_add_Some in Ha as ->. proj.
  eexists. split; [reflexivity|exact Hd].
Qed.

Lemma rebuild_bien_forme w s :
  bien_forme (index_global s) ->
  bien_forme (index_global (etat_apres (rebuild_depuis_mysql w) s)).
Proof.
  intros Hb. unfold etat_apres.
  destruct (rebuild_depuis_mysql w s) as [[st|e] s'] eqn:H; cbn.
  - apply rebuild_succes_cas in H as [(_ & _ & ->)|(emb & _ & _ & _ & ->)]; [exact Hb|].
    apply bien_forme_index_reconstruit.
  - apply rebuild_echec_cas in H
      as [(_ & -> & _)|[(_ & -> & _)|(emb & _ & _ & ->)]];
      [exact Hb|apply bien_forme_index_vide|apply bien_forme_index_reconstruit].
Qed.

Lemma _charger_index_etat s :
  exists j o',
    _charger_index s = (Retour tt, avec_journal j (avec_index (fun _ => o') s)) /\
    chemin_index o' = chemin_index (index_global s) /\
    bien_forme o'.
Proof.
  destruct (disque s !! chemin_index (index_global s)) as [f|] eqn:Hc.
  2:{ rewrite (_charger_index_absent s Hc). do 2 eexists. split; [reflexivity|].
      split; [reflexivity|apply bien_forme_index_vide]. }
  destruct f as [idx| |].
  2,3: rewrite (_charger_index_illisible s _ Hc) by discriminate; do 2 eexists;
       (split; [reflexivity|]); (split; [reflexivity|apply bien_forme_index_vide]).
  destruct (_charger_index_lu s idx Hc) as [j ->]. exists j, (index_lu s idx).
  split; [reflexivity|]. unfold index_lu.
  destruct (disque s !! mapping_de _) as [[| |]|];
    (split; [reflexivity|]);
    first [apply bien_forme_index_vide|apply bien_forme_index_charge].
Qed.

(** X3: the constructor of [IndexFAISS] never raises, writes nothing and
    leaves the synchronizer alone.  It leaves the object on the chosen path
    (the default when the argument is [None] or empty) with a structure
    loaded whose dimension is the object's dimension; with
    [creer_nouveau=True] the index is empty and of the chosen dimension. *)
Theorem IndexFAISS_init_issue (chemin : option Chemin) (dim : option nat)
    (creer_nouveau : bool) (s : Etat) :
  let init := IndexFAISS_init FAISS_INDEX_PATH EMBEDDINGS_DIMENSION chemin dim creer_nouveau in
  let o' := index_global (etat_apres init s) in
  resultat init s = Retour tt /\
  chemin_index o' = chemin_ou chemin FAISS_INDEX_PATH /\
  bien_forme o' /\
  disque (etat_apres init s) = disque s /\
  ecritures (etat_apres init s) = ecritures s /\
  auto_sync (etat_apres init s) = auto_sync s /\
  (creer_nouveau = true ->
     dimension o' = nat_ou dim EMBEDDINGS_DIMENSION /\ ntotal o' = 0 /\ id_mapping o' = []).
Proof.
  intros init o'. subst init o'. unfold resultat, etat_apres, IndexFAISS_init. deplier.
  destruct creer_nouveau.
  - rewrite _creer_index_exec. proj. repeat split; auto. apply bien_forme_index_vide.
  - match goal with |- context [_charger_index ?s0] => set (s1 := s0) end.
    destruct (_charger_index_etat s1) as (j & o' & -> & Hc & Hb). proj.
    repeat split; auto; discriminate.
Qed.

Lemma rebuild_succes_exec (w : Monde) (s : Etat) (emb : list vecteur) :
  let o := index_global s in
  let ids := map row_id (rows w) in
  let idx := {| index_d := dimension o; xb := map normalize_L2 emb |} in
  connexion_rebuild w = true ->
  rows w <> [] ->
  encoder_batch w (textes_de w) = Some emb ->
  length emb = length (rows w) ->
  Forall (fun v => length v = dimension o) emb ->
  mkdir_ok w = true -> issue_write_index w = Ecrit -> issue_json_dump w = Ecrit ->
  rebuild_depuis_mysql w s =
    (Retour (StatsSucces (length (rows w)) (dimension o)),
     avec_disque (disque_apres_sauvegarde (chemin_index o) idx ids (disque s))
       (avec_disque (<[chemin_index o := FichierIndex idx]> (disque s))
          (avec_index (fun _ => index_reconstruit o emb ids) s))).
Proof.
  intros o ids idx Hc Hr He Hl Hf Hm Hw Hj.
  unfold rebuild_depuis_mysql. fold (textes_de w). deplier.
  rewrite Hc. proj. destruct (rows w) as [|r rs] eqn:Er in |- *; [destruct (Hr Er)|].
  rewrite <- Er. rewrite _creer_index_exec, He.
  assert (Ha : faiss_add (IndexFlatIP (dimension o)) (a_inserer true emb) = Some idx).
  { unfold faiss_add, a_inserer. cbn [index_d IndexFlatIP xb app].
    replace (forallb _ _) with true; [reflexivity|]. symmetry.
    apply forallb_forall. intros v Hv. apply in_map_iff in Hv as (v0 & <- & Hv0).
    rewrite normalize_L2_length. apply Nat.eqb_eq.
    rewrite List.Forall_forall in Hf. apply Hf, Hv0. }
  rewrite (ajouter_vecteurs_succes emb (map row_id (rows w)) true _ (IndexFlatIP (dimension o)) idx);
    [|reflexivity|rewrite length_map; symmetry; exact Hl|exact Ha].
  rewrite (sauvegarder_succes w _ idx); [|reflexivity|exact Hm|exact Hw|exact Hj].
  reflexivity.
Qed.

(** X6: when the source is reachable and has rows, the encoder returns one
    vector of the index dimension per row, and the directory and both
    writes succeed, [rebuild_depuis_mysql] returns success statistics with
    the row count and the dimension.  The published index then holds the
    normalized embeddings with the row ids, whatever it held before (even
    no structure at all); the disk holds both artifacts at the object's
    path, written in two steps; the synchronizer and the log are
    untouched. *)
Theorem rebuild_reussi (w : Monde) (s : Etat) (emb : list vecteur) :
  let o := index_global s in
  let ids := map row_id (rows w) in
  let idx := {| index_d := dimension o; xb := map normalize_L2 emb |} in
  let s' := etat_apres (rebuild_depuis_mysql w) s in
  connexion_rebuild w = true ->
  rows w <> [] ->
  encoder_batch w (textes_de w) = Some emb ->
  length emb = length (rows w) ->
  Forall (fun v => length v = dimension o) emb ->
  mkdir_ok w = true -> issue_write_index w = Ecrit -> issue_json_dump w = Ecrit ->
  resultat (rebuild_depuis_mysql w) s =
    Retour (StatsSucces (length (rows w)) (dimension o)) /\
  index_global s' = index_reconstruit o emb ids /\
  ntotal (index_global s') = Z.of_nat (length (rows w)) /\
  disque s' = disque_apres_sauvegarde (chemin_index o) idx ids (disque s) /\
  ecritures s' =
    disque s' :: <[chemin_index o := FichierIndex idx]> (disque s) :: ecritures s /\
  auto_sync s' = auto_sync s /\
  journal s' = journal s.
Proof.
  intros o ids idx s' Hc Hr He Hl Hf Hm Hw Hj. subst s'.
  unfold resultat, etat_apres.
  rewrite (rebuild_succes_exec w s emb Hc Hr He Hl Hf Hm Hw Hj). cbn [fst snd]. proj.
  repeat split. unfold ntotal, faiss_ntotal. cbn. rewrite length_map, Hl. reflexivity.
Qed.

Lemma sauvegarder_bien_forme w c s :
  bien_forme (index_global s) ->
  bien_forme (index_global (etat_apres (sauvegarder w c) s)).
Proof. intros H. rewrite sauvegarder_index_global. exact H. Qed.

Lemma rechercher_etat q k s :
  let s' := etat_apres (rechercher FAISS_TOP_K q k) s in
  s' = s \/ s' = avec_journal (LogIndexVide :: journal s) s.
Proof.
  unfold etat_apres, rechercher. deplier.
  destruct (index (index_global s)) as [idx|]; [|left; reflexivity].
  destruct (Z.min _ _ =? 0); [right; reflexivity|].
  destruct (negb (Nat.eqb (length q) _)); [left; reflexivity|].
  destruct (negb _ || _); left; reflexivity.
Qed.

Lemma rechercher_charge q k s e :
  bien_forme (index_global s) ->
  resultat (rechercher FAISS_TOP_K q k) s = Leve e ->
  e = ExceptionDe "Erreur recherche FAISS"
        (ValueError "Dimension du vecteur != dimension de l'index") \/
  (e = ExceptionDe "Erreur recherche FAISS" ErreurFaiss /\ Z_ou k FAISS_TOP_K < 0).
Proof.
  intros (idx & Hi & Hd). unfold resultat, rechercher. deplier. rewrite Hi.
  destruct (Z.min _ _ =? 0) eqn:Hk; [discriminate|].
  destruct (Nat.eqb (length q) _) eqn:Hq; cbn [negb]; [|intros [= <-]; auto].
  rewrite normalize_L2_length, Hd, Hq. cbn [negb orb].
  destruct (Z.min _ _ <=? 0) eqn:Hk'; [|discriminate].
  intros [= <-]. right. split; [reflexivity|].
  apply Z.eqb_neq in Hk. apply Z.leb_le in Hk'.
  unfold faiss_ntotal in *. lia.
Qed.

(** X4: "a structure is loaded and its dimension is the object's" is
    established by [_creer_index] and by [_charger_index] from any state,
    and kept by [ajouter_vecteurs], [sauvegarder], [rebuild_depuis_mysql]
    and [rechercher] on every outcome; under it none of the public
    operations raises the "Index FAISS non charge" error. *)
Theorem bien_forme_invariant :
  (forall s, bien_forme (index_global (etat_apres _creer_index s))) /\
  (forall s, bien_forme (index_global (etat_apres _charger_index s))) /\
  (forall vecteurs ids normaliser s,
     bien_forme (index_global s) ->
     bien_forme (index_global (etat_apres (ajouter_vecteurs vecteurs ids normaliser) s)) /\
     resultat (ajouter_vecteurs vecteurs ids normaliser) s <>
       Leve (ExceptionDe "Erreur ajout vecteurs FAISS" (ValueError "Index FAISS non charge"))) /\
  (forall w c s,
     bien_forme (index_global s) ->
     bien_forme (index_global (etat_apres (sauvegarder w c) s)) /\
     resultat (sauvegarder w c) s <> Leve (ValueError "Index FAISS non charge")) /\
  (forall w s,
     bien_forme (index_global s) ->
     bien_forme (index_global (etat_apres (rebuild_depuis_mysql w) s))) /\
  (forall q k s,
     bien_forme (index_global s) ->
     index_global (etat_apres (rechercher FAISS_TOP_K q k) s) = index_global s /\
     resultat (rechercher FAISS_TOP_K q k) s <>
       Leve (ExceptionDe "Erreur recherche FAISS" (ValueError "Index FAISS non charge"))).
Proof.
  split; [intros s; apply bien_forme_index_vide|].
  split; [apply _charger_index_bien_forme|].
  split; [|split; [|split; [exact rebuild_bien_forme|]]].
  - intros v ids n s Hb. split; [apply ajouter_vecteurs_bien_forme, Hb|].
    destruct Hb as (idx & Hi & _). unfold resultat, ajouter_vecteurs. deplier. rewrite Hi.
    destruct (negb _); [discriminate|]. destruct (faiss_add idx _); discriminate.
  - intros w c s Hb. split; [apply sauvegarder_bien_forme, Hb|].
    destruct Hb as (idx & Hi & _). unfold resultat, sauvegarder, ecrire. deplier. rewrite Hi.
    destruct (mkdir_ok w); cbn [negb]; [|discriminate].
    destruct (issue_write_index w); try discriminate.
    destruct (issue_json_dump w); discriminate.
  - intros q k s Hb. split.
    + destruct (rechercher_etat q k s) as [->| ->]; reflexivity.
    + intros H. apply (rechercher_charge q k s _ Hb) in H as [H|[H _]]; discriminate.
Qed.

Lemma index_charge_identique o idx :
  index o = Some idx -> index_d idx = dimension o ->
  index_charge o idx (id_mapping o) = o.
Proof. intros H1 H2. destruct o; cbn in *. subst. reflexivity. Qed.

(** X5: a successful [sauvegarder] followed by [_charger_index] restores
    the structure and the mapping that were in memory, provided the index
    file is not itself named [id_mapping.json]; the object is then exactly
    as before when the structure's dimension was the object's. *)
Theorem sauvegarder_puis_charger (w : Monde) (s : Etat) (idx : FaissIndex) :
  let o := index_global s in
  let s1 := etat_apres (sauvegarder w None) s in
  let s2 := etat_apres _charger_index s1 in
  index o = Some idx ->
  mkdir_ok w = true -> issue_write_index w = Ecrit -> issue_json_dump w = Ecrit ->
  mapping_de (chemin_index o) <> chemin_index o ->
  resultat (sauvegarder w None) s = Retour tt /\
  resultat _charger_index s1 = Retour tt /\
  index_global s2 = index_charge o idx (id_mapping o) /\
  (index_d idx = dimension o -> index_global s2 = o).
Proof.
  intros o s1 s2 Hi Hm Hw Hj Hne. subst s1 s2. unfold resultat, etat_apres.
  rewrite (sauvegarder_succes w s idx Hi Hm Hw Hj). cbv zeta. cbn [fst snd].
  match goal with |- context [_charger_index ?s0] => set (s1 := s0) end.
  destruct (_charger_index_cas s1) as (Hr & _ & _ & _ & Hl & _).
  split; [reflexivity|]. split; [exact Hr|].
  assert (H : index_global (etat_apres _charger_index s1) = index_charge o idx (id_mapping o)).
  { apply Hl; subst s1; unfold disque_apres_sauvegarde; proj.
    - rewrite lookup_insert_ne by exact Hne. apply lookup_insert_eq.
    - apply lookup_insert_eq. }
  split; [exact H|]. intros Hd. unfold etat_apres in H. rewrite H.
  apply index_charge_identique; assumption.
Qed.

(** X7: after a successful rebuild, constructing the index again on the
    same path with [creer_nouveau=False] (a restart of the service)
    recovers exactly the rebuilt index, whatever dimension is configured at
    the restart: the dimension is adopted from the file.  The index file
    is not itself named [id_mapping.json], so that the mapping is written
    beside it and not over it. *)
Theorem rebuild_puis_redemarrage (w : Monde) (s : Etat) (emb : list vecteur)
    (chemin : option Chemin) (dim : option nat) :
  let o := index_global s in
  let s1 := etat_apres (rebuild_depuis_mysql w) s in
  let init := IndexFAISS_init FAISS_INDEX_PATH EMBEDDINGS_DIMENSION chemin dim false in
  connexion_rebuild w = true ->
  rows w <> [] ->
  encoder_batch w (textes_de w) = Some emb ->
  length emb = length (rows w) ->
  Forall (fun v => length v = dimension o) emb ->
  mkdir_ok w = true -> issue_write_index w = Ecrit -> issue_json_dump w = Ecrit ->
  mapping_de (chemin_index o) <> chemin_index o ->
  chemin_ou chemin FAISS_INDEX_PATH = chemin_index o ->
  resultat (rebuild_depuis_mysql w) s = Retour (StatsSucces (length (rows w)) (dimension o)) /\
  index_global s1 = index_reconstruit o emb (map row_id (rows w)) /\
  resultat init s1 = Retour tt /\
  index_global (etat_apres init s1) = index_global s1.
Proof.
  intros o s1 init Hc Hr He Hl Hf Hm Hw Hj Hne Hch. subst s1 init.
  unfold resultat, etat_apres.
  rewrite (rebuild_succes_exec w s emb Hc Hr He Hl Hf Hm Hw Hj). cbn [fst snd]. fold o.
  split; [reflexivity|]. split; [reflexivity|].
  unfold IndexFAISS_init. deplier. rewrite Hch.
  match goal with |- context [_charger_index ?s0] => set (s1 := s0) end.
  destruct (_charger_index_cas s1) as (Hr1 & _ & _ & _ & Hl1 & _).
  unfold resultat, etat_apres in *. split; [exact Hr1|].
  rewrite (Hl1 {| index_d := dimension o; xb := map normalize_L2 emb |} (map row_id (rows w))).
  - reflexivity.
  - subst s1. unfold disque_apres_sauvegarde. proj.
    rewrite lookup_insert_ne by exact Hne. apply lookup_insert_eq.
  - subst s1. unfold disque_apres_sauvegarde. proj. apply lookup_insert_eq.
Qed.

(** ** The rebuild does not read the synchronizer *)


Lemma ignore_sync_retourner {A} (a : A) : ignore_sync (retourner a).
Proof. intros f s. reflexivity. Qed.

Lemma ignore_sync_lever {A} (e : Exc) : ignore_sync (@lever A e).
Proof. intros f s. reflexivity. Qed.

Lemma ignore_sync_self : ignore_sync (lire index_global).
Proof. intros f s. reflexivity. Qed.

Lemma ignore_sync_index g : ignore_sync (modifier (avec_index g)).
Proof. intros f s. reflexivity. Qed.

Lemma ignore_sync_logger e : ignore_sync (logger e).
Proof. intros f s. reflexivity. Qed.

Lemma ignore_sync_ecrire c fi issue : ignore_sync (ecrire c fi issue).
Proof. intros f s. destruct issue; reflexivity. Qed.

Lemma ignore_sync_lier {A B} (m : Prog A) (k : A -> Prog B) :
  ignore_sync m -> (forall a, ignore_sync (k a)) -> ignore_sync (lier m k).
Proof.
  intros Hm Hk f s. unfold lier. rewrite (Hm f s). unfold resultat, etat_apres.
  destruct (m s) as [[a|e] s1]; cbn [fst snd]; [apply Hk|reflexivity].
Qed.

Lemma ignore_sync_essayer {A} (m : Prog A) (h : Exc -> Prog A) :
  ignore_sync m -> (forall e, ignore_sync (h e)) -> ignore_sync (essayer m h).
Proof.
  intros Hm Hh f s. unfold essayer. rewrite (Hm f s). unfold resultat, etat_apres.
  destruct (m s) as [[a|e] s1]; cbn [fst snd]; [reflexivity|apply Hh].
Qed.

Lemma ignore_sync_quand b m : ignore_sync m -> ignore_sync (quand b m).
Proof. intros Hm. destruct b; [exact Hm|apply ignore_sync_retourner]. Qed.

Ltac independant :=
  repeat first
    [ progress unfold mbind, prog_bind, mret, prog_ret, self
    | progress cbv zeta
    | apply ignore_sync_lier; [|intros ?]
    | apply ignore_sync_essayer; [|intros ?]
    | apply ignore_sync_quand
    | apply ignore_sync_retourner
    | apply ignore_sync_lever
    | apply ignore_sync_self
    | apply ignore_sync_index
    | apply ignore_sync_ecrire
    | apply ignore_sync_logger
    | match goal with
      | |- ignore_sync (match ?x with _ => _ end) => destruct x
      end ].

Lemma rebuild_ignore_sync (w : Monde) : ignore_sync (rebuild_depuis_mysql w).
Proof.
  unfold rebuild_depuis_mysql, _creer_index, ajouter_vecteurs, sauvegarder. independant.
Qed.

(** X9: the admin endpoint [POST /faiss/rebuild] neither reads nor writes
    the synchronizer: its answer and its effect are the same whatever
    [rebuild_en_cours] and the time of the last rebuild are, and it arms no
    guard.  It answers 500 with the wrapped MySQL error when the source is
    unreachable, and 200 with statistics whose [success] is false when the
    source has no active row. *)
Theorem endpoint_forcer_rebuild_issue (w : Monde) (s : Etat) :
  let s' := snd (endpoint_forcer_rebuild w s) in
  (auto_sync s' = auto_sync s /\
   forall f, endpoint_forcer_rebuild w (avec_sync f s) =
               (fst (endpoint_forcer_rebuild w s), avec_sync f s')) /\
  (connexion_rebuild w = false ->
     endpoint_forcer_rebuild w s =
       (HTTPException 500 (DetailErreur (ExceptionDe "Erreur rebuild FAISS" ErreurMySQL)),
        avec_journal (LogErreurRebuild ErreurMySQL :: journal s) s)) /\
  (connexion_rebuild w = true -> rows w = [] ->
     endpoint_forcer_rebuild w s =
       (Reponse200 (StatsEchec "Base de donnees vide"),
        avec_journal (LogBaseVide :: journal s) s)).
Proof.
  cbv zeta. split; [split|split].
  - destruct (garde_sync_rebuild w s) as [Ha _]. unfold etat_apres in Ha.
    unfold endpoint_forcer_rebuild, forcer_rebuild.
    destruct (rebuild_depuis_mysql w s) as [[st|e] s1]; exact Ha.
  - intros f. unfold endpoint_forcer_rebuild, forcer_rebuild.
    rewrite rebuild_ignore_sync. unfold resultat, etat_apres.
    destruct (rebuild_depuis_mysql w s) as [[st|e] s1]; reflexivity.
  - intros Hc. unfold endpoint_forcer_rebuild, forcer_rebuild, rebuild_depuis_mysql.
    deplier. rewrite Hc. reflexivity.
  - intros Hc Hr. unfold endpoint_forcer_rebuild, forcer_rebuild.
    rewrite (rebuild_base_vide_exec w s Hc Hr). reflexivity.
Qed.

(** ** Every poll returns *)

Lemma _declencher_rebuild_compte w raison s :
  let n := nb_declenchements (journal s) in
  let n' := nb_declenchements (journal (etat_apres (_declencher_rebuild w raison) s)) in
  (n <= n' <= S n)%nat.
Proof.
  cbv zeta. destruct (rebuild_en_cours (auto_sync s)) eqn:He.
  { unfold etat_apres, _declencher_rebuild. deplier. rewrite He. proj.
    rewrite nb_declenchements_cons. cbn. lia. }
  destruct (trop_tot (auto_sync s) (now_garde w)) eqn:Ht.
  - unfold etat_apres. rewrite (_declencher_rebuild_trop_tot w raison s He Ht). proj.
    rewrite nb_declenchements_cons. cbn. lia.
  - destruct (_declencher_rebuild_lance w raison s He Ht) as [_ ->]. lia.
Qed.


Lemma poll_borne_journal s s' e :
  est_declenchement e = false ->
  poll_borne (avec_journal (e :: journal s) s) s' -> poll_borne s s'.
Proof.
  unfold poll_borne. proj. rewrite nb_declenchements_cons. intros ->. auto.
Qed.

Lemma poll_borne_journal_apres s s' e :
  est_declenchement e = false ->
  poll_borne s s' -> poll_borne s (avec_journal (e :: journal s') s').
Proof.
  unfold poll_borne. proj. rewrite nb_declenchements_cons. intros ->. auto.
Qed.

Lemma poll_borne_baseline s s' t :
  poll_borne s s' -> poll_borne s (avec_sync (set_last_update_timestamp t) s').
Proof. unfold poll_borne. proj. auto. Qed.

Lemma poll_borne_refl s : poll_borne s s.
Proof. unfold poll_borne. split; [auto|lia]. Qed.

Lemma _declencher_rebuild_borne w raison s :
  resultat (_declencher_rebuild w raison) s = Retour tt /\
  poll_borne s (etat_apres (_declencher_rebuild w raison) s).
Proof.
  destruct (_declencher_rebuild_total w raison s) as (Hr & _ & Hf).
  split; [exact Hr|]. split; [exact Hf|apply _declencher_rebuild_compte].
Qed.

Lemma trigger_modification_borne w dernier s :
  resultat (trigger_modification w dernier) s = Retour tt /\
  poll_borne s (etat_apres (trigger_modification w dernier) s).
Proof.
  unfold resultat, etat_apres.
  destruct (last_update_timestamp (auto_sync s)) as [connu|] eqn:Hl.
  - destruct (Z.lt_ge_cases connu dernier).
    + rewrite (trigger_modification_modifie w dernier connu s Hl) by lia. cbn [fst snd].
      split; [reflexivity|]. apply poll_borne_baseline.
      apply (poll_borne_journal _ _ (LogTrigger3 connu dernier) eq_refl).
      apply _declencher_rebuild_borne.
    + rewrite (trigger_modification_inchange w dernier connu s Hl) by lia. cbn [fst snd].
      split; [reflexivity|].
      apply poll_borne_journal_apres; [reflexivity|apply poll_borne_refl].
  - rewrite (trigger_modification_init w dernier s Hl). cbn [fst snd].
    split; [reflexivity|]. apply poll_borne_baseline.
    apply poll_borne_journal_apres; [reflexivity|apply poll_borne_refl].
Qed.

Lemma _verifier_triggers_absent w s :
  rebuild_en_cours (auto_sync s) = false ->
  disque s !! FAISS_INDEX_PATH = None ->
  verifier w s =
    (Retour tt, etat_apres (_declencher_rebuild w IndexNExistePas)
                  (avec_journal (LogTrigger1 :: journal s) s)).
Proof.
  intros He Hp. unfold _verifier_triggers, etat_apres, avec_journal. deplier.
  rewrite He, is_Some_bool, Hp. cbn [negb].
  match goal with |- context [_declencher_rebuild w ?r ?s1] =>
    destruct (_declencher_rebuild_total w r s1) as [Hr _];
    unfold resultat in Hr; destruct (_declencher_rebuild w r s1) as [[[]|e] s2]
  end; [reflexivity|discriminate].
Qed.

Lemma _verifier_triggers_redemarrage w s f u :
  rebuild_en_cours (auto_sync s) = false ->
  disque s !! FAISS_INDEX_PATH = Some f ->
  connexion_surveillance w = true ->
  uptime_row w = Some u -> u < AUTO_SYNC_MYSQL_UPTIME_THRESHOLD ->
  verifier w s =
    (Retour tt, etat_apres (_declencher_rebuild w (MySQLRedemarre u))
                  (avec_journal (LogTrigger2 u :: journal s) s)).
Proof.
  intros He Hp Hc Hu Hlt. unfold _verifier_triggers, etat_apres, avec_journal. deplier.
  rewrite He, is_Some_bool, Hp, Hc, Hu. cbn [negb].
  replace (u <? AUTO_SYNC_MYSQL_UPTIME_THRESHOLD) with true by (symmetry; apply Z.ltb_lt; lia).
  match goal with |- context [_declencher_rebuild w ?r ?s1] =>
    destruct (_declencher_rebuild_total w r s1) as [Hr _];
    unfold resultat in Hr; destruct (_declencher_rebuild w r s1) as [[[]|e] s2]
  end; [reflexivity|discriminate].
Qed.

Lemma _verifier_triggers_injoignable w s f :
  rebuild_en_cours (auto_sync s) = false ->
  disque s !! FAISS_INDEX_PATH = Some f ->
  connexion_surveillance w = false ->
  verifier w s =
    (Retour tt, avec_journal (LogErreurSurveillance ErreurMySQL :: journal s) s).
Proof.
  intros He Hp Hc. unfold _verifier_triggers. deplier.
  rewrite He, is_Some_bool, Hp, Hc. reflexivity.
Qed.

Lemma _verifier_triggers_borne w s :
  resultat (verifier w) s = Retour tt /\ poll_borne s (etat_apres (verifier w) s).
Proof.
  destruct (rebuild_en_cours (auto_sync s)) eqn:He.
  { unfold resultat, etat_apres, _verifier_triggers. deplier. rewrite He.
    split; [reflexivity|apply poll_borne_refl]. }
  destruct (disque s !! FAISS_INDEX_PATH) as [f|] eqn:Hp.
  2:{ unfold resultat. unfold etat_apres at 1. rewrite (_verifier_triggers_absent w s He Hp).
      split; [reflexivity|]. cbn [snd].
      apply (poll_borne_journal _ _ LogTrigger1 eq_refl), _declencher_rebuild_borne. }
  destruct (connexion_surveillance w) eqn:Hc.
  2:{ unfold resultat, etat_apres. rewrite (_verifier_triggers_injoignable w s f He Hp Hc).
      split; [reflexivity|]. cbn [snd].
      apply poll_borne_journal_apres; [reflexivity|apply poll_borne_refl]. }
  assert (H3 : (match uptime_row w with
                | Some u => AUTO_SYNC_MYSQL_UPTIME_THRESHOLD <= u
                | None => True
                end) ->
    resultat (verifier w) s = Retour tt /\ poll_borne s (etat_apres (verifier w) s)).
  { intros Hu. destruct (dernier_changement w) as [dernier|] eqn:Hd.
    - unfold resultat, etat_apres.
      rewrite (_verifier_triggers_regle_3 FAISS_INDEX_PATH AUTO_SYNC_MYSQL_UPTIME_THRESHOLD
                 w s dernier); [|repeat split; eauto|exact Hd].
      apply trigger_modification_borne.
    - unfold resultat, etat_apres, _verifier_triggers. deplier.
      rewrite He, is_Some_bool, Hp, Hc, Hd. cbn [negb].
      destruct (uptime_row w) as [u|].
      + replace (u <? AUTO_SYNC_MYSQL_UPTIME_THRESHOLD) with false
          by (symmetry; apply Z.ltb_ge; lia).
        split; [reflexivity|apply poll_borne_refl].
      + split; [reflexivity|apply poll_borne_refl]. }
  destruct (uptime_row w) as [u|] eqn:Hu; [|apply H3; exact I].
  destruct (Z.lt_ge_cases u AUTO_SYNC_MYSQL_UPTIME_THRESHOLD) as [Hlt|Hge]; [|apply H3; lia].
  unfold resultat. unfold etat_apres at 1.
  rewrite (_verifier_triggers_redemarrage w s f u He Hp Hc Hu Hlt).
  split; [reflexivity|]. cbn [snd].
  apply (poll_borne_journal _ _ (LogTrigger2 u) eq_refl), _declencher_rebuild_borne.
Qed.

Lemma boucle_continue_borne polls : forall s,
  let s' := etat_apres (boucle polls) s in
  resultat (boucle polls) s = Retour tt /\
  (rebuild_en_cours (auto_sync s) = false -> rebuild_en_cours (auto_sync s') = false) /\
  (nb_declenchements (journal s) <= nb_declenchements (journal s') <=
   nb_declenchements (journal s) + length polls)%nat.
Proof.
  induction polls as [|w suite IH]; intros s; cbv zeta.
  - unfold resultat, etat_apres. cbn. split; [reflexivity|]. split; [auto|lia].
  - destruct (_verifier_triggers_borne w s) as [Hr [Hf Hn]].
    unfold resultat, etat_apres in *. cbn [boucle_continue]. deplier.
    destruct (verifier w s) as [r s1]. cbn [fst snd] in *. subst r.
    specialize (IH s1). cbv zeta in IH. destruct IH as (I1 & I2 & I3).
    split; [exact I1|]. split; [auto|]. cbn [length]. lia.
Qed.

(** X10: [_boucle_surveillance] never raises, whatever the polls observe
    and whatever the rebuilds do; it leaves [rebuild_en_cours] false when
    it found it false; and it starts at most one rebuild per poll. *)
Theorem boucle_surveillance_totale (polls : list Monde) (s : Etat) :
  let s' := etat_apres (surveillance polls) s in
  resultat (surveillance polls) s = Retour tt /\
  (rebuild_en_cours (auto_sync s) = false -> rebuild_en_cours (auto_sync s') = false) /\
  (nb_declenchements (journal s) <= nb_declenchements (journal s') <=
   nb_declenchements (journal s) + length polls)%nat.
Proof.
  cbv zeta. destruct polls as [|w suite].
  - unfold resultat, etat_apres. cbn. split; [reflexivity|]. split; [auto|lia].
  - destruct (_verifier_triggers_borne w s) as [Hr [Hf Hn]].
    unfold resultat, etat_apres in *. cbn [_boucle_surveillance]. deplier.
    destruct (verifier w s) as [r s1]. cbn [fst snd] in *. subst r.
    destruct (boucle_continue_borne suite s1) as (I1 & I2 & I3).
    unfold resultat, etat_apres in *.
    split; [exact I1|]. split; [auto|]. cbn [length]. lia.
Qed.

Lemma _verifier_triggers_en_cours w s :
  rebuild_en_cours (auto_sync s) = true -> verifier w s = (Retour tt, s).
Proof. intros He. unfold _verifier_triggers. deplier. rewrite He. reflexivity. Qed.

(** X11: while [rebuild_en_cours] is set, every poll returns at once: the
    loop changes nothing and logs nothing, whatever the polls observe. *)
Theorem boucle_surveillance_drapeau_leve (polls : list Monde) (s : Etat) :
  rebuild_en_cours (auto_sync s) = true ->
  surveillance polls s = (Retour tt, s).
Proof.
  intros He.
  assert (Hb : forall suite, boucle suite s = (Retour tt, s)).
  { induction suite as [|w suite IH]; [reflexivity|].
    cbn [boucle_continue]. deplier. rewrite (_verifier_triggers_en_cours w s He). exact IH. }
  destruct polls as [|w suite]; [reflexivity|].
  cbn [_boucle_surveillance]. deplier. rewrite (_verifier_triggers_en_cours w s He). apply Hb.
Qed.

(** X12: the rules are tried in order and the first that applies ends the
    poll.  When the index file is absent the poll requests a rebuild
    without consulting MySQL; when MySQL reports an uptime below the
    threshold it requests a rebuild without looking at the modification
    time; in both cases the baseline [last_update_timestamp] is left as it
    was.  When MySQL cannot be reached, the poll only logs the error. *)
Theorem regles_prioritaires (w : Monde) (s : Etat) :
  rebuild_en_cours (auto_sync s) = false ->
  let s' := etat_apres (verifier w) s in
  (disque s !! FAISS_INDEX_PATH = None ->
     verifier w s =
       (Retour tt, etat_apres (_declencher_rebuild w IndexNExistePas)
                     (avec_journal (LogTrigger1 :: journal s) s)) /\
     last_update_timestamp (auto_sync s') = last_update_timestamp (auto_sync s)) /\
  (forall f u,
     disque s !! FAISS_INDEX_PATH = Some f ->
     connexion_surveillance w = true ->
     uptime_row w = Some u -> u < AUTO_SYNC_MYSQL_UPTIME_THRESHOLD ->
     verifier w s =
       (Retour tt, etat_apres (_declencher_rebuild w (MySQLRedemarre u))
                     (avec_journal (LogTrigger2 u :: journal s) s)) /\
     last_update_timestamp (auto_sync s') = last_update_timestamp (auto_sync s)) /\
  (forall f,
     disque s !! FAISS_INDEX_PATH = Some f ->
     connexion_surveillance w = false ->
     verifier w s =
       (Retour tt, avec_journal (LogErreurSurveillance ErreurMySQL :: journal s) s)).
Proof.
  intros He s'. subst s'. split; [|split].
  - intros Hp. split; [apply (_verifier_triggers_absent w s He Hp)|].
    unfold etat_apres at 1. rewrite (_verifier_triggers_absent w s He Hp). cbn [snd].
    destruct (_declencher_rebuild_total w IndexNExistePas
                (avec_journal (LogTrigger1 :: journal s) s)) as (_ & Hl & _).
    exact Hl.
  - intros f u Hp Hc Hu Hlt.
    split; [apply (_verifier_triggers_redemarrage w s f u He Hp Hc Hu Hlt)|].
    unfold etat_apres at 1. rewrite (_verifier_triggers_redemarrage w s f u He Hp Hc Hu Hlt).
    cbn [snd].
    destruct (_declencher_rebuild_total w (MySQLRedemarre u)
                (avec_journal (LogTrigger2 u :: journal s) s)) as (_ & Hl & _).
    exact Hl.
  - intros f Hp Hc. apply (_verifier_triggers_injoignable w s f He Hp Hc).
Qed.

Lemma _declencher_rebuild_exec w raison s st s2 :
  rebuild_en_cours (auto_sync s) = false ->
  trop_tot (auto_sync s) (now_garde w) = false ->
  rebuild_depuis_mysql w
    (avec_journal (LogDeclenchement raison :: journal s)
       (avec_sync (set_dernier_rebuild_timestamp (Some (now_debut w)))
          (avec_sync (set_rebuild_en_cours true) s))) = (Retour st, s2) ->
  _declencher_rebuild w raison s =
    (Retour tt,
     avec_sync (set_rebuild_en_cours false)
       (avec_journal
          (match st with
           | StatsSucces n _ => LogRebuildReussi n
           | StatsEchec r => LogRebuildEchoue r
           end :: journal s2) s2)).
Proof.
  intros He Ht Hr. unfold _declencher_rebuild, avec_journal in *. deplier.
  rewrite He, Ht. proj. rewrite Hr. destruct st; reflexivity.
Qed.

(** X13: when the index file is absent, the published index is the one
    of the configured path (a file not itself named [id_mapping.json]),
    the guard lets the request through and the rebuild succeeds, one poll
    rebuilds the index, writes both files at the configured path (so the
    absence rule is silent afterwards), records the start time of the
    rebuild and clears [rebuild_en_cours]. *)
Theorem regle_absence_repare (w : Monde) (s : Etat) (emb : list vecteur) :
  let o := index_global s in
  let ids := map row_id (rows w) in
  let idx := {| index_d := dimension o; xb := map normalize_L2 emb |} in
  let s' := etat_apres (verifier w) s in
  rebuild_en_cours (auto_sync s) = false ->
  trop_tot (auto_sync s) (now_garde w) = false ->
  disque s !! FAISS_INDEX_PATH = None ->
  chemin_index o = FAISS_INDEX_PATH ->
  mapping_de FAISS_INDEX_PATH <> FAISS_INDEX_PATH ->
  connexion_rebuild w = true ->
  rows w <> [] ->
  encoder_batch w (textes_de w) = Some emb ->
  length emb = length (rows w) ->
  Forall (fun v => length v = dimension o) emb ->
  mkdir_ok w = true -> issue_write_index w = Ecrit -> issue_json_dump w = Ecrit ->
  resultat (verifier w) s = Retour tt /\
  index_global s' = index_reconstruit o emb ids /\
  disque s' !! FAISS_INDEX_PATH = Some (FichierIndex idx) /\
  disque s' !! mapping_de FAISS_INDEX_PATH = Some (FichierJson ids) /\
  auto_sync s' = apres_declenchement (now_debut w) (auto_sync s) /\
  journal s' =
    LogRebuildReussi (length (rows w)) :: LogDeclenchement IndexNExistePas ::
    LogTrigger1 :: journal s.
Proof.
  intros o ids idx s' He Ht Hp Hch Hne Hc Hr Henc Hl Hf Hm Hw Hj. subst s'.
  unfold resultat, etat_apres. rewrite (_verifier_triggers_absent w s He Hp).
  unfold etat_apres. cbn [fst snd].
  erewrite _declencher_rebuild_exec; [|exact He|exact Ht|apply rebuild_succes_exec; eassumption].
  proj. fold o. rewrite Hch. unfold disque_apres_sauvegarde.
  split; [reflexivity|]. split; [reflexivity|]. split; [|split].
  - rewrite lookup_insert_ne by exact Hne. apply lookup_insert_eq.
  - apply lookup_insert_eq.
  - split; [|reflexivity]. unfold apres_declenchement. reflexivity.
Qed.

Lemma ajouter_vecteurs_bien_forme_dim vecteurs ids normaliser s :
  dimension (index_global (etat_apres (ajouter_vecteurs vecteurs ids normaliser) s)) =
  dimension (index_global s).
Proof.
  unfold etat_apres, ajouter_vecteurs. deplier.
  destruct (index (index_global s)) as [idx|]; [|auto].
  destruct (negb _); [auto|].
  destruct (faiss_add idx _); auto.
Qed.

Lemma ajouter_vecteurs_disque vecteurs ids normaliser s :
  let s' := etat_apres (ajouter_vecteurs vecteurs ids normaliser) s in
  disque s' = disque s /\ ecritures s' = ecritures s /\
  chemin_index (index_global s') = chemin_index (index_global s).
Proof.
  cbv zeta. unfold etat_apres, ajouter_vecteurs. deplier.
  destruct (index (index_global s)) as [idx|]; [|auto].
  destruct (negb _); [auto|].
  destruct (faiss_add idx _); auto.
Qed.

Lemma sauvegarder_disque w c s c' :
  let cible := chemin_ou c (chemin_index (index_global s)) in
  c' <> cible -> c' <> mapping_de cible ->
  disque (etat_apres (sauvegarder w c) s) !! c' = disque s !! c'.
Proof.
  cbv zeta. intros H1 H2. unfold etat_apres, sauvegarder, ecrire. deplier.
  destruct (index (index_global s)) as [idx|]; [|reflexivity].
  destruct (mkdir_ok w); cbn [negb]; [|reflexivity].
  destruct (issue_write_index w); proj; try reflexivity.
  - destruct (issue_json_dump w); proj; rewrite ?lookup_insert_ne by congruence; reflexivity.
  - rewrite ?lookup_insert_ne by congruence; reflexivity.
Qed.

(** X8: on every outcome, [rebuild_depuis_mysql] leaves every file other
    than the index file and its mapping file as it was, and keeps the
    object's path and dimension. *)
Theorem rebuild_deux_chemins (w : Monde) (s : Etat) (c' : Chemin) :
  let c := chemin_index (index_global s) in
  let s' := etat_apres (rebuild_depuis_mysql w) s in
  c' <> c -> c' <> mapping_de c ->
  disque s' !! c' = disque s !! c' /\
  chemin_index (index_global s') = c /\
  dimension (index_global s') = dimension (index_global s).
Proof.
  cbv zeta. intros H1 H2. unfold etat_apres, rebuild_depuis_mysql. deplier.
  destruct (connexion_rebuild w); cbn [negb]; [|auto].
  destruct (rows w) as [|r rs]; [auto|].
  rewrite _creer_index_exec.
  destruct (encoder_batch w _) as [emb|]; [|auto].
  match goal with |- context [ajouter_vecteurs ?v ?i ?n ?s0] =>
    destruct (ajouter_vecteurs_disque v i n s0) as (Hd & _ & Hc);
    pose proof (ajouter_vecteurs_bien_forme_dim v i n s0) as Hdim;
    unfold etat_apres in Hd, Hc, Hdim;
    destruct (ajouter_vecteurs v i n s0) as [[[]|e1] s2]
  end; cbn [fst snd] in *; proj; [|rewrite Hd, Hc, Hdim; auto].
  pose proof (sauvegarder_disque w None s2 c') as Hs.
  pose proof (sauvegarder_index_global w None s2) as Hi.
  unfold etat_apres in Hs, Hi. cbn [chemin_ou] in Hs. rewrite Hc in Hs.
  specialize (Hs H1 H2).
  destruct (sauvegarder w None s2) as [[[]|e2] s3]; cbn [fst snd] in *; proj;
    rewrite Hs, Hd, Hi, Hc, Hdim; auto.
Qed.


(** X25: when the index file is absent and the source has no active row,
    a poll that passes the guard starts a rebuild that rebuilds nothing:
    the index, the disk (the file is still absent) and the list of writes
    are as before, but the time of the rebuild is recorded and the flag is
    cleared.  Every later poll finds the file absent again: inside the
    minimum interval its request is dropped, and from the end of the
    interval on it starts a rebuild again. *)
Theorem regle_absence_source_vide (w : Monde) (s : Etat) :
  let s' := etat_apres (verifier w) s in
  let intervalle := rebuild_min_interval_seconds (auto_sync s) * 1000000 in
  rebuild_en_cours (auto_sync s) = false ->
  trop_tot (auto_sync s) (now_garde w) = false ->
  disque s !! FAISS_INDEX_PATH = None ->
  connexion_rebuild w = true ->
  rows w = [] ->
  resultat (verifier w) s = Retour tt /\
  index_global s' = index_global s /\
  disque s' = disque s /\
  ecritures s' = ecritures s /\
  auto_sync s' = apres_declenchement (now_debut w) (auto_sync s) /\
  journal s' =
    LogRebuildEchoue "Base de donnees vide" :: LogBaseVide ::
    LogDeclenchement IndexNExistePas :: LogTrigger1 :: journal s /\
  (forall w2,
     now_garde w2 - now_debut w < intervalle ->
     verifier w2 s' =
       (Retour tt,
        avec_journal (LogSkipTropTot IndexNExistePas :: LogTrigger1 :: journal s') s')) /\
  (forall w2,
     intervalle <= now_garde w2 - now_debut w ->
     nb_declenchements (journal (etat_apres (verifier w2) s')) =
       S (nb_declenchements (journal s'))).
Proof.
  intros s' intervalle He Ht Hp Hc Hr.
  assert (Hs' : verifier w s =
    (Retour tt,
     avec_sync (set_rebuild_en_cours false)
       (avec_journal
          (LogRebuildEchoue "Base de donnees vide" :: LogBaseVide ::
           LogDeclenchement IndexNExistePas :: LogTrigger1 :: journal s)
          (avec_sync (set_dernier_rebuild_timestamp (Some (now_debut w)))
             (avec_sync (set_rebuild_en_cours true) s))))).
  { rewrite (_verifier_triggers_absent w s He Hp). unfold etat_apres.
    erewrite _declencher_rebuild_exec;
      [|exact He|exact Ht|apply rebuild_base_vide_exec; assumption].
    reflexivity. }
  subst s'. unfold resultat, etat_apres. rewrite Hs'. cbn [fst snd]. proj.
  match goal with |- context [verifier _ ?s0] => set (s1 := s0) end.
  assert (He1 : rebuild_en_cours (auto_sync s1) = false) by reflexivity.
  assert (Hp1 : disque s1 !! FAISS_INDEX_PATH = None) by exact Hp.
  do 5 (split; [reflexivity|]). split; [reflexivity|]. split.
  - intros w2 Hw2. rewrite (_verifier_triggers_absent w2 s1 He1 Hp1). unfold etat_apres.
    rewrite _declencher_rebuild_trop_tot; [reflexivity|reflexivity|].
    unfold trop_tot. cbn. apply Z.ltb_lt. exact Hw2.
  - intros w2 Hw2. rewrite (_verifier_triggers_absent w2 s1 He1 Hp1). cbn [snd].
    destruct (_declencher_rebuild_lance w2 IndexNExistePas
                (avec_journal (LogTrigger1 :: journal s1) s1)) as [_ Hn].
    + reflexivity.
    + unfold trop_tot. cbn. apply Z.ltb_ge. exact Hw2.
    + rewrite Hn. cbn [journal avec_journal]. rewrite nb_declenchements_cons. reflexivity.
Qed.

(** ** The request path *)


Lemma rechercher_index_vide q k s idx :
  index (index_global s) = Some idx ->
  faiss_ntotal idx = 0 -> 0 <= Z_ou k FAISS_TOP_K ->
  rechercher FAISS_TOP_K q k s =
    (Retour ([0%float], [-1]), avec_journal (LogIndexVide :: journal s) s).
Proof.
  intros Hi Hn Hk. unfold rechercher. deplier. rewrite Hi, Hn, Z.min_r by lia. reflexivity.
Qed.

Lemma rechercher_dimension q k s idx :
  index (index_global s) = Some idx ->
  Z.min (Z_ou k FAISS_TOP_K) (faiss_ntotal idx) <> 0 ->
  length q <> dimension (index_global s) ->
  rechercher FAISS_TOP_K q k s =
    (Leve (ExceptionDe "Erreur recherche FAISS"
             (ValueError "Dimension du vecteur != dimension de l'index")), s).
Proof.
  intros Hi Hk Hq. unfold rechercher. deplier. rewrite Hi.
  apply Z.eqb_neq in Hk. rewrite Hk. apply Nat.eqb_neq in Hq. rewrite Hq. reflexivity.
Qed.






Lemma rechercher_k_negatif q k s :
  bien_forme (index_global s) ->
  length q = dimension (index_global s) ->
  Z_ou k FAISS_TOP_K < 0 ->
  rechercher FAISS_TOP_K q k s =
    (Leve (ExceptionDe "Erreur recherche FAISS" ErreurFaiss), s).
Proof.
  intros (idx & Hi & Hd) Hq Hk. unfold rechercher. deplier. rewrite Hi.
  assert (Hn : 0 <= faiss_ntotal idx) by (unfold faiss_ntotal; lia).
  replace (Z.min _ _ =? 0) with false by (symmetry; apply Z.eqb_neq; lia).
  replace (Z.min _ _ <=? 0) with true by (symmetry; apply Z.leb_le; lia).
  rewrite Hq, Nat.eqb_refl. cbn [negb]. rewrite orb_true_r. reflexivity.
Qed.

Lemma rechercher_k_zero q s :
  rechercher FAISS_TOP_K q (Some 0) s = rechercher FAISS_TOP_K q (Some FAISS_TOP_K) s.
Proof.
  unfold rechercher.
  replace (Z_ou (Some FAISS_TOP_K) FAISS_TOP_K) with (Z_ou (Some 0) FAISS_TOP_K);
    [reflexivity|].
  unfold Z_ou. cbn. destruct (FAISS_TOP_K =? 0); reflexivity.
Qed.

Lemma corps_recherche_encodage m requete s e :
  embedding_de m requete = Leve e ->
  corps_recherche FAISS_TOP_K m requete s = (Leve e, s).
Proof.
  unfold embedding_de, corps_recherche. deplier.
  destruct (req_embedding requete); [discriminate|]. intros ->. reflexivity.
Qed.

Lemma corps_recherche_recherche m requete s e :
  embedding_de m requete = Retour e ->
  corps_recherche FAISS_TOP_K m requete s =
    match rechercher FAISS_TOP_K e (Some (req_k requete)) s with
    | (Leve err, s1) => (Leve err, s1)
    | (Retour (distances, indices), s1) =>
        let ids := map (id_de_position (id_mapping (index_global s1))) indices in
        match ids with
        | [] => (Retour None, s1)
        | premier :: _ =>
            if premier =? -1 then (Retour None, s1)
            else if negb (connexion_contexte m) then (Leve ErreurMySQL, s1)
            else
              match texte_reponse m requete ids with
              | Leve err => (Leve err, s1)
              | Retour texte =>
                  match distances with
                  | [] => (Leve (ValueError "IndexError: distances[0][0]"), s1)
                  | raw_score :: _ =>
                      (Retour (Some {| rep_reponse := avec_prefixe (confiance raw_score) texte;
                                       rep_confiance := confiance raw_score;
                                       rep_sources := ids |}), s1)
                  end
              end
        end
    end.
Proof.
  intros He. unfold corps_recherche, obtenir_ids_mysql, texte_reponse, avec_prefixe.
  unfold embedding_de in He.
  assert (Hm : match req_embedding requete return Prog vecteur with
               | Some e0 => @mret Prog _ _ (map f32 e0)
               | None => fun s0 : Etat => (encoder_question m (req_question requete), s0)
               end s = (Retour e, s)).
  { destruct (req_embedding requete) as [e0|];
      [injection He as ->; reflexivity|rewrite He; reflexivity]. }
  unfold mbind, prog_bind. unfold lier at 1. rewrite Hm. deplier.
  destruct (rechercher FAISS_TOP_K e (Some (req_k requete)) s) as [[[distances indices]|err] s1];
    [|reflexivity].
  cbn [fst snd].
  destruct (map _ indices) as [|premier reste]; [reflexivity|].
  destruct (premier =? -1); [reflexivity|].
  destruct (connexion_contexte m); cbn [negb]; [|reflexivity].
  destruct (generateur m) as [g|].
  - destruct (g _ _) as [texte|err]; [|reflexivity].
    destruct distances; reflexivity.
  - destruct (lignes_contexte m _) as [|row rows]; destruct distances; reflexivity.
Qed.

Lemma corps_recherche_etat m requete s :
  let s' := etat_apres (corps_recherche FAISS_TOP_K m requete) s in
  s' = s \/ s' = avec_journal (LogIndexVide :: journal s) s.
Proof.
  cbv zeta. unfold etat_apres.
  destruct (embedding_de m requete) as [e|err] eqn:He.
  2:{ rewrite (corps_recherche_encodage m requete s err He). left. reflexivity. }
  rewrite (corps_recherche_recherche m requete s e He).
  pose proof (rechercher_etat e (Some (req_k requete)) s) as Hs. cbv zeta in Hs.
  unfold etat_apres in Hs.
  destruct (rechercher FAISS_TOP_K e (Some (req_k requete)) s) as [[[distances indices]|err] s1];
    cbn [snd] in *; [|exact Hs].
  cbv zeta.
  destruct (map _ indices) as [|premier reste]; [exact Hs|].
  destruct (premier =? -1); [exact Hs|].
  destruct (negb _); [exact Hs|].
  destruct (texte_reponse m requete _); [|exact Hs].
  destruct distances; exact Hs.
Qed.

Lemma rechercher_et_generer_etat m requete s :
  snd (rechercher_et_generer FAISS_TOP_K m requete s) =
  etat_apres (corps_recherche FAISS_TOP_K m requete) s.
Proof.
  unfold rechercher_et_generer, etat_apres.
  destruct (corps_recherche FAISS_TOP_K m requete s) as [[[r|]|e] s1]; reflexivity.
Qed.

(** X15: [POST /search] is read-only: on every outcome the published
    index, the disk and the synchronizer are as before, and the state
    differs at most by the "empty index" warning in the log. *)
Theorem requete_lecture_seule (m : MondeRequete) (requete : RequeteRecherche) (s : Etat) :
  let s' := snd (rechercher_et_generer FAISS_TOP_K m requete s) in
  au_repos s s' /\
  (s' = s \/ s' = avec_journal (LogIndexVide :: journal s) s).
Proof.
  cbv zeta. rewrite rechercher_et_generer_etat.
  destruct (corps_recherche_etat m requete s) as [->| ->].
  - split; [apply au_repos_refl|left; reflexivity].
  - split; [apply au_repos_journal; reflexivity|right; reflexivity].
Qed.

(** X16: on an empty index, a request whose embedding is given or can be
    computed is answered 404 "Aucun resultat trouve" for every
    [k >= 0] and for an embedding of any dimension, without consulting
    MySQL or the generator. *)
Theorem requete_index_vide_404 (m : MondeRequete) (requete : RequeteRecherche) (s : Etat)
    (idx : FaissIndex) (e : vecteur) :
  index (index_global s) = Some idx ->
  faiss_ntotal idx = 0 ->
  0 <= Z_ou (Some (req_k requete)) FAISS_TOP_K ->
  embedding_de m requete = Retour e ->
  rechercher_et_generer FAISS_TOP_K m requete s =
    (HTTPException 404 AucunResultat, avec_journal (LogIndexVide :: journal s) s).
Proof.
  intros Hi Hn Hk He. unfold rechercher_et_generer.
  rewrite (corps_recherche_recherche m requete s e He).
  rewrite (rechercher_index_vide e (Some (req_k requete)) s idx Hi Hn Hk).
  reflexivity.
Qed.

(** X17: [POST /search] answers 500, with the exception's text as detail
    and without changing the state, when the encoder raises (the encoder's
    exception), when the index is non-empty and the embedding has another
    dimension (the wrapped dimension error), and when [k] is negative
    (the wrapped assertion of faiss). *)
Theorem requete_erreurs_500 (m : MondeRequete) (requete : RequeteRecherche) (s : Etat) :
  (forall err,
     embedding_de m requete = Leve err ->
     rechercher_et_generer FAISS_TOP_K m requete s =
       (HTTPException 500 (DetailErreur err), s)) /\
  (forall idx e,
     embedding_de m requete = Retour e ->
     index (index_global s) = Some idx ->
     Z.min (Z_ou (Some (req_k requete)) FAISS_TOP_K) (faiss_ntotal idx) <> 0 ->
     length e <> dimension (index_global s) ->
     rechercher_et_generer FAISS_TOP_K m requete s =
       (HTTPException 500
          (DetailErreur (ExceptionDe "Erreur recherche FAISS"
             (ValueError "Dimension du vecteur != dimension de l'index"))), s)) /\
  (forall e,
     embedding_de m requete = Retour e ->
     bien_forme (index_global s) ->
     length e = dimension (index_global s) ->
     Z_ou (Some (req_k requete)) FAISS_TOP_K < 0 ->
     rechercher_et_generer FAISS_TOP_K m requete s =
       (HTTPException 500
          (DetailErreur (ExceptionDe "Erreur recherche FAISS" ErreurFaiss)), s)).
Proof.
  split; [|split].
  - intros err He. unfold rechercher_et_generer.
    rewrite (corps_recherche_encodage m requete s err He). reflexivity.
  - intros idx e He Hi Hk Hq. unfold rechercher_et_generer.
    rewrite (corps_recherche_recherche m requete s e He).
    rewrite (rechercher_dimension e (Some (req_k requete)) s idx Hi Hk Hq). reflexivity.
  - intros e He Hb Hq Hk. unfold rechercher_et_generer.
    rewrite (corps_recherche_recherche m requete s e He).
    rewrite (rechercher_k_negatif e (Some (req_k requete)) s Hb Hq Hk). reflexivity.
Qed.

Lemma rechercher_cas q k s :
  etat_apres (rechercher FAISS_TOP_K q k) s = s \/
  rechercher FAISS_TOP_K q k s =
    (Retour ([0%float], [-1]), avec_journal (LogIndexVide :: journal s) s).
Proof.
  unfold etat_apres, rechercher. deplier.
  destruct (index (index_global s)) as [idx|]; [|left; reflexivity].
  destruct (Z.min _ _ =? 0); [right; reflexivity|].
  destruct (negb (Nat.eqb (length q) _)); [left; reflexivity|].
  destruct (negb _ || _); left; reflexivity.
Qed.

Lemma id_de_position_elem mapping i :
  id_de_position mapping i <> -1 -> id_de_position mapping i ∈ mapping.
Proof.
  intros H.
  destruct (Z_lt_ge_dec i 0) as [Hn|Hp];
    [destruct H; apply id_de_position_hors; lia|].
  destruct (Z_lt_ge_dec i (Z.of_nat (length mapping))) as [Hlt|Hge];
    [|destruct H; apply id_de_position_hors; lia].
  eapply list_elem_of_lookup_2. apply id_de_position_dans. lia.
Qed.

(** X18: every 200 answer of [POST /search] leaves the state unchanged,
    has a confidence in [[0, 1]] and at least one source, the first of
    which is an id of the mapping other than [-1]; MySQL was reachable;
    and its text is the generator's text, or without generator the answer
    of the first row fetched (a fixed sentence when no row came back),
    prefixed by the hedging sentence exactly when the confidence is below
    0.65. *)
Theorem requete_200_forme (m : MondeRequete) (requete : RequeteRecherche) (s s' : Etat)
    (r : ReponseRecherche) :
  rechercher_et_generer FAISS_TOP_K m requete s = (Reponse200 r, s') ->
  s' = s /\
  PrimFloat.leb 0 (rep_confiance r) = true /\
  PrimFloat.leb (rep_confiance r) 1 = true /\
  (exists premier reste,
     rep_sources r = premier :: reste /\ premier <> -1 /\
     premier ∈ id_mapping (index_global s)) /\
  connexion_contexte m = true /\
  exists texte,
    texte_reponse m requete (rep_sources r) = Retour texte /\
    rep_reponse r = avec_prefixe (rep_confiance r) texte.
Proof.
  unfold rechercher_et_generer.
  destruct (embedding_de m requete) as [e|err] eqn:He.
  2:{ rewrite (corps_recherche_encodage m requete s err He). discriminate. }
  rewrite (corps_recherche_recherche m requete s e He).
  destruct (rechercher_cas e (Some (req_k requete)) s) as [Hs|Hs].
  2:{ rewrite Hs. cbn. discriminate. }
  unfold etat_apres in Hs.
  destruct (rechercher FAISS_TOP_K e (Some (req_k requete)) s) as [[[distances indices]|err] s1];
    [|discriminate].
  cbn [snd] in Hs. subst s1. cbv zeta.
  destruct (map _ indices) as [|premier reste] eqn:Hids; [discriminate|].
  destruct (premier =? -1) eqn:Hp; [discriminate|].
  destruct (connexion_contexte m); cbn [negb]; [|discriminate].
  destruct (texte_reponse m requete (premier :: reste)) as [texte|err] eqn:Ht; [|discriminate].
  destruct distances as [|raw_score autres]; [discriminate|].
  intros [= <- <-]. cbn [rep_reponse rep_confiance rep_sources].
  destruct (confiance_intervalle raw_score) as [H0 H1].
  split; [reflexivity|]. split; [exact H0|]. split; [exact H1|]. split; [|split].
  - exists premier, reste. apply Z.eqb_neq in Hp. split; [reflexivity|]. split; [exact Hp|].
    destruct indices as [|i0 suite]; [discriminate|]. cbn [map] in Hids.
    injection Hids as Hi _. subst premier. apply id_de_position_elem, Hp.
  - reflexivity.
  - exists texte. auto.
Qed.


(** X20: a request with [k = 0] is served as a request with
    [k = FAISS_TOP_K]: zero is read as "not given", not as "no result". *)
Theorem requete_k_par_defaut (m : MondeRequete) (requete : RequeteRecherche) (s : Etat) :
  req_k requete = 0 ->
  rechercher_et_generer FAISS_TOP_K m requete s =
  rechercher_et_generer FAISS_TOP_K m
    {| req_embedding := req_embedding requete;
       req_question := req_question requete;
       req_k := FAISS_TOP_K |} s.
Proof.
  destruct requete as [emb question k]. cbn [req_k req_embedding req_question].
  intros ->. unfold rechercher_et_generer.
  destruct (embedding_de m {| req_embedding := emb; req_question := question; req_k := 0 |})
    as [e|err] eqn:He.
  - rewrite (corps_recherche_recherche m _ s e He).
    rewrite (corps_recherche_recherche m
               {| req_embedding := emb; req_question := question; req_k := FAISS_TOP_K |}
               s e He).
    cbn [req_k]. rewrite rechercher_k_zero. reflexivity.
  - rewrite (corps_recherche_encodage m _ s err He).
    rewrite (corps_recherche_encodage m
               {| req_embedding := emb; req_question := question; req_k := FAISS_TOP_K |}
               s err He).
    reflexivity.
Qed.

Lemma rebuild_encodage_exec w s :
  connexion_rebuild w = true ->
  rows w <> [] ->
  encoder_batch w (textes_de w) = None ->
  rebuild_depuis_mysql w s =
    (Leve (ExceptionDe "Erreur rebuild FAISS" ErreurEncodage),
     avec_journal (LogErreurRebuild ErreurEncodage :: journal s) (avec_index index_vide s)).
Proof.
  intros Hc Hr He. unfold rebuild_depuis_mysql. fold (textes_de w). deplier.
  rewrite Hc. proj. destruct (rows w) as [|r rs] eqn:Er in |- *; [destruct (Hr Er)|].
  rewrite <- Er. rewrite _creer_index_exec, He. reflexivity.
Qed.

(** X21: when a forced rebuild fails at the encoding step, the endpoint
    answers 500 and the index that serves the requests is left empty,
    whatever it held before, while the files on disk are unchanged; the
    next [POST /search] whose embedding is given or can be computed, with
    [k >= 0], is answered 404. *)
Theorem requete_apres_encodage_echoue (w : Monde) (m : MondeRequete)
    (requete : RequeteRecherche) (s : Etat) (e : vecteur) :
  let s1 := snd (endpoint_forcer_rebuild w s) in
  connexion_rebuild w = true ->
  rows w <> [] ->
  encoder_batch w (textes_de w) = None ->
  embedding_de m requete = Retour e ->
  0 <= Z_ou (Some (req_k requete)) FAISS_TOP_K ->
  fst (endpoint_forcer_rebuild w s) =
    HTTPException 500 (DetailErreur (ExceptionDe "Erreur rebuild FAISS" ErreurEncodage)) /\
  ntotal (index_global s1) = 0 /\
  disque s1 = disque s /\
  fst (rechercher_et_generer FAISS_TOP_K m requete s1) = HTTPException 404 AucunResultat.
Proof.
  intros s1 Hc Hr Henc He Hk. subst s1.
  unfold endpoint_forcer_rebuild, forcer_rebuild.
  rewrite (rebuild_encodage_exec w s Hc Hr Henc). cbn [fst snd].
  split; [reflexivity|]. split; [reflexivity|]. split; [reflexivity|].
  unfold rechercher_et_generer.
  set (s1 := avec_journal (LogErreurRebuild ErreurEncodage :: journal s)
               (avec_index index_vide s)).
  rewrite (corps_recherche_recherche m requete s1 e He).
  rewrite (rechercher_index_vide e (Some (req_k requete)) s1
             (IndexFlatIP (dimension (index_global s))));
    [reflexivity|reflexivity|reflexivity|exact Hk].
Qed.

End Complements.

(** * The properties on the concrete inputs *)

Lemma rebuild_source_vide_temoin :
  exists st s',
    rebuild_depuis_mysql (monde_de [] encodeur_ex None 0) etat_ex = (Retour st, s') /\
    success st = false /\ index_global s' = index_ex /\ disque s' = disque_ex.
Proof.
  destruct (rebuild_source_vide (monde_de [] encodeur_ex None 0) etat_ex
              eq_refl eq_refl) as [(st & s' & H1 & _ & H3 & H4 & H5 & _) _].
  exists st, s'. auto.
Defined.

(** C1, as stated, fails when the encoder raises: the published index had
    one vector mapped to the id 7 and is left empty. *)
Lemma rebuild_echec_index_inchange_refute :
  ~ (forall e s',
       rebuild_depuis_mysql (monde_de [ligne_ex] encodeur_en_panne (Some 1000) 0) etat_ex
         = (Leve e, s') ->
       ntotal (index_global s') = ntotal (index_global etat_ex) /\
       id_mapping (index_global s') = id_mapping (index_global etat_ex)).
Proof.
  intros H.
  specialize (H (ExceptionDe "Erreur rebuild FAISS" ErreurEncodage)
                (etat_apres (rebuild_depuis_mysql
                   (monde_de [ligne_ex] encodeur_en_panne (Some 1000) 0)) etat_ex)).
  destruct H as [H _]; [vm_compute; reflexivity|].
  vm_compute in H. discriminate H.
Qed.

Lemma rebuild_echec_index_publie_temoin :
  let w := monde_de [ligne_ex] encodeur_en_panne (Some 1000) 0 in
  let s' := etat_apres (rebuild_depuis_mysql w) etat_ex in
  rebuild_depuis_mysql w etat_ex
    = (Leve (ExceptionDe "Erreur rebuild FAISS" ErreurEncodage), s') /\
  index_global s' = index_vide index_ex.
Proof.
  intros w s'.
  assert (H : rebuild_depuis_mysql w etat_ex
              = (Leve (ExceptionDe "Erreur rebuild FAISS" ErreurEncodage), s'))
    by (vm_compute; reflexivity).
  split; [exact H|].
  destruct (rebuild_echec_index_publie w etat_ex s' _ H)
    as [(Hc & _)|[(_ & Hi & _)|(emb & He & _)]].
  - discriminate Hc.
  - exact Hi.
  - discriminate He.
Defined.

(** C2, as stated, fails on a dimension disagreement: configured for the
    dimension 3, the load keeps the saved two-dimensional index. *)
Lemma charger_index_dimension_refute :
  ~ (index_d faiss_ex <> dimension (index_global etat_dim3) ->
     let s' := etat_apres _charger_index etat_dim3 in
     ntotal (index_global s') = 0 /\
     dimension (index_global s') = dimension (index_global etat_dim3)).
Proof.
  intros H. destruct H as [H _]; [vm_compute; discriminate|].
  vm_compute in H. discriminate H.
Qed.

Lemma charger_index_issue_temoin :
  disque etat_dim3 !! chemin_ex = Some (FichierIndex faiss_ex) /\
  disque etat_dim3 !! mapping_de chemin_ex = Some (FichierJson [7]) /\
  index_global (etat_apres _charger_index etat_dim3) =
    {| chemin_index := chemin_ex; dimension := 2;
       index := Some faiss_ex; id_mapping := [7] |}.
Proof.
  assert (H1 : disque etat_dim3 !! chemin_ex = Some (FichierIndex faiss_ex))
    by (vm_compute; reflexivity).
  assert (H2 : disque etat_dim3 !! mapping_de chemin_ex = Some (FichierJson [7]))
    by (vm_compute; reflexivity).
  split; [exact H1|]. split; [exact H2|].
  destruct (charger_index_issue etat_dim3) as (_ & _ & _ & _ & H & _).
  exact (proj1 (H faiss_ex [7] H1 H2)).
Defined.



(** C3, as stated, fails: between the two writes of a save the structure
    file is the new one while the mapping file is still the previous one. *)
Lemma sauvegarder_etat_intermediaire_refute :
  ~ Forall (artefacts_ensemble chemin_ex faiss_maj [7; 8])
           (ecritures (etat_apres (sauvegarder monde_ex None) etat_maj)).
Proof.
  intros H.
  assert (He : ecritures (etat_apres (sauvegarder monde_ex None) etat_maj) =
               [disque_apres_sauvegarde chemin_ex faiss_maj [7; 8] disque_ex;
                <[chemin_ex := FichierIndex faiss_maj]> disque_ex]).
  { unfold etat_apres.
    rewrite (sauvegarder_succes monde_ex etat_maj faiss_maj eq_refl eq_refl eq_refl eq_refl).
    reflexivity. }
  rewrite He in H. apply Forall_cons_1 in H as [_ H]. apply Forall_cons_1 in H as [H _].
  destruct H as [H _]. specialize (H (lookup_insert_eq _ _ _)).
  vm_compute in H. discriminate H.
Qed.

Lemma sauvegarder_deux_ecritures_temoin :
  let s' := etat_apres (sauvegarder monde_ex None) etat_maj in
  disque s' !! chemin_ex = Some (FichierIndex faiss_maj) /\
  disque s' !! mapping_de chemin_ex = Some (FichierJson [7; 8]).
Proof.
  destruct (sauvegarder_deux_ecritures monde_ex etat_maj faiss_maj
              eq_refl eq_refl eq_refl) as (_ & H & _).
  destruct (H eq_refl) as (_ & _ & _ & H1 & H2).
  split; [apply H2; vm_compute; discriminate|exact H1].
Defined.

(** C7, as stated, fails on an empty index: a query of the wrong dimension
    gets the sentinel, not an error. *)
Lemma rechercher_dimension_index_vide_refute :
  ~ (length [1%float] <> dimension (index_global etat_vide) ->
     exists e s', rechercher 3 [1%float] (Some 3) etat_vide = (Leve e, s')).
Proof.
  intros H. destruct H as (e & s' & H); [vm_compute; discriminate|].
  vm_compute in H. discriminate H.
Qed.

Lemma rechercher_issue_temoin :
  exists distances indices,
    rechercher 3 [0%float; 1%float] (Some 5) etat_maj
      = (Retour (distances, indices), etat_maj) /\
    Z.of_nat (length distances) = 2 /\ Z.of_nat (length indices) = 2.
Proof.
  destruct (rechercher_issue 3 [0%float; 1%float] (Some 5) etat_maj faiss_maj eq_refl)
    as (_ & _ & H).
  apply H; [reflexivity|reflexivity|reflexivity|reflexivity].
Defined.

Lemma regle_3_exemple (w : Monde) (s : Etat) :
  rebuild_en_cours (auto_sync s) = false ->
  bool_decide (is_Some (disque s !! chemin_ex)) = true ->
  connexion_surveillance w = true ->
  uptime_row w = Some 86400 ->
  atteint_regle_3 chemin_ex 300 w s.
Proof.
  intros He Hp Hc Hu. unfold atteint_regle_3. rewrite Hu.
  apply bool_decide_eq_true in Hp. repeat split; auto. lia.
Qed.

(** C5, as stated, fails after a forced rebuild: the forced rebuild at the
    clock reading 0 succeeds and records no time, so the modification
    trigger of a poll one second later is not dropped; it starts a
    rebuild. *)
Lemma garde_anti_surcharge_refute :
  ~ (resultat (forcer_rebuild poll_1) etat_base = Retour (StatsSucces 1 2) ->
     now_garde poll_apres_1s - now_debut poll_1 <
       rebuild_min_interval_seconds (auto_sync etat_force) * 1000000 ->
     sans_rebuild etat_force
       (etat_apres (_verifier_triggers chemin_ex 300 poll_apres_1s) etat_force)).
Proof.
  intros H.
  destruct H as (_ & _ & _ & _ & _ & Hn);
    [vm_compute; reflexivity|vm_compute; reflexivity|].
  vm_compute in Hn. discriminate Hn.
Qed.

Lemma garde_anti_surcharge_temoin :
  let s1 := etat_apres (_verifier_triggers chemin_ex 300 poll_1) etat_base in
  let s2 := etat_apres (_verifier_triggers chemin_ex 300 poll_2) s1 in
  nb_declenchements (journal s1) = 1%nat /\
  s2 = avec_sync (set_last_update_timestamp (Some 2000))
         (avec_journal (LogSkipTropTot (BaseModifiee 2000)
                          :: LogTrigger3 1000 2000 :: journal s1) s1) /\
  sans_rebuild s1 s2.
Proof.
  intros s1 s2.
  destruct (garde_anti_surcharge chemin_ex 300) as (H1 & H2 & _ & _).
  assert (Hr1 : atteint_regle_3 chemin_ex 300 poll_1 etat_base)
    by (apply regle_3_exemple; vm_compute; reflexivity).
  assert (Hr2 : atteint_regle_3 chemin_ex 300 poll_2 s1)
    by (apply regle_3_exemple; vm_compute; reflexivity).
  destruct (H2 poll_1 poll_2 etat_base 500 1000 2000 Hr1 eq_refl eq_refl eq_refl
              ltac:(lia) Hr2 eq_refl ltac:(lia) ltac:(vm_compute; reflexivity))
    as [Hn Hv].
  split; [exact Hn|]. split.
  - unfold s2. unfold etat_apres at 1. unfold s1. rewrite Hv. reflexivity.
  - apply (H1 poll_2 s1 0); [vm_compute; reflexivity|vm_compute; reflexivity|].
    vm_compute. reflexivity.
Defined.

Lemma regle_modification_temoin :
  let s' := etat_apres (_verifier_triggers chemin_ex 300 poll_1) etat_base in
  etat_apres (_verifier_triggers chemin_ex 300 poll_1) etat_ex =
    avec_sync (set_last_update_timestamp (Some 1000))
      (avec_journal [LogInitTimestamp 1000] etat_ex) /\
  nb_declenchements (journal s') = 1%nat /\
  last_update_timestamp (auto_sync s') = Some 1000.
Proof.
  intros s'.
  assert (Hr0 : atteint_regle_3 chemin_ex 300 poll_1 etat_ex)
    by (apply regle_3_exemple; vm_compute; reflexivity).
  assert (Hr1 : atteint_regle_3 chemin_ex 300 poll_1 etat_base)
    by (apply regle_3_exemple; vm_compute; reflexivity).
  destruct (regle_modification chemin_ex 300 poll_1 etat_ex 1000 Hr0 eq_refl)
    as (_ & Hinit & _).
  destruct (regle_modification chemin_ex 300 poll_1 etat_base 1000 Hr1 eq_refl)
    as (_ & _ & _ & Hmod).
  destruct (Hmod 500 eq_refl ltac:(lia)) as [_ Hlance].
  destruct (Hlance eq_refl) as (Hn & Ha & _).
  split; [exact (Hinit eq_refl)|]. split; [exact Hn|].
  unfold s'. rewrite Ha. reflexivity.
Defined.

Lemma baseline_avance_sans_rebuild_temoin :
  let s' := etat_apres (_verifier_triggers chemin_ex 300 poll_1_bis) etat_garde in
  last_update_timestamp (auto_sync s') = Some 1000 /\
  index_global s' = index_ex /\
  nb_declenchements (journal s') = 0%nat /\
  au_repos s' (etat_apres (boucle_continue chemin_ex 300 [poll_1_ter]) s').
Proof.
  intros s'.
  assert (Hr : atteint_regle_3 chemin_ex 300 poll_1_bis etat_garde)
    by (apply regle_3_exemple; vm_compute; reflexivity).
  destruct (baseline_avance_sans_rebuild chemin_ex 300 poll_1_bis etat_garde 500 1000
              Hr eq_refl eq_refl ltac:(lia)) as (H1 & _ & H3 & H4).
  fold s' in H1, H3, H4.
  assert (Hs' : s' = avec_sync (set_last_update_timestamp (Some 1000))
                  (avec_journal [LogSkipTropTot (BaseModifiee 1000); LogTrigger3 500 1000]
                     etat_garde))
    by (apply H3; vm_compute; reflexivity).
  split; [exact H1|]. split; [rewrite Hs'; reflexivity|].
  split; [rewrite Hs'; reflexivity|].
  apply H4. constructor; [|constructor].
  split; [split|].
  - apply (bool_decide_eq_true_1 (is_Some (disque s' !! chemin_ex))).
    rewrite Hs'. vm_compute. reflexivity.
  - cbn. lia.
  - unfold sans_nouveaute. cbn. lia.
Defined.

Lemma confiance_bornee_temoin :
  PrimFloat.leb (-1) 0.25 = true /\ PrimFloat.leb 0.25 1 = true /\
  PrimFloat.eqb (confiance 0.25) (confiance_spec 0.25) = true /\
  PrimFloat.leb 0 (confiance 0.25) = true /\
  PrimFloat.leb (confiance 0.25) 1 = true.
Proof.
  assert (H1 : PrimFloat.leb (-1) 0.25 = true) by (vm_compute; reflexivity).
  assert (H2 : PrimFloat.leb 0.25 1 = true) by (vm_compute; reflexivity).
  split; [exact H1|]. split; [exact H2|].
  exact (confiance_bornee 0.25 H1 H2).
Defined.

Lemma appels_generateur_singleton_temoin :
  appels_generateur [(Leve ErreurOS, false); (Retour "autre"%string, true)] generateur_charge =
    ([Retour (Some "gemma-2-2b-it-q4"%string); Retour (Some "gemma-2-2b-it-q4"%string)],
     generateur_charge).
Proof.
  apply (appels_generateur_singleton
           [(Leve ErreurOS, false); (Retour "autre"%string, true)] generateur_charge
           "gemma-2-2b-it-q4"%string eq_refl).
Defined.


Lemma sauvegarder_puis_charger_temoin :
  index_global (etat_apres _charger_index (etat_apres (sauvegarder monde_ex None) etat_maj)) =
  index_global etat_maj.
Proof.
  destruct (sauvegarder_puis_charger monde_ex etat_maj faiss_maj
              eq_refl eq_refl eq_refl eq_refl) as (_ & _ & _ & H).
  - vm_compute. discriminate.
  - apply H. reflexivity.
Defined.

Lemma rebuild_reussi_temoin :
  resultat (rebuild_depuis_mysql monde_ex) etat_ex = Retour (StatsSucces 1 2) /\
  id_mapping (index_global (etat_apres (rebuild_depuis_mysql monde_ex) etat_ex)) = [10].
Proof.
  destruct (rebuild_reussi monde_ex etat_ex [[0%float; 2%float]])
    as (H1 & H2 & _);
    [reflexivity|discriminate|reflexivity|reflexivity|repeat constructor
    |reflexivity|reflexivity|reflexivity|].
  split; [exact H1|]. rewrite H2. reflexivity.
Defined.

Lemma rebuild_puis_redemarrage_temoin :
  let s1 := etat_apres (rebuild_depuis_mysql monde_ex) etat_ex in
  index_global (etat_apres (IndexFAISS_init chemin_ex 768 None None false) s1) =
  index_global s1.
Proof.
  destruct (rebuild_puis_redemarrage chemin_ex 768 monde_ex etat_ex [[0%float; 2%float]]
              None None) as (_ & _ & _ & H);
    [reflexivity|discriminate|reflexivity|reflexivity|repeat constructor
    |reflexivity|reflexivity|reflexivity|vm_compute; discriminate|reflexivity|].
  exact H.
Defined.

Lemma rebuild_deux_chemins_temoin :
  disque (etat_apres (rebuild_depuis_mysql monde_ex) etat_ex) !! chemin_voisin =
  disque etat_ex !! chemin_voisin.
Proof.
  destruct (rebuild_deux_chemins monde_ex etat_ex chemin_voisin) as (H & _).
  - vm_compute. discriminate.
  - vm_compute. discriminate.
  - exact H.
Defined.

Lemma boucle_surveillance_drapeau_leve_temoin :
  _boucle_surveillance chemin_ex 600 [poll_1; poll_2] etat_en_cours = (Retour tt, etat_en_cours).
Proof.
  apply (boucle_surveillance_drapeau_leve chemin_ex 600 [poll_1; poll_2] etat_en_cours eq_refl).
Defined.

Lemma regles_prioritaires_temoin :
  last_update_timestamp
    (auto_sync (etat_apres (_verifier_triggers chemin_ex 600 monde_ex) etat_vide)) = None.
Proof.
  destruct (regles_prioritaires chemin_ex 600 monde_ex etat_vide eq_refl) as (H & _).
  destruct H as [_ H]; [vm_compute; reflexivity|]. exact H.
Defined.

Lemma regle_absence_repare_temoin :
  let s' := etat_apres (_verifier_triggers chemin_ex 600 monde_ex) etat_vide in
  is_Some (disque s' !! chemin_ex) /\
  id_mapping (index_global s') = [10] /\
  dernier_rebuild_timestamp (auto_sync s') = Some 0.
Proof.
  destruct (regle_absence_repare chemin_ex 600 monde_ex etat_vide [[0%float; 2%float]])
    as (_ & H1 & H2 & _ & H3 & _);
    [reflexivity|reflexivity|vm_compute; reflexivity|reflexivity|vm_compute; discriminate
    |reflexivity|discriminate|reflexivity|reflexivity|repeat constructor
    |reflexivity|reflexivity|reflexivity|].
  cbv zeta. rewrite H1, H2, H3. split; [eexists; reflexivity|]. split; reflexivity.
Defined.

Lemma requete_index_vide_404_temoin :
  rechercher_et_generer 3 monde_requete_ex requete_dim1 etat_vide =
    (HTTPException 404 AucunResultat,
     avec_journal (LogIndexVide :: journal etat_vide) etat_vide).
Proof.
  apply (requete_index_vide_404 3 monde_requete_ex requete_dim1 etat_vide
           (IndexFlatIP 2) [1%float]);
    [reflexivity|reflexivity|vm_compute; discriminate|vm_compute; reflexivity].
Defined.

Lemma requete_200_forme_temoin :
  rechercher_et_generer 3 monde_requete_ex requete_ex etat_ex = (Reponse200 reponse_ex, etat_ex) /\
  PrimFloat.leb (rep_confiance reponse_ex) 1 = true /\
  exists premier reste,
    rep_sources reponse_ex = premier :: reste /\ premier <> -1 /\
    premier ∈ id_mapping (index_global etat_ex).
Proof.
  assert (H : rechercher_et_generer 3 monde_requete_ex requete_ex etat_ex =
              (Reponse200 reponse_ex, etat_ex)) by (vm_compute; reflexivity).
  split; [exact H|].
  destruct (requete_200_forme 3 monde_requete_ex requete_ex etat_ex etat_ex reponse_ex H)
    as (_ & _ & H1 & H2 & _).
  split; [exact H1|exact H2].
Defined.


Lemma requete_k_par_defaut_temoin :
  rechercher_et_generer 3 monde_requete_ex requete_ex etat_ex =
  rechercher_et_generer 3 monde_requete_ex
    {| req_embedding := Some [1%float; 0%float]; req_question := "Horaires ?"; req_k := 3 |}
    etat_ex.
Proof. apply (requete_k_par_defaut 3 monde_requete_ex requete_ex etat_ex eq_refl). Defined.

Lemma requete_apres_encodage_echoue_temoin :
  let w := monde_de [ligne_ex] encodeur_en_panne (Some 1000) 0 in
  fst (rechercher_et_generer 3 monde_requete_ex requete_ex
         (snd (endpoint_forcer_rebuild w etat_ex))) = HTTPException 404 AucunResultat.
Proof.
  intros w.
  destruct (requete_apres_encodage_echoue 3 w monde_requete_ex requete_ex etat_ex
              [1%float; 0%float]) as (_ & _ & _ & H);
    [reflexivity|discriminate|reflexivity|vm_compute; reflexivity|vm_compute; discriminate|].
  exact H.
Defined.

Lemma regle_absence_source_vide_temoin :
  let w := monde_de [] encodeur_ex None 0 in
  let s' := etat_apres (_verifier_triggers chemin_ex 600 w) etat_vide in
  disque s' = disque etat_vide /\ dernier_rebuild_timestamp (auto_sync s') = Some 0.
Proof.
  intros w s'.
  destruct (regle_absence_source_vide chemin_ex 600 w etat_vide)
    as (_ & _ & H1 & _ & H2 & _);
    [reflexivity|reflexivity|vm_compute; reflexivity|reflexivity|reflexivity|].
  split; [exact H1|]. subst s'. rewrite H2. reflexivity.
Defined.
